(** * irp-attendance: a shallow embedding of the attendance bot

    The development follows the layout of the repository:
    - [config/discord.py]   : the role and channel constants;
    - the part of discord.py the bot reads (members, channels, embeds);
    - [views/attendance.py] : [ExcuseView] and its three callbacks;
    - [models/database.py]  : [DatabaseManager] over a transactional store;
    - [cogs/attendance.py]  : the [take] and [report] commands and
      [AttendanceReport], with the content of its fields;
    - [cogs/reminder.py]    : [VoiceReminderCog].

    Python [int] is [Z]; a Python [str] is the list of its code points, so
    that [len] and slicing count what Python counts; a [dict] is a [gmap]
    and a [set] a [gset]; a wall-clock reading is a number.

    What the outside decides is a parameter of the callbacks: which calls
    on the database connection raise, and which edits, replies and
    followups Discord refuses.  A refused call raises in the callback, and
    the [except] of the callback answers. *)

From Stdlib Require Import ZArith NArith Ascii String List Bool Lia.
From Stdlib Require Import DecimalString DecimalPos DecimalZ.
From stdpp Require Import gmap list.

Local Open Scope Z_scope.
#[local] Set Warnings "-clear-no-such-hyp".

(* ===================================================================== *)
(** ** Python strings *)
(* ===================================================================== *)

Module Py.

Definition str := list N.

(** An ASCII literal of the source. *)
Definition lit (s : string) : str :=
  List.map N_of_ascii (list_ascii_of_string s).

(** [str(n)] and the [{n}] of an f-string, for an [int]. *)
Definition str_of_Z (n : Z) : str :=
  lit (NilZero.string_of_int (Z.to_int n)).

Definition str_of_nat (n : nat) : str := str_of_Z (Z.of_nat n).

Definition len (s : str) : Z := Z.of_nat (length s).

(** [s[:n]] for [0 <= n]. *)
Definition slice_to (n : Z) (s : str) : str := take (Z.to_nat n) s.

Fixpoint startswith (p s : str) : bool :=
  match p, s with
  | [], _ => true
  | _ :: _, [] => false
  | a :: p', b :: s' => (a =? b)%N && startswith p' s'
  end.

(** [needle in hay]: some suffix of [hay] starts with [needle]. *)
Fixpoint contains (needle hay : str) : bool :=
  startswith needle hay ||
  match hay with
  | [] => false
  | _ :: hay' => contains needle hay'
  end.

(** [s.split(sep)] for a one-character separator: never the empty list. *)
Fixpoint split (sep : N) (s : str) : list str :=
  match s with
  | [] => [[]]
  | c :: s' =>
      if (c =? sep)%N then [] :: split sep s'
      else match split sep s' with
           | [] => [[c]]
           | w :: ws => (c :: w) :: ws
           end
  end.

(** [sep.join(parts)]. *)
Fixpoint join (sep : str) (parts : list str) : str :=
  match parts with
  | [] => []
  | [p] => p
  | p :: ps => p ++ sep ++ join sep ps
  end.

Definition newline : N := 10%N.

(** [enumerate(l, 1)]. *)
Definition enumerate1 {A} (l : list A) : list (nat * A) :=
  combine (seq 1 (length l)) l.

End Py.

(* ===================================================================== *)
(** ** config/discord.py *)
(* ===================================================================== *)

Module Config.

Definition GUILD_ID : Z := 1329334053580836950.
Definition ALLOWED_ROLE_IDS : list Z := [1329341459329191948].

Inductive SkillGroupKey := Advanced | Mechanics.

Definition SKILL_GROUPS (k : SkillGroupKey) : Z :=
  match k with
  | Advanced => 1329349873790881853
  | Mechanics => 1329360868714086461
  end.

Definition ATTENDANCE_CHANNEL_ID : Z := 1329356087744532531.

Inductive UserType := coach | admin | manager | student | graduate.

Global Instance UserType_eq_dec : EqDecision UserType.
Proof. solve_decision. Defined.

Definition USER_ROLE_TYPES (role_id : Z) : option UserType :=
  if role_id =? 1329341459329191948 then Some coach
  else if role_id =? 1234567890123456 then Some admin
  else if role_id =? 2345678901234567 then Some manager
  else if role_id =? 3456789012345678 then Some student
  else if role_id =? 4567890123456789 then Some graduate
  else None.

(** Higher index, higher priority. *)
Definition ROLE_PRIORITY : list UserType :=
  [student; graduate; manager; admin; coach].

End Config.

(* ===================================================================== *)
(** ** The part of discord.py the bot reads *)
(* ===================================================================== *)

(** A [discord.Member].  discord.py compares and hashes members by [id], so
    [m in some_list] and set membership are decided on [member_id].
    [voice] is the id of the channel the member is connected to, [None]
    when [member.voice is None]. *)
Record Member := {
  member_id : Z;
  display_name : Py.str;
  roles : list Z;
  bot : bool;
  voice : option Z
}.

(** [member in members], by id. *)
Definition member_in (m : Member) (ms : list Member) : bool :=
  existsb (fun m' => member_id m' =? member_id m) ms.

(** A guild channel; [members] are the occupants of a voice channel. *)
Record Channel := {
  channel_id : Z;
  channel_name : Py.str;
  is_voice : bool;
  members : list Member
}.

Record Guild := {
  guild_name : Py.str;
  guild_members : list Member;
  channels : list Channel;
  guild_roles : list (Z * Py.str)
}.

Definition get_channel (g : Guild) (cid : Z) : option Channel :=
  List.find (fun c => channel_id c =? cid) (channels g).

Definition voice_channels (g : Guild) : list Channel :=
  List.filter is_voice (channels g).

Definition get_member (g : Guild) (uid : Z) : option Member :=
  List.find (fun m => member_id m =? uid) (guild_members g).

(** [guild.get_role(role_id)]: the role's name when the guild has it. *)
Definition get_role (g : Guild) (rid : Z) : option Py.str :=
  match List.find (fun r => fst r =? rid) (guild_roles g) with
  | Some r => Some (snd r)
  | None => None
  end.

(** [role in member.roles] for the role with id [rid]. *)
Definition has_role (rid : Z) (m : Member) : bool :=
  existsb (fun r => r =? rid) (roles m).

(** [any(role.id in ALLOWED_ROLE_IDS for role in member.roles)]. *)
Definition has_allowed_role (m : Member) : bool :=
  existsb (fun r => existsb (fun a => a =? r) Config.ALLOWED_ROLE_IDS) (roles m).

Record Interaction := {
  user : Member;
  guild : Guild
}.

(** [discord.Embed]: the fields are (name, value, inline).  The colour and
    the timestamp of an embed, which no code of the bot reads back, are
    left out. *)
Record Field := {
  field_name : Py.str;
  field_value : Py.str;
  field_inline : bool
}.

Global Instance Field_eq_dec : EqDecision Field.
Proof. solve_decision. Defined.

Record Embed := {
  title : Py.str;
  description : option Py.str;
  fields : list Field;
  footer : option Py.str
}.

Definition add_field (e : Embed) (f : Field) : Embed :=
  {| title := title e; description := description e;
     fields := fields e ++ [f]; footer := footer e |}.

Definition set_footer (e : Embed) (text : Py.str) : Embed :=
  {| title := title e; description := description e;
     fields := fields e; footer := Some text |}.

(** [embed.set_field_at(index, ...)]: [IndexError] (here [None]) when the
    index is out of range. *)
Definition set_field_at (e : Embed) (index : nat) (f : Field) : option Embed :=
  if decide (index < length (fields e))%nat then
    Some {| title := title e; description := description e;
            fields := <[index := f]> (fields e); footer := footer e |}
  else None.

(** [embed.fields.index(field)]: the first field equal to [field]. *)
Fixpoint fields_index (fs : list Field) (f : Field) : option nat :=
  match fs with
  | [] => None
  | f' :: fs' =>
      if decide (f' = f) then Some 0%nat
      else match fields_index fs' f with
           | Some i => Some (S i)
           | None => None
           end
  end.

(* ===================================================================== *)
(** ** The relational store behind mysql.connector *)
(* ===================================================================== *)

(** The three tables the queries name, with the columns the queries name.
    Dates are clock readings. *)
Module Db.

Record SessionRow := {
  s_id : Z;
  s_session_name : Py.str;
  s_user : Py.str;
  s_skill_group : Py.str;
  s_season : Z;
  s_created_date : Z;
  s_modified_date : Z
}.

Record LedgerRow := {
  l_session_id : Z;
  l_student_id : Py.str;
  l_is_present : bool;
  l_is_excused : bool;
  l_event_date : Z
}.

Record UserRow := {
  u_id : Z;
  u_name : Py.str;
  u_discord_id : Py.str;
  u_user_type : Config.UserType;
  u_skill_group : option Config.SkillGroupKey;
  u_is_active : Z
}.

Record Tables := {
  session : list SessionRow;
  ledger : list LedgerRow;
  user : list UserRow
}.

(** What the server holds between connections: the committed rows and the
    AUTO_INCREMENT counters of [session] and [user] (a counter that a
    rolled-back insert has advanced stays advanced). *)
Record Store := {
  tables : Tables;
  next_session_id : Z;
  next_user_id : Z
}.

(** An open connection with autocommit off: [working] is the view of the
    running transaction, [committed] what a rollback or a close without
    commit falls back to.  [calls] counts the calls made on the connection
    and its cursor. *)
Record Connection := {
  committed : Tables;
  working : Tables;
  session_counter : Z;
  user_counter : Z;
  calls : nat
}.

(** The environment of one database call: whether [connect] succeeds and
    which calls on the connection, by their index, raise
    [mysql.connector.Error]. *)
Record Faults := {
  connect_ok : bool;
  raises : nat -> bool
}.

Definition no_faults : Faults :=
  {| connect_ok := true; raises := fun _ => false |}.

(** A call either returns or raises [mysql.connector.Error]. *)
Inductive Result (A : Type) :=
| Ok (a : A)
| MysqlError.
Arguments Ok {A} a.
Arguments MysqlError {A}.

Definition M (A : Type) : Type := Faults -> Connection -> Result A * Connection.

Definition ret {A} (a : A) : M A := fun _ c => (Ok a, c).

Definition bind {A B} (m : M A) (k : A -> M B) : M B :=
  fun f c =>
    match m f c with
    | (Ok a, c') => k a f c'
    | (MysqlError, c') => (MysqlError, c')
    end.

Notation "x <- m ;; k" := (bind m (fun x => k))
  (at level 63, m at next level, right associativity, only parsing).

Definition tick_call (c : Connection) : Connection :=
  {| committed := committed c; working := working c;
     session_counter := session_counter c; user_counter := user_counter c;
     calls := S (calls c) |}.

(** One call on the connection: it raises when the fault plan says so, and
    otherwise applies [op] to the transaction. *)
Definition call {A} (op : Connection -> A * Connection) : M A :=
  fun f c =>
    if raises f (calls c) then (MysqlError, tick_call c)
    else let '(a, c') := op c in (Ok a, tick_call c').

(** [for x in xs: body(x)]. *)
Fixpoint for_each {A} (xs : list A) (body : A -> M unit) : M unit :=
  match xs with
  | [] => ret tt
  | x :: xs' => _ <- body x ;; for_each xs' body
  end.

(** [DatabaseManager.create_connection]: [None] when [connect] raises. *)
Definition create_connection (f : Faults) (st : Store) : option Connection :=
  if connect_ok f then
    Some {| committed := tables st; working := tables st;
            session_counter := next_session_id st;
            user_counter := next_user_id st; calls := 0%nat |}
  else None.

(** [connection.cursor()]. *)
Definition cursor : M unit := call (fun c => (tt, c)).

(** [cursor.execute(session_query, values)] followed by [cursor.lastrowid]. *)
Definition insert_session
    (name user_ skill : Py.str) (season_ created modified : Z) : M Z :=
  call (fun c =>
    let sid := session_counter c in
    let row := {| s_id := sid; s_session_name := name; s_user := user_;
                  s_skill_group := skill; s_season := season_;
                  s_created_date := created; s_modified_date := modified |} in
    (sid,
     {| committed := committed c;
        working := {| session := session (working c) ++ [row];
                      ledger := ledger (working c);
                      user := user (working c) |};
        session_counter := sid + 1; user_counter := user_counter c;
        calls := calls c |})).

(** [cursor.execute(ledger_query, values)]. *)
Definition insert_ledger (row : LedgerRow) : M unit :=
  call (fun c =>
    (tt,
     {| committed := committed c;
        working := {| session := session (working c);
                      ledger := ledger (working c) ++ [row];
                      user := user (working c) |};
        session_counter := session_counter c; user_counter := user_counter c;
        calls := calls c |})).

(** [connection.commit()]. *)
Definition commit : M unit :=
  call (fun c =>
    (tt,
     {| committed := working c; working := working c;
        session_counter := session_counter c; user_counter := user_counter c;
        calls := calls c |})).

(** [connection.rollback()]. *)
Definition rollback : M unit :=
  call (fun c =>
    (tt,
     {| committed := committed c; working := committed c;
        session_counter := session_counter c; user_counter := user_counter c;
        calls := calls c |})).

(** [connection.close()]: what was not committed is gone. *)
Definition close (c : Connection) : Store :=
  {| tables := committed c;
     next_session_id := session_counter c;
     next_user_id := user_counter c |}.

End Db.

(* ===================================================================== *)
(** ** models/database.py *)
(* ===================================================================== *)

(** How a call of a method of the bot ends: it returns, or an exception
    that the method does not handle leaves it. *)
Inductive Outcome (A : Type) :=
| Returned (a : A)
| Raised.
Arguments Returned {A} a.
Arguments Raised {A}.

Module DatabaseManager.
Import Db.

(** The rows of the two loops of [create_attendance_records]. *)
Definition present_row (session_id current_time : Z) (member : Member) : LedgerRow :=
  {| l_session_id := session_id;
     l_student_id := Py.str_of_Z (member_id member);
     l_is_present := true; l_is_excused := false;
     l_event_date := current_time |}.

Definition absent_row (session_id current_time : Z) (excused_members : gset Z)
    (member : Member) : LedgerRow :=
  {| l_session_id := session_id;
     l_student_id := Py.str_of_Z (member_id member);
     l_is_present := false;
     l_is_excused := bool_decide (member_id member ∈ excused_members);
     l_event_date := current_time |}.

(** The [try] block of [create_attendance_records] after the cursor is
    bound: the session insert, the two loops, the commit. *)
Definition attendance_statements
    (current_time user_id : Z) (session_name skill_group : Py.str) (season : Z)
    (present_members absent_members : list Member) (excused_members : gset Z)
    : M bool :=
  session_id <- insert_session session_name (Py.str_of_Z user_id) skill_group
                               season current_time current_time ;;
  _ <- for_each present_members
         (fun member => insert_ledger (present_row session_id current_time member)) ;;
  _ <- for_each absent_members
         (fun member =>
            insert_ledger (absent_row session_id current_time excused_members member)) ;;
  _ <- commit ;;
  ret true.

(** [create_attendance_records].  [except Error] rolls back and returns
    [False]; the [finally] block closes the cursor and the connection.  When
    [connection.cursor()] itself raised, [cursor] is unbound in [finally]
    and the [UnboundLocalError] leaves the method; so does an [Error] of
    [rollback]. *)
Definition create_attendance_records
    (f : Faults) (current_time : Z)
    (user_id : Z) (session_name skill_group : Py.str) (season : Z)
    (present_members absent_members : list Member) (excused_members : gset Z)
    (st : Store) : Outcome bool * Store :=
  match create_connection f st with
  | None => (Returned false, st)
  | Some connection =>
      match cursor f connection with
      | (MysqlError, c) =>
          let '(_, c') := rollback f c in (Raised, close c')
      | (Ok _, c) =>
          match attendance_statements current_time user_id session_name
                  skill_group season present_members absent_members
                  excused_members f c with
          | (Ok b, c') => (Returned b, close c')
          | (MysqlError, c') =>
              match rollback f c' with
              | (Ok _, c'') => (Returned false, close c'')
              | (MysqlError, c'') => (Raised, close c'')
              end
          end
      end
  end.

(** *** [sync_users] *)

(** [ROLE_PRIORITY.index(x) if x in ROLE_PRIORITY else -1]. *)
Fixpoint priority_index (l : list Config.UserType) (x : Config.UserType) : Z :=
  match l with
  | [] => -1
  | y :: l' =>
      if decide (y = x) then 0
      else let i := priority_index l' x in if i <? 0 then -1 else i + 1
  end.

Definition priority_key (x : Config.UserType) : Z :=
  priority_index Config.ROLE_PRIORITY x.

(** [sorted(l, key=key)]: a stable sort, ascending. *)
Fixpoint insert_by {A} (key : A -> Z) (x : A) (l : list A) : list A :=
  match l with
  | [] => [x]
  | y :: l' => if key x <=? key y then x :: l else y :: insert_by key x l'
  end.

Definition sorted_by {A} (key : A -> Z) (l : list A) : list A :=
  fold_right (insert_by key) [] l.

(** The role loop: the role types of the member, in role order, and the
    skill group of the last skill-group role. *)
Definition member_role_types (member : Member) : list Config.UserType :=
  omap Config.USER_ROLE_TYPES (roles member).

Definition member_skill_group (member : Member) : option Config.SkillGroupKey :=
  fold_left
    (fun skill_group role_id =>
       if role_id =? Config.SKILL_GROUPS Config.Advanced then Some Config.Advanced
       else if role_id =? Config.SKILL_GROUPS Config.Mechanics then Some Config.Mechanics
       else skill_group)
    (roles member) None.

(** The user type [sync_users] stores for a member, [None] when the loop
    body [continue]s before touching the database. *)
Definition member_user_type (member : Member) : option Config.UserType :=
  if bot member then None
  else match List.rev (sorted_by priority_key (member_role_types member)) with
       | [] => None
       | user_type :: _ =>
           match user_type with
           | Config.student | Config.coach => Some user_type
           | _ => None
           end
       end.

Definition set_user (c : Connection) (rows : list UserRow) (counter : Z) : Connection :=
  {| committed := committed c;
     working := {| session := session (working c);
                   ledger := ledger (working c);
                   user := rows |};
     session_counter := session_counter c; user_counter := counter;
     calls := calls c |}.

(** [SELECT id FROM user WHERE discord_id = %s] and [fetchone()]. *)
Definition select_user (discord_id : Py.str) : M (option Z) :=
  call (fun c =>
    (match List.find (fun r => bool_decide (u_discord_id r = discord_id))
                     (user (working c)) with
     | Some r => Some (u_id r)
     | None => None
     end, c)).

(** [UPDATE user SET name, user_type, skill_group, is_active WHERE discord_id]. *)
Definition update_row (name : Py.str) (user_type : Config.UserType)
    (skill_group : option Config.SkillGroupKey) (is_active : Z)
    (discord_id : Py.str) (r : UserRow) : UserRow :=
  if bool_decide (u_discord_id r = discord_id) then
    {| u_id := u_id r; u_name := name; u_discord_id := u_discord_id r;
       u_user_type := user_type; u_skill_group := skill_group;
       u_is_active := is_active |}
  else r.

Definition update_user (name : Py.str) (user_type : Config.UserType)
    (skill_group : option Config.SkillGroupKey) (is_active : Z)
    (discord_id : Py.str) : M unit :=
  call (fun c =>
    (tt, set_user c
           (List.map (update_row name user_type skill_group is_active discord_id)
                     (user (working c)))
           (user_counter c))).

(** [INSERT INTO user (name, discord_id, user_type, skill_group, is_active)]. *)
Definition insert_user (name discord_id : Py.str) (user_type : Config.UserType)
    (skill_group : option Config.SkillGroupKey) (is_active : Z) : M unit :=
  call (fun c =>
    (tt, set_user c
           (user (working c) ++
            [{| u_id := user_counter c; u_name := name;
                u_discord_id := discord_id; u_user_type := user_type;
                u_skill_group := skill_group; u_is_active := is_active |}])
           (user_counter c + 1))).

(** One round of the [for member in members] loop, on the two counters. *)
Definition sync_member (member : Member) (counts : Z * Z) : M (Z * Z) :=
  match member_user_type member with
  | None => ret counts
  | Some user_type =>
      let skill_group := member_skill_group member in
      let discord_id := Py.str_of_Z (member_id member) in
      existing_user <- select_user discord_id ;;
      match existing_user with
      | Some _ =>
          _ <- update_user (display_name member) user_type skill_group 1 discord_id ;;
          ret (fst counts, snd counts + 1)
      | None =>
          _ <- insert_user (display_name member) discord_id user_type skill_group 1 ;;
          ret (fst counts + 1, snd counts)
      end
  end.

Fixpoint sync_members (members : list Member) (counts : Z * Z) : M (Z * Z) :=
  match members with
  | [] => ret counts
  | member :: rest =>
      counts' <- sync_member member counts ;;
      sync_members rest counts'
  end.

(** [sync_users]: [(success, users_added, users_updated)].  [except Error]
    returns [(False, 0, 0)] without a rollback; the connection is closed
    with the transaction uncommitted. *)
Definition sync_users (f : Faults) (members : list Member) (st : Store)
    : Outcome (bool * Z * Z) * Store :=
  match create_connection f st with
  | None => (Returned (false, 0, 0), st)
  | Some connection =>
      match cursor f connection with
      | (MysqlError, c) => (Raised, close c)
      | (Ok _, c) =>
          match (counts <- sync_members members (0, 0) ;;
                 _ <- commit ;; ret counts) f c with
          | (Ok counts, c') => (Returned (true, fst counts, snd counts), close c')
          | (MysqlError, c') => (Returned (false, 0, 0), close c')
          end
      end
  end.

End DatabaseManager.

(* ===================================================================== *)
(** ** views/attendance.py *)
(* ===================================================================== *)

(** The components of a [discord.ui.View]. *)
Inductive Item :=
| Button (label custom_id : Py.str) (disabled : bool)
| Select (placeholder : Py.str) (options : list (Py.str * Py.str)).

Definition is_select (it : Item) : bool :=
  match it with Select _ _ => true | Button _ _ _ => false end.

(** [Item.width]: the places an item takes in a row of five. *)
Definition width (it : Item) : nat :=
  match it with Button _ _ _ => 1 | Select _ _ => 5 end.

(** [view.remove_item(item)] for the select menu: the first occurrence. *)
Fixpoint remove_select (items : list Item) : list Item :=
  match items with
  | [] => []
  | it :: rest => if is_select it then rest else it :: remove_select rest
  end.

(** [_ViewWeights.find_open_space]: the first row with room for
    [item_width] more places, [None] for its [ValueError]. *)
Fixpoint find_open_space (row_weights : list nat) (item_width : nat) : option nat :=
  match row_weights with
  | [] => None
  | weight :: rest =>
      if (weight + item_width <=? 5)%nat then Some 0%nat
      else option_map S (find_open_space rest item_width)
  end.

(** What Discord makes of the calls of a callback.  Any of them can be
    refused, which raises [HTTPException]: [edit_fails] tells it for
    [message.edit] and [response.edit_message], by the embed and the
    components sent; [reply_fails] for [response.send_message], by the
    text. *)
Record Discord := {
  edit_fails : option Embed -> list Item -> bool;
  reply_fails : Py.str -> bool
}.

Module Discord.

(** Every call goes through. *)
Definition works : Discord :=
  {| edit_fails := fun _ _ => false; reply_fails := fun _ => false |}.

End Discord.

(** [ExcuseView].  [excused_members] is a Python set of members, which
    discord.py hashes and compares by id.  [select_student] is bound only
    when there are absent members.  [weights] holds the places taken in
    each of the five rows of the view, and [rendered_row] the
    [_rendered_row] of [select_student]: the row its last [add_item] gave
    it, until a [remove_item] clears it. *)
Record ExcuseView := {
  timeout : Z;
  absent_members : list Member;
  original_embed : Embed;
  excused_members : gset Z;
  session_name : Py.str;
  skill_group : Py.str;
  season : Z;
  select_student : option Item;
  children : list Item;
  weights : list nat;
  rendered_row : option nat
}.

Module ExcuseView.

Definition excuse_button : Item :=
  Button (Py.lit "Mark Excused Absence") (Py.lit "excuse_button") false.

Definition log_button : Item :=
  Button (Py.lit "Log Attendance") (Py.lit "log_button") false.

Definition student_select (absent : list Member) : Item :=
  Select (Py.lit "Select student to excuse...")
         (List.map (fun member => (display_name member, Py.str_of_Z (member_id member)))
                   absent).

(** [ExcuseView.__init__].  The buttons it adds take one place each in the
    first row. *)
Definition init (absent : list Member) (embed : Embed)
    (name group : Py.str) (season_ : Z) : ExcuseView :=
  {| timeout := 300;
     absent_members := absent;
     original_embed := embed;
     excused_members := ∅;
     session_name := name;
     skill_group := group;
     season := season_;
     select_student := match absent with
                       | [] => None
                       | _ :: _ => Some (student_select absent)
                       end;
     children := match absent with
                 | [] => [log_button]
                 | _ :: _ => [excuse_button; log_button]
                 end;
     weights := match absent with
                | [] => [1; 0; 0; 0; 0]%nat
                | _ :: _ => [2; 0; 0; 0; 0]%nat
                end;
     rendered_row := None |}.

Definition with_children (v : ExcuseView) (items : list Item) : ExcuseView :=
  {| timeout := timeout v; absent_members := absent_members v;
     original_embed := original_embed v; excused_members := excused_members v;
     session_name := session_name v; skill_group := skill_group v;
     season := season v; select_student := select_student v;
     children := items; weights := weights v; rendered_row := rendered_row v |}.

Definition with_excused (v : ExcuseView) (excused : gset Z) : ExcuseView :=
  {| timeout := timeout v; absent_members := absent_members v;
     original_embed := original_embed v; excused_members := excused;
     session_name := session_name v; skill_group := skill_group v;
     season := season v; select_student := select_student v;
     children := children v; weights := weights v;
     rendered_row := rendered_row v |}.

Definition with_original_embed (v : ExcuseView) (embed : Embed) : ExcuseView :=
  {| timeout := timeout v; absent_members := absent_members v;
     original_embed := embed; excused_members := excused_members v;
     session_name := session_name v; skill_group := skill_group v;
     season := season v; select_student := select_student v;
     children := children v; weights := weights v;
     rendered_row := rendered_row v |}.

(** [View.add_item]: [None] for the [ValueError] it raises when the view
    holds 25 items or no row has room for the item.  The item goes to the
    first row with room, which is kept in its [_rendered_row]; the view
    follows that of the select menu, the one item it ever removes. *)
Definition add_item (v : ExcuseView) (item : Item) : option ExcuseView :=
  if (25 <=? length (children v))%nat then None
  else
    match find_open_space (weights v) (width item) with
    | None => None
    | Some index =>
        Some {| timeout := timeout v; absent_members := absent_members v;
                original_embed := original_embed v;
                excused_members := excused_members v;
                session_name := session_name v; skill_group := skill_group v;
                season := season v; select_student := select_student v;
                children := children v ++ [item];
                weights := alter (fun weight => weight + width item)%nat index
                                 (weights v);
                rendered_row := if is_select item then Some index
                                else rendered_row v |}
    end.

(** [View.remove_item(self.select_student)]: the first occurrence of the
    menu leaves the children, and the row in its [_rendered_row], if any,
    gets the five places back; nothing happens when the menu is not among
    the children. *)
Definition remove_item (v : ExcuseView) : ExcuseView :=
  if existsb is_select (children v) then
    {| timeout := timeout v; absent_members := absent_members v;
       original_embed := original_embed v; excused_members := excused_members v;
       session_name := session_name v; skill_group := skill_group v;
       season := season v; select_student := select_student v;
       children := remove_select (children v);
       weights := match rendered_row v with
                  | Some row => alter (fun weight => weight - 5)%nat row (weights v)
                  | None => weights v
                  end;
       rendered_row := None |}
  else v.

(** What a callback leaves behind: the view; the embed and the components
    of the message after an edit of the callback that went through;
    [message], the text of the last [send_message] the callback made,
    empty when it made none; and [raised], whether that call was refused,
    so that its exception left the callback. *)
Record Reply := {
  view : ExcuseView;
  edited_embed : option Embed;
  displayed : option (list Item);
  message : Py.str;
  raised : bool
}.

(** The [except Exception] branch of a callback: it sends [text]. *)
Definition excepted (d : Discord) (v : ExcuseView) (embed : option Embed)
    (shown : option (list Item)) (text : Py.str) : Reply :=
  {| view := v; edited_embed := embed; displayed := shown;
     message := text; raised := reply_fails d text |}.

(** [send_message(text)] inside the [try]: when it is refused, the
    [except Exception] branch sends [error_text]. *)
Definition replied (d : Discord) (v : ExcuseView) (embed : option Embed)
    (shown : option (list Item)) (text error_text : Py.str) : Reply :=
  if reply_fails d text then excepted d v embed shown error_text
  else {| view := v; edited_embed := embed; displayed := shown;
          message := text; raised := false |}.

Definition menu_error : Py.str :=
  Py.lit "An error occurred while showing the menu. Please try again.".

(** [show_select_menu].  Without absent members there is no
    [select_student] and the attribute lookup raises. *)
Definition show_select_menu (d : Discord) (v : ExcuseView) : Reply :=
  match select_student v with
  | None => excepted d v None None menu_error
  | Some sel =>
      match add_item v sel with
      | None => excepted d v None None menu_error
      | Some v1 =>
          if edit_fails d None (children v1)
          then excepted d v1 None None menu_error
          else {| view := v1; edited_embed := None;
                  displayed := Some (children v1); message := [];
                  raised := false |}
      end
  end.

(** [" (Excused âœ“)"], as the source file spells it. *)
Definition excused_mark : Py.str :=
  Py.lit " (Excused " ++ [226%N; 339%N; 8220%N] ++ Py.lit ")".

(** The inner loop of [student_selected] over the lines of one field. *)
Definition mark_lines (name value : Py.str) : Py.str :=
  Py.join [Py.newline]
    (List.map (fun line => if Py.contains name line then line ++ excused_mark else line)
              (Py.split Py.newline value)).

(** The outer loop, over the fields the copy had when the loop started.
    It returns the embed as the loop leaves it and whether the loop ran to
    its end: [false] for the [ValueError] of [index] or the [IndexError] of
    [set_field_at], which leave the fields written before in place. *)
Fixpoint mark_fields (name : Py.str) (snapshot : list Field) (new_embed : Embed)
    : Embed * bool :=
  match snapshot with
  | [] => (new_embed, true)
  | field :: rest =>
      if Py.startswith (Py.lit "Absent Students") (field_name field) then
        match fields_index (fields new_embed) field with
        | None => (new_embed, false)
        | Some index =>
            match set_field_at new_embed index
                    {| field_name := field_name field;
                       field_value := mark_lines name (field_value field);
                       field_inline := field_inline field |} with
            | None => (new_embed, false)
            | Some e => mark_fields name rest e
            end
        end
      else mark_fields name rest new_embed
  end.

Definition excuse_error : Py.str :=
  Py.lit "An error occurred while marking the absence as excused. Please try again.".

(** [student_selected], for the selected value [str(selected_id)].  When no
    absent member has that id, [next] raises [StopIteration], which the
    [except Exception] answers.

    [Embed.copy()] is shallow: [new_embed] has the title, the description
    and the footer of [original_embed] and shares its field dicts, and
    [set_field_at] writes into these.  What the loop writes is therefore
    written to [original_embed] as well, and the next call starts from it. *)
Definition student_selected (d : Discord) (v : ExcuseView) (selected_id : Z) : Reply :=
  match List.find (fun m => member_id m =? selected_id) (absent_members v) with
  | None => excepted d v None None excuse_error
  | Some selected_member =>
      let v1 := with_excused v ({[ member_id selected_member ]} ∪ excused_members v) in
      let '(new_embed, completed) :=
        mark_fields (display_name selected_member) (fields (original_embed v1))
                    (original_embed v1) in
      let v2 := with_original_embed v1 new_embed in
      if negb completed then excepted d v2 None None excuse_error
      else
        let v3 := remove_item v2 in
        if edit_fails d (Some new_embed) (children v3)
        then excepted d v3 None None excuse_error
        else replied d v3 (Some new_embed) (Some (children v3))
               (Py.lit "Marked " ++ display_name selected_member
                ++ Py.lit " as excused.")
               excuse_error
  end.

(** The loop of [log_attendance] that disables the log button. *)
Fixpoint disable_log_button (items : list Item) : list Item :=
  match items with
  | [] => []
  | Button label custom_id disabled :: rest =>
      if bool_decide (custom_id = Py.lit "log_button")
      then Button label custom_id true :: rest
      else Button label custom_id disabled :: disable_log_button rest
  | it :: rest => it :: disable_log_button rest
  end.

Definition not_in_voice : Py.str :=
  Py.lit "You must be in a voice channel to log attendance.".
Definition log_success : Py.str :=
  Py.lit "Successfully logged attendance to the database!".
Definition log_failure : Py.str :=
  Py.lit "Failed to log attendance to the database. Please try again or contact an administrator.".
Definition log_error : Py.str :=
  Py.lit "An error occurred while logging attendance. Please try again.".

(** The members [log_attendance] passes as [present_members]:
    [guild.get_channel(user.voice.channel.id).members]; [None] when the
    lookup gives no channel and [.members] raises. *)
Definition commit_present_members (i : Interaction) (cid : Z) : option (list Member) :=
  match get_channel (guild i) cid with
  | Some voice_channel => Some (members voice_channel)
  | None => None
  end.

(** [log_attendance]: the reply and the store it leaves.  After a commit
    the button is disabled in the view before the message is edited: a
    refused edit or reply leaves the rows committed and the button disabled
    in the view, and the [except Exception] branch answers. *)
Definition log_attendance (d : Discord) (f : Db.Faults) (current_time : Z)
    (v : ExcuseView) (i : Interaction) (st : Db.Store) : Reply * Db.Store :=
  match voice (user i) with
  | None => (replied d v None None not_in_voice log_error, st)
  | Some cid =>
      match commit_present_members i cid with
      | None => (excepted d v None None log_error, st)
      | Some present_members =>
          match DatabaseManager.create_attendance_records f current_time
                  (member_id (user i)) (session_name v) (skill_group v) (season v)
                  present_members (absent_members v) (excused_members v) st with
          | (Returned true, st') =>
              let v1 := with_children v (disable_log_button (children v)) in
              if edit_fails d None (children v1)
              then (excepted d v1 None None log_error, st')
              else (replied d v1 None (Some (children v1)) log_success log_error, st')
          | (Returned false, st') =>
              (replied d v None None log_failure log_error, st')
          | (Raised, st') => (excepted d v None None log_error, st')
          end
      end
  end.

End ExcuseView.

(* ===================================================================== *)
(** ** cogs/attendance.py *)
(* ===================================================================== *)

Module AttendanceCog.

(** The [skill_group] choices of the [take] command. *)
Inductive SkillGroupChoice :=
| Single (k : Config.SkillGroupKey)
| Combined.

Definition choice_value (c : SkillGroupChoice) : Py.str :=
  match c with
  | Single Config.Advanced => Py.lit "Advanced"
  | Single Config.Mechanics => Py.lit "Mechanics"
  | Combined => Py.lit "Combined"
  end.

(** What [take] posts to the attendance channel, with the view attached. *)
Record Posted := {
  posted_embed : Embed;
  posted_view : ExcuseView
}.

(** [f"{i}. {member.display_name}"] over [enumerate(absent_members, 1)]. *)
Definition absent_list (absent : list Member) : Py.str :=
  Py.join [Py.newline]
    (List.map (fun im => Py.str_of_nat (fst im) ++ Py.lit ". " ++ display_name (snd im))
              (Py.enumerate1 absent)).

Definition take_embed (session_name_ : Py.str) (season_ : Z)
    (voice_channel : Channel) (role_name : Py.str)
    (members_with_role absent : list Member) (taker : Member) : Embed :=
  let embed :=
    {| title := Py.lit "Attendance Report - " ++ session_name_
                ++ Py.lit " (Season " ++ Py.str_of_Z season_ ++ Py.lit ")";
       description := None; fields := []; footer := None |} in
  let embed := add_field embed
    {| field_name := Py.lit "Session Info";
       field_value :=
         Py.lit "**Session:** " ++ session_name_ ++ [Py.newline]
         ++ Py.lit "**Channel:** " ++ channel_name voice_channel ++ [Py.newline]
         ++ Py.lit "**Role:** " ++ role_name ++ [Py.newline]
         ++ Py.lit "**Total Members:** " ++ Py.str_of_nat (length members_with_role);
       field_inline := false |} in
  let embed :=
    match absent with
    | _ :: _ =>
        let l := absent_list absent in
        add_field embed
          {| field_name := Py.lit "Absent Students ("
                           ++ Py.str_of_nat (length absent) ++ Py.lit ")";
             field_value := if Py.len l <=? 1024 then l
                            else Py.slice_to 1021 l ++ Py.lit "...";
             field_inline := false |}
    | [] =>
        add_field embed
          {| field_name := Py.lit "Attendance";
             field_value := Py.lit "Everyone is present! " ++ [127881%N];
             field_inline := false |}
    end in
  set_footer embed (Py.lit "Taken by " ++ display_name taker).

(** The members holding the tracked role or roles, with the role's name;
    [None] when a role is not found in the guild. *)
Definition tracked (g : Guild) (c : SkillGroupChoice) : option (list Member * Py.str) :=
  match c with
  | Combined =>
      match get_role g (Config.SKILL_GROUPS Config.Advanced),
            get_role g (Config.SKILL_GROUPS Config.Mechanics) with
      | Some _, Some _ =>
          Some (List.filter
                  (fun member =>
                     has_role (Config.SKILL_GROUPS Config.Advanced) member
                     || has_role (Config.SKILL_GROUPS Config.Mechanics) member)
                  (guild_members g),
                Py.lit "Advanced/Mechanics Combined")
      | _, _ => None
      end
  | Single k =>
      match get_role g (Config.SKILL_GROUPS k) with
      | Some role_name =>
          Some (List.filter (has_role (Config.SKILL_GROUPS k)) (guild_members g),
                role_name)
      | None => None
      end
  end.

(** [take]: the reply to the caller and what was posted, if anything.  The
    [has_any_required_role] check runs first; its failure is answered by
    [take_error].  [member.voice.channel] is the channel of that id in the
    guild. *)
Definition take (i : Interaction) (session_name_ : Py.str)
    (choice : SkillGroupChoice) (season_ : Z) : Py.str * option Posted :=
  if negb (has_allowed_role (user i)) then
    (Py.lit "You don't have permission to use this command!", None)
  else
    let failed := (Py.lit "An error occurred while taking attendance. Please try again.", None) in
    match get_member (guild i) (member_id (user i)) with
    | None => failed
    | Some member =>
        match voice member with
        | None => (Py.lit "You're not in a voice channel!", None)
        | Some cid =>
            match get_channel (guild i) cid with
            | None => failed
            | Some voice_channel =>
                let members_in_vc := members voice_channel in
                match get_channel (guild i) Config.ATTENDANCE_CHANNEL_ID with
                | None => (Py.lit "Could not find the attendance channel!", None)
                | Some _ =>
                    match tracked (guild i) choice with
                    | None =>
                        (match choice with
                         | Combined => Py.lit "Could not find one or both roles to track attendance for!"
                         | Single _ => Py.lit "Could not find the role to track attendance for!"
                         end, None)
                    | Some (members_with_role, role_name) =>
                        let absent :=
                          List.filter (fun m => negb (member_in m members_in_vc))
                                      members_with_role in
                        let embed := take_embed session_name_ season_ voice_channel
                                       role_name members_with_role absent member in
                        (Py.lit "Attendance report has been generated! Mark any excused absences before clicking 'Log Attendance' to save to the database.",
                         Some {| posted_embed := embed;
                                 posted_view := ExcuseView.init absent embed session_name_
                                                  (choice_value choice) season_ |})
                    end
                end
            end
        end
    end.

End AttendanceCog.

(** *** [AttendanceReport] *)

Module AttendanceReport.

Definition MAX_FIELDS_PER_EMBED : Z := 25.
Definition MAX_FIELD_VALUE_LENGTH : Z := 1024.
Definition MAX_EMBED_DESCRIPTION_LENGTH : Z := 4096.

Inductive ReportGranularity := DAILY | WEEKLY.

(** [granularity.value.title()]. *)
Definition granularity_title (g : ReportGranularity) : Py.str :=
  match g with
  | DAILY => Py.lit "Daily"
  | WEEKLY => Py.lit "Weekly"
  end.

Definition no_data_field : Field :=
  {| field_name := Py.lit "No Data";
     field_value := Py.lit "No attendance records found for the specified period.";
     field_inline := false |}.

Definition first_embed (season_ : Z) (granularity : ReportGranularity)
    (generated_at : Py.str) : Embed :=
  {| title := Py.lit "Attendance Report - Season " ++ Py.str_of_Z season_;
     description := Some (granularity_title granularity
                          ++ Py.lit " report generated at " ++ generated_at);
     fields := []; footer := None |}.

Definition continued_embed (season_ : Z) : Embed :=
  {| title := Py.lit "Attendance Report - Season " ++ Py.str_of_Z season_
              ++ Py.lit " (Continued)";
     description := None; fields := []; footer := None |}.

(** The length check on a field value. *)
Definition clip (field_value_ : Py.str) : Py.str :=
  if Py.len field_value_ >? MAX_FIELD_VALUE_LENGTH
  then Py.slice_to (MAX_FIELD_VALUE_LENGTH - 3) field_value_ ++ Py.lit "..."
  else field_value_.

(** [f"Page {i}/{total_pages}"]. *)
Definition page_footer (i total_pages : nat) : Py.str :=
  Py.lit "Page " ++ Py.str_of_nat i ++ Py.lit "/" ++ Py.str_of_nat total_pages.

(** The page-number loop over [enumerate(embeds, 1)]. *)
Definition number_pages (embeds : list Embed) : list Embed :=
  List.map (fun ie => set_footer (snd ie) (page_footer (fst ie) (length embeds)))
           (Py.enumerate1 embeds).

Section Report.

(** The rows [get_report_data] fetches, and [create_session_field_content]
    on one of them: [create_report_embeds] uses the name and the value it
    returns, or, when it raises, raises as well ([None]). *)
Context {Session : Type}.
Variable create_session_field_content : Session -> Guild -> option (Py.str * Py.str).

(** The state of the session loop: the finished embeds, the embed being
    filled and the number of its fields. *)
Record Paging := {
  embeds : list Embed;
  current_embed : Embed;
  field_count : Z
}.

(** One round of [for session in data]. *)
Definition add_session (season_ : Z) (guild_ : Guild) (p : Paging) (session_ : Session)
    : option Paging :=
  match create_session_field_content session_ guild_ with
  | None => None
  | Some (name, value) =>
      let p1 :=
        if field_count p >=? MAX_FIELDS_PER_EMBED
        then {| embeds := embeds p ++ [current_embed p];
                current_embed := continued_embed season_;
                field_count := 0 |}
        else p in
      Some {| embeds := embeds p1;
              current_embed := add_field (current_embed p1)
                                 {| field_name := name;
                                    field_value := clip value;
                                    field_inline := false |};
              field_count := field_count p1 + 1 |}
  end.

Fixpoint add_sessions (season_ : Z) (guild_ : Guild) (data : list Session) (p : Paging)
    : option Paging :=
  match data with
  | [] => Some p
  | session_ :: rest =>
      match add_session season_ guild_ p session_ with
      | None => None
      | Some p' => add_sessions season_ guild_ rest p'
      end
  end.

(** [create_report_embeds]; [generated_at] is the formatted clock reading. *)
Definition create_report_embeds (generated_at : Py.str) (data : list Session)
    (season_ : Z) (granularity : ReportGranularity) (guild_ : Guild)
    : option (list Embed) :=
  let current := first_embed season_ granularity generated_at in
  match data with
  | [] => Some [add_field current no_data_field]
  | _ :: _ =>
      match add_sessions season_ guild_ data
              {| embeds := []; current_embed := current; field_count := 0 |} with
      | None => None
      | Some p =>
          let embeds_ :=
            if field_count p >? 0 then embeds p ++ [current_embed p] else embeds p in
          Some (number_pages embeds_)
      end
  end.

End Report.

End AttendanceReport.

(** *** [create_session_field_content] and the [report] command *)

Module SessionFields.

Definition comma : N := 44%N.
Definition colon : N := 58%N.

Section Content.

(** [session_date] is a [datetime.date]; [strftime] is its
    [strftime('%Y-%m-%d')].  [py_int] is the builtin [int] on a string,
    [None] when it raises [ValueError]. *)
Context {Date : Type}.
Variable strftime : Date -> Py.str.
Variable py_int : Py.str -> option Z.

(** A row of the report query, by its columns. *)
Record Session := {
  session_date : Date;
  session_name : Py.str;
  skill_group : Py.str;
  total_absences : Z;
  excused_absences : Z;
  absent_data : option Py.str
}.

(** One round of the loop over [absent_data.split(',')]; [None] when the
    unpacking of [split(':')] or an [int] raises [ValueError]. *)
Definition add_student (guild_ : Guild) (absent_students : list Py.str)
    (student_data : Py.str) : option (list Py.str) :=
  match Py.split colon student_data with
  | [student_id; is_excused] =>
      match py_int student_id with
      | None => None
      | Some uid =>
          match get_member guild_ uid with
          | Some member =>
              match py_int is_excused with
              | None => None
              | Some flag =>
                  let status := if flag =? 0 then Py.lit "(Unexcused)"
                                else Py.lit "(Excused)" in
                  Some (absent_students
                        ++ [display_name member ++ Py.lit " " ++ status])
              end
          | None => Some absent_students
          end
      end
  | _ => None
  end.

Fixpoint add_students (guild_ : Guild) (absent_students : list Py.str)
    (data : list Py.str) : option (list Py.str) :=
  match data with
  | [] => Some absent_students
  | student_data :: rest =>
      match add_student guild_ absent_students student_data with
      | None => None
      | Some absent_students' => add_students guild_ absent_students' rest
      end
  end.

(** The students listed for a session: none when [absent_data] is [None]
    or the empty string. *)
Definition absent_students_of (session_ : Session) (guild_ : Guild)
    : option (list Py.str) :=
  match absent_data session_ with
  | None | Some [] => Some []
  | Some data => add_students guild_ [] (Py.split comma data)
  end.

Definition summary_line (session_ : Session) : Py.str :=
  [Py.newline] ++ Py.lit "Total Absences: **"
  ++ Py.str_of_Z (total_absences session_)
  ++ Py.lit "** (Excused: " ++ Py.str_of_Z (excused_absences session_) ++ Py.lit ")".

(** The numbered lines of the field value. *)
Definition student_lines (absent_students : list Py.str) : Py.str :=
  concat (List.map (fun is_ => Py.str_of_nat (fst is_) ++ Py.lit ". " ++ snd is_
                               ++ [Py.newline])
                   (Py.enumerate1 absent_students)).

Definition everyone_present : Py.str :=
  Py.lit "Everyone Present! " ++ [127881%N; Py.newline].

(** [create_session_field_content]: the field name and value, [None] when
    it raises. *)
Definition create_session_field_content (session_ : Session) (guild_ : Guild)
    : option (Py.str * Py.str) :=
  let field_name_ :=
    Py.lit "Session: " ++ session_name session_ ++ Py.lit " on ["
    ++ strftime (session_date session_) ++ Py.lit "] for " ++ skill_group session_ in
  match absent_students_of session_ guild_ with
  | None => None
  | Some absent_students =>
      let field_value_ := Py.lit "**Absent:**" ++ [Py.newline] in
      let field_value_ :=
        match absent_students with
        | _ :: _ => field_value_ ++ student_lines absent_students
        | [] => field_value_ ++ everyone_present
        end in
      Some (field_name_, field_value_ ++ summary_line session_)
  end.

End Content.

End SessionFields.

Module ReportCommand.
Import AttendanceReport.

(** What the command sends with [interaction.followup.send]. *)
Inductive Followup :=
| SendEmbed (e : Embed)
| SendText (s : Py.str).

(** What Discord makes of the calls of the command: whether
    [response.defer()] is refused, and which [followup.send] is, by what is
    sent.  A refused call raises [HTTPException]. *)
Record Webhook := {
  defer_fails : bool;
  followup_fails : Followup -> bool
}.

(** Every call goes through. *)
Definition works : Webhook :=
  {| defer_fails := false; followup_fails := fun _ => false |}.

(** How the command ends: the followups Discord accepted, in order, and
    whether an exception left the command. *)
Record Sent := {
  followups : list Followup;
  command_raised : bool
}.

Definition report_error : Py.str :=
  Py.lit "An error occurred while generating the report. Please try again.".
Definition connect_failed : Py.str :=
  Py.lit "Failed to connect to the database. Please try again later.".
Definition permission_denied : Py.str :=
  Py.lit "You don't have permission to use this command!".
Definition command_error : Py.str :=
  Py.lit "An error occurred while processing the command. Please try again.".

(** [ReportGranularity(granularity)], [None] for its [ValueError]. *)
Definition granularity_of (value : Py.str) : option ReportGranularity :=
  if bool_decide (value = Py.lit "daily") then Some DAILY
  else if bool_decide (value = Py.lit "weekly") then Some WEEKLY
  else None.

Definition days_back (report_type : ReportGranularity) : Z :=
  match report_type with DAILY => 1 | WEEKLY => 7 end.

(** [take_error]: the answer to an error that [take] raised to the command
    tree, [check_failure] telling a failed [has_any_required_role]. *)
Definition take_error (check_failure : bool) : Py.str :=
  if check_failure then permission_denied else command_error.

(** The [except Exception] branch of [report], after the followups in
    [sent_before]: it sends the error text. *)
Definition answer_error (w : Webhook) (sent_before : list Followup) : Sent :=
  if followup_fails w (SendText report_error)
  then {| followups := sent_before; command_raised := true |}
  else {| followups := sent_before ++ [SendText report_error];
          command_raised := false |}.

(** [followup.send(embed=embeds[0])] and the loop over [embeds[1:]]: the
    first refused page ends the sending. *)
Fixpoint send_pages (w : Webhook) (sent_before : list Followup)
    (pages : list Embed) : Sent :=
  match pages with
  | [] => {| followups := sent_before; command_raised := false |}
  | page :: rest =>
      if followup_fails w (SendEmbed page) then answer_error w sent_before
      else send_pages w (sent_before ++ [SendEmbed page]) rest
  end.

Section Report.

Context {Date : Type}.
Variable strftime : Date -> Py.str.
Variable py_int : Py.str -> option Z.

(** The rows the report query selects from the tables, for a season and a
    number of days. *)
Variable query : Db.Tables -> Z -> Z -> list (@SessionFields.Session Date).

(** [get_report_data]: the rows of the query, and no row when the cursor
    or the query raises. *)
Definition get_report_data (f : Db.Faults) (connection : Db.Connection)
    (season_ : Z) (days : Z) : list (@SessionFields.Session Date) :=
  match Db.bind Db.cursor
          (fun _ => Db.call (fun c => (query (Db.working c) season_ days, c)))
          f connection with
  | (Db.Ok results, _) => results
  | (Db.MysqlError, _) => []
  end.

(** [report].  A failed [has_any_required_role] check raises [CheckFailure]
    to the command tree before the command runs; the cog registers an
    error handler for [take] only.  An empty page list would raise
    [IndexError] at [embeds[0]]. *)
Definition report (w : Webhook) (f : Db.Faults) (generated_at : Py.str)
    (i : Interaction) (granularity : Py.str) (season_ : Z) (st : Db.Store)
    : Sent :=
  if negb (has_allowed_role (user i))
  then {| followups := []; command_raised := true |}
  else if defer_fails w then answer_error w []
  else
    match granularity_of granularity with
    | None => answer_error w []
    | Some report_type =>
        match Db.create_connection f st with
        | None =>
            if followup_fails w (SendText connect_failed) then answer_error w []
            else {| followups := [SendText connect_failed];
                    command_raised := false |}
        | Some connection =>
            let report_data :=
              get_report_data f connection season_ (days_back report_type) in
            match create_report_embeds
                    (SessionFields.create_session_field_content strftime py_int)
                    generated_at report_data season_ report_type (guild i) with
            | None => answer_error w []
            | Some [] => answer_error w []
            | Some (first :: rest) => send_pages w [] (first :: rest)
            end
        end
    end.

End Report.

End ReportCommand.

(* ===================================================================== *)
(** ** cogs/reminder.py *)
(* ===================================================================== *)

Module VoiceReminderCog.

(** The two attributes of the cog.  A [datetime] is its number of
    microseconds. *)
Record Cog := {
  coach_voice_states : gmap Z Z;
  reminded_coaches : gset Z
}.

(** [VoiceReminderCog.__init__]. *)
Definition init : Cog :=
  {| coach_voice_states := ∅; reminded_coaches := ∅ |}.

(** [timedelta(minutes=5)]. *)
Definition five_minutes : Z := 5 * 60 * 1000000.

(** A message sent to the attendance channel. *)
Record Reminder := {
  reminded : Z;
  in_channel : Py.str;
  sent_at : Z
}.

Definition set_join (s : Cog) (uid now : Z) : Cog :=
  {| coach_voice_states := <[uid := now]> (coach_voice_states s);
     reminded_coaches := reminded_coaches s |}.

(** [initialize_voice_states]. *)
Definition initialize_channel (current_time : Z) (voice_channel : Channel) (s : Cog) : Cog :=
  fold_left
    (fun s member =>
       if has_allowed_role member then set_join s (member_id member) current_time else s)
    (members voice_channel) s.

Definition initialize_guild (current_time : Z) (g : Guild) (s : Cog) : Cog :=
  fold_left (fun s vc => initialize_channel current_time vc s) (voice_channels g) s.

Definition initialize_voice_states (current_time : Z) (guilds : list Guild) (s : Cog) : Cog :=
  fold_left (fun s g => initialize_guild current_time g s) guilds s.

(** [on_voice_state_update]; [before] and [after] are the channels, [None]
    for no channel. *)
Definition on_voice_state_update (current_time : Z) (member : Member)
    (before after : option Z) (s : Cog) : Cog :=
  if negb (has_allowed_role member) then s
  else match before, after with
       | None, Some _ => set_join s (member_id member) current_time
       | Some _, None =>
           {| coach_voice_states := delete (member_id member) (coach_voice_states s);
              reminded_coaches := reminded_coaches s |}
       | _, _ => s
       end.

(** A tick in progress: the cog and the reminders sent so far.  The whole
    tick sits in one [try]: an exception of [send] ends it, keeping what
    was done before. *)
Record Run := {
  cog : Cog;
  sent : list Reminder
}.

Inductive Flow :=
| Going (r : Run)
| Stopped (r : Run).

Definition run_of (fl : Flow) : Run :=
  match fl with Going r | Stopped r => r end.

(** The body of [for coach in coaches]; [send_raises] tells for which coach
    the [send] raises. *)
Definition visit_coach (send_raises : Z -> bool) (current_time : Z)
    (voice_channel : Channel) (r : Run) (coach_ : Member) : Flow :=
  match coach_voice_states (cog r) !! member_id coach_ with
  | None =>
      Going {| cog := set_join (cog r) (member_id coach_) current_time;
               sent := sent r |}
  | Some join_time =>
      let time_in_channel := current_time - join_time in
      if time_in_channel >=? five_minutes then
        if send_raises (member_id coach_) then Stopped r
        else Going {| cog := {| coach_voice_states := coach_voice_states (cog r);
                                reminded_coaches :=
                                  {[ member_id coach_ ]} ∪ reminded_coaches (cog r) |};
                      sent := sent r ++ [{| reminded := member_id coach_;
                                            in_channel := channel_name voice_channel;
                                            sent_at := current_time |}] |}
      else Going r
  end.

(** A [for] loop that an exception leaves. *)
Fixpoint loop {A} (body : Run -> A -> Flow) (xs : list A) (r : Run) : Flow :=
  match xs with
  | [] => Going r
  | x :: xs' =>
      match body r x with
      | Going r' => loop body xs' r'
      | Stopped r' => Stopped r'
      end
  end.

(** The list comprehension [coaches], read when the channel is reached. *)
Definition coaches (voice_channel : Channel) (s : Cog) : list Member :=
  List.filter
    (fun member =>
       has_allowed_role member
       && negb (bool_decide (member_id member ∈ reminded_coaches s)))
    (members voice_channel).

Definition visit_channel (send_raises : Z -> bool) (current_time : Z)
    (r : Run) (voice_channel : Channel) : Flow :=
  loop (visit_coach send_raises current_time voice_channel)
       (coaches voice_channel (cog r)) r.

Definition visit_guild (send_raises : Z -> bool) (current_time : Z)
    (r : Run) (g : Guild) : Flow :=
  match get_channel g Config.ATTENDANCE_CHANNEL_ID with
  | None => Going r
  | Some _ => loop (visit_channel send_raises current_time) (voice_channels g) r
  end.

(** [check_voice_duration]: the cog after the tick and the reminders sent. *)
Definition check_voice_duration (send_raises : Z -> bool) (current_time : Z)
    (guilds : list Guild) (s : Cog) : Cog * list Reminder :=
  let r := run_of (loop (visit_guild send_raises current_time) guilds
                        {| cog := s; sent := [] |}) in
  (cog r, sent r).

(** [reset_daily_reminders]. *)
Definition reset_daily_reminders (current_time : Z) (guilds : list Guild) (s : Cog) : Cog :=
  initialize_voice_states current_time guilds init.

End VoiceReminderCog.

(* ===================================================================== *)
(** * Vocabulary of the statements *)
(* ===================================================================== *)

(** ** Rows of a commit *)

Definition add_ledger (rows : list Db.LedgerRow) (t : Db.Tables) : Db.Tables :=
  {| Db.session := Db.session t; Db.ledger := Db.ledger t ++ rows;
     Db.user := Db.user t |}.

Definition add_session_row (row : Db.SessionRow) (t : Db.Tables) : Db.Tables :=
  {| Db.session := Db.session t ++ [row]; Db.ledger := Db.ledger t;
     Db.user := Db.user t |}.

(** The ledger row of member [uid] with the given flags. *)
Definition entry (sid current_time uid : Z) (is_present is_excused : bool)
    : Db.LedgerRow :=
  {| Db.l_session_id := sid; Db.l_student_id := Py.str_of_Z uid;
     Db.l_is_present := is_present; Db.l_is_excused := is_excused;
     Db.l_event_date := current_time |}.

(** The session row of a commit, and its ledger rows: a present row for
    every member of [present], then an absent row for every member of
    [absent], excused when the member is in [excused]. *)
Definition session_row (sid current_time user_id : Z)
    (name group : Py.str) (season_ : Z) : Db.SessionRow :=
  {| Db.s_id := sid; Db.s_session_name := name; Db.s_user := Py.str_of_Z user_id;
     Db.s_skill_group := group; Db.s_season := season_;
     Db.s_created_date := current_time; Db.s_modified_date := current_time |}.

Definition ledger_rows (sid current_time : Z)
    (present absent : list Member) (excused : gset Z) : list Db.LedgerRow :=
  List.map (fun member => entry sid current_time (member_id member) true false)
           present
  ++ List.map (fun member => entry sid current_time (member_id member) false
                               (bool_decide (member_id member ∈ excused)))
              absent.

(** ** A small guild

    A coach, two students of the Advanced group, and a member without any
    role; a lobby and a side room; the attendance channel. *)

Module Scenario.

Definition coach_role : Z := 1329341459329191948.

Definition alice : Member :=
  {| member_id := 101; display_name := Py.lit "Alice";
     roles := [Config.SKILL_GROUPS Config.Advanced]; bot := false; voice := None |}.

Definition bob : Member :=
  {| member_id := 102; display_name := Py.lit "Bob";
     roles := [Config.SKILL_GROUPS Config.Advanced]; bot := false; voice := None |}.

Definition carol : Member :=
  {| member_id := 201; display_name := Py.lit "Carol";
     roles := [coach_role]; bot := false; voice := Some 10 |}.

Definition dave : Member :=
  {| member_id := 301; display_name := Py.lit "Dave";
     roles := []; bot := false; voice := Some 11 |}.

(** Bob, once he has joined the lobby. *)
Definition bob_in_lobby : Member :=
  {| member_id := 102; display_name := Py.lit "Bob";
     roles := [Config.SKILL_GROUPS Config.Advanced]; bot := false; voice := Some 10 |}.

Definition lobby (occupants : list Member) : Channel :=
  {| channel_id := 10; channel_name := Py.lit "Lobby"; is_voice := true;
     members := occupants |}.

Definition side_room : Channel :=
  {| channel_id := 11; channel_name := Py.lit "Side room"; is_voice := true;
     members := [dave] |}.

Definition attendance_channel : Channel :=
  {| channel_id := Config.ATTENDANCE_CHANNEL_ID; channel_name := Py.lit "attendance";
     is_voice := false; members := [] |}.

Definition role_table : list (Z * Py.str) :=
  [(Config.SKILL_GROUPS Config.Advanced, Py.lit "Advanced");
   (Config.SKILL_GROUPS Config.Mechanics, Py.lit "Mechanics");
   (coach_role, Py.lit "Coach")].

(** The guild when attendance is taken: only Carol is in the lobby. *)
Definition guild_at_take : Guild :=
  {| guild_name := Py.lit "IRP";
     guild_members := [alice; bob; carol; dave];
     channels := [lobby [carol]; side_room; attendance_channel];
     guild_roles := role_table |}.

(** The guild when attendance is logged: Bob has joined the lobby. *)
Definition guild_at_commit : Guild :=
  {| guild_name := Py.lit "IRP";
     guild_members := [alice; bob_in_lobby; carol; dave];
     channels := [lobby [carol; bob_in_lobby]; side_room; attendance_channel];
     guild_roles := role_table |}.

Definition empty_store : Db.Store :=
  {| Db.tables := {| Db.session := []; Db.ledger := []; Db.user := [] |};
     Db.next_session_id := 1; Db.next_user_id := 1 |}.

(** Carol takes attendance of the Advanced group. *)
Definition taken : Py.str * option AttendanceCog.Posted :=
  AttendanceCog.take {| user := carol; guild := guild_at_take |}
    (Py.lit "Aim") (AttendanceCog.Single Config.Advanced) 3.

(** The view that [taken] posts. *)
Definition taken_view : ExcuseView :=
  ExcuseView.init [alice; bob]
    (AttendanceCog.take_embed (Py.lit "Aim") 3 (lobby [carol]) (Py.lit "Advanced")
       [alice; bob] [alice; bob] carol)
    (Py.lit "Aim") (Py.lit "Advanced") 3.

(** The view after Carol has excused Alice. *)
Definition alice_excused : ExcuseView :=
  ExcuseView.view (ExcuseView.student_selected Discord.works taken_view 101).

(** Carol, as the invoker of an interaction before Bob joins. *)
Definition carol_takes : Interaction :=
  {| user := carol; guild := guild_at_take |}.

(** Who presses the log button, once Bob has joined. *)
Definition carol_commits : Interaction :=
  {| user := carol; guild := guild_at_commit |}.

Definition dave_commits : Interaction :=
  {| user := dave; guild := guild_at_commit |}.

(** A Discord that refuses every edit of a message and accepts every
    reply. *)
Definition refuses_edits : Discord :=
  {| edit_fails := fun _ _ => true; reply_fails := fun _ => false |}.

End Scenario.

(** ** Statements about a commit *)

(** The log button of a view: the first button with that [custom_id]. *)
Definition first_log_button (items : list Item) : option Item :=
  List.find (fun it => match it with
                       | Button _ custom_id _ => bool_decide (custom_id = Py.lit "log_button")
                       | Select _ _ => false
                       end) items.

(** The ledger rows of one member. *)
Definition rows_of (uid : Z) (rows : list Db.LedgerRow) : list Db.LedgerRow :=
  List.filter (fun r => bool_decide (Db.l_student_id r = Py.str_of_Z uid)) rows.

Definition ids (ms : list Member) : list Z := List.map member_id ms.

(** A second commit of the same snapshot is turned away: when the first
    [log_attendance] succeeds, the second does not, and leaves the store as
    the first left it, with one more session row than before the first. *)
Definition second_commit_rejected (d1 d2 : Discord) (f1 f2 : Db.Faults) (t1 t2 : Z)
    (v : ExcuseView) (i1 i2 : Interaction) (st : Db.Store) : Prop :=
  let r1 := ExcuseView.log_attendance d1 f1 t1 v i1 st in
  ExcuseView.message (fst r1) = ExcuseView.log_success ->
  let r2 := ExcuseView.log_attendance d2 f2 t2 (ExcuseView.view (fst r1)) i2 (snd r1) in
  ExcuseView.message (fst r2) <> ExcuseView.log_success
  ∧ snd r2 = snd r1
  ∧ length (Db.session (Db.tables (snd r2)))
    = S (length (Db.session (Db.tables st))).

(** One ledger row per tracked member and none for anyone else: a tracked
    member in voice when the commit is made is present and not excused, the
    others are absent, and excused when they are in [excused]. *)
Definition one_entry_per_tracked_member (tracked_members in_voice : list Member)
    (excused : gset Z) (rows : list Db.LedgerRow) : Prop :=
  forall uid : Z,
    if bool_decide (uid ∈ ids tracked_members) then
      exists r, rows_of uid rows = [r]
        ∧ (if bool_decide (uid ∈ ids in_voice)
           then Db.l_is_present r = true ∧ Db.l_is_excused r = false
           else Db.l_is_present r = false
                ∧ Db.l_is_excused r = bool_decide (uid ∈ excused))
    else rows_of uid rows = [].

(** The interaction of the same user with other roles. *)
Definition with_roles (i : Interaction) (rs : list Z) : Interaction :=
  {| user := {| member_id := member_id (user i);
                display_name := display_name (user i);
                roles := rs; bot := bot (user i); voice := voice (user i) |};
     guild := guild i |}.

(** ** Statements about excuse marking *)

(** A sequence of [student_selected] calls, by the selected ids and by
    what Discord makes of each call. *)
Definition mark_all (v : ExcuseView) (selections : list (Discord * Z)) : ExcuseView :=
  fold_left (fun v selection =>
               ExcuseView.view (ExcuseView.student_selected (fst selection) v
                                  (snd selection)))
            selections v.

(** The value of the absent-students field of a displayed embed. *)
Definition absent_field_value (e : Embed) : option Py.str :=
  match List.find (fun f => Py.startswith (Py.lit "Absent Students") (field_name f))
                  (fields e) with
  | Some f => Some (field_value f)
  | None => None
  end.

(** ** Statements about report pages *)

(** A page within the limits: at most 25 fields, each value at most 1024
    characters long. *)
Definition within_limits (page : Embed) : Prop :=
  (Z.of_nat (length (fields page)) <= AttendanceReport.MAX_FIELDS_PER_EMBED)
  ∧ Forall (fun f => Py.len (field_value f) <= AttendanceReport.MAX_FIELD_VALUE_LENGTH)
           (fields page).

(** Every page carries the footer "Page i/total", counting from 1. *)
Definition every_page_numbered (pages : list Embed) : Prop :=
  forall (i : nat) page,
    pages !! i = Some page ->
    footer page = Some (AttendanceReport.page_footer (S i) (length pages)).

(** The field of a session entry, from the name and the value that
    [create_session_field_content] returned. *)
Definition session_field (content : Py.str * Py.str) : Field :=
  {| field_name := fst content;
     field_value := AttendanceReport.clip (snd content);
     field_inline := false |}.

(** All the fields of a paging state, in order. *)
Definition all_fields (p : AttendanceReport.Paging) : list Field :=
  concat (List.map fields (AttendanceReport.embeds p))
  ++ fields (AttendanceReport.current_embed p).

(** What the session loop keeps true of its state. *)
Definition paging_ok (p : AttendanceReport.Paging) : Prop :=
  within_limits (AttendanceReport.current_embed p)
  ∧ Forall within_limits (AttendanceReport.embeds p)
  ∧ AttendanceReport.field_count p
    = Z.of_nat (length (fields (AttendanceReport.current_embed p)))
  ∧ footer (AttendanceReport.current_embed p) = None
  ∧ Forall (fun e => footer e = None) (AttendanceReport.embeds p).

(** ** Statements about reminders *)

(** What happens to the cog within one epoch, between two daily resets:
    voice state updates, ticks of [check_voice_duration], and the start-up
    run of [initialize_voice_states]. *)
Inductive Event :=
| VoiceStateUpdate (current_time : Z) (member : Member) (before after : option Z)
| Tick (send_raises : Z -> bool) (current_time : Z) (guilds : list Guild)
| Initialize (current_time : Z) (guilds : list Guild).

Definition step (e : Event) (r : VoiceReminderCog.Run) : VoiceReminderCog.Run :=
  match e with
  | VoiceStateUpdate current_time member before after =>
      {| VoiceReminderCog.cog :=
           VoiceReminderCog.on_voice_state_update current_time member before after
             (VoiceReminderCog.cog r);
         VoiceReminderCog.sent := VoiceReminderCog.sent r |}
  | Tick send_raises current_time guilds =>
      let out := VoiceReminderCog.check_voice_duration send_raises current_time
                   guilds (VoiceReminderCog.cog r) in
      {| VoiceReminderCog.cog := fst out;
         VoiceReminderCog.sent := VoiceReminderCog.sent r ++ snd out |}
  | Initialize current_time guilds =>
      {| VoiceReminderCog.cog :=
           VoiceReminderCog.initialize_voice_states current_time guilds
             (VoiceReminderCog.cog r);
         VoiceReminderCog.sent := VoiceReminderCog.sent r |}
  end.

(** The events of an epoch, from the cog [s], with the reminders they send. *)
Definition epoch (es : list Event) (s : VoiceReminderCog.Cog) : VoiceReminderCog.Run :=
  fold_left (fun r e => step e r) es
            {| VoiceReminderCog.cog := s; VoiceReminderCog.sent := [] |}.

(** discord.py lists the occupants of a voice channel from a dictionary
    keyed by user id: no id occurs twice in one channel. *)
Definition distinct_occupants (guilds : list Guild) : Prop :=
  Forall (fun g => Forall (fun vc => NoDup (ids (members vc))) (voice_channels g))
         guilds.

Definition ticks_well_formed (es : list Event) : Prop :=
  Forall (fun e => match e with
                   | Tick _ _ guilds => distinct_occupants guilds
                   | _ => True
                   end) es.

(** The reminders sent to one member. *)
Definition reminders_to (uid : Z) (out : list VoiceReminderCog.Reminder)
    : list VoiceReminderCog.Reminder :=
  List.filter (fun x => bool_decide (VoiceReminderCog.reminded x = uid)) out.

(** A [send] that never raises. *)
Definition send_works : Z -> bool := fun _ => false.

(** What a tick at time [t], started on the cog [s0], keeps true of its
    run: the timers it found are kept, a missing timer is still missing or
    was set to [t], every reminder sent had a timer at least five minutes
    old when the tick started, and the reminded set has grown by the
    members reminded. *)
Definition tick_invariant (s0 : VoiceReminderCog.Cog) (t : Z)
    (r : VoiceReminderCog.Run) : Prop :=
  (forall u j,
     VoiceReminderCog.coach_voice_states s0 !! u = Some j ->
     VoiceReminderCog.coach_voice_states (VoiceReminderCog.cog r) !! u = Some j)
  ∧ (forall u,
       VoiceReminderCog.coach_voice_states s0 !! u = None ->
       VoiceReminderCog.coach_voice_states (VoiceReminderCog.cog r) !! u = None
       ∨ VoiceReminderCog.coach_voice_states (VoiceReminderCog.cog r) !! u = Some t)
  ∧ (forall x,
       x ∈ VoiceReminderCog.sent r ->
       VoiceReminderCog.sent_at x = t
       ∧ exists j,
           VoiceReminderCog.coach_voice_states s0 !! VoiceReminderCog.reminded x = Some j
           ∧ VoiceReminderCog.five_minutes <= t - j)
  ∧ VoiceReminderCog.reminded_coaches (VoiceReminderCog.cog r)
    = VoiceReminderCog.reminded_coaches s0
      ∪ list_to_set (List.map VoiceReminderCog.reminded (VoiceReminderCog.sent r)).

(** The member holds a tracked role and sits in a voice channel of one of
    the guilds. *)
Definition tracked_occupant (guilds : list Guild) (m : Member) : Prop :=
  exists g vc,
    g ∈ guilds ∧ vc ∈ voice_channels g ∧ m ∈ members vc
    ∧ has_allowed_role m = true.

(** The tick at time [t] sets the timer of [m] to [t] and sends [m] no
    reminder. *)
Definition initializes_timer (send_raises : Z -> bool) (t : Z)
    (guilds : list Guild) (s : VoiceReminderCog.Cog) (m : Member) : Prop :=
  let out := VoiceReminderCog.check_voice_duration send_raises t guilds s in
  VoiceReminderCog.coach_voice_states (fst out) !! member_id m = Some t
  ∧ reminders_to (member_id m) (snd out) = [].

(** The run [r'] continues the run [r] with at most one reminder to [uid],
    and with none if [uid] was already reminded in [r]; whoever is reminded
    on the way is in the reminded set of [r']. *)
Definition continues (uid : Z) (r r' : VoiceReminderCog.Run) : Prop :=
  exists new,
    VoiceReminderCog.sent r' = VoiceReminderCog.sent r ++ new
    ∧ VoiceReminderCog.reminded_coaches (VoiceReminderCog.cog r)
      ⊆ VoiceReminderCog.reminded_coaches (VoiceReminderCog.cog r')
    ∧ (forall x, x ∈ new ->
         VoiceReminderCog.reminded x
         ∈ VoiceReminderCog.reminded_coaches (VoiceReminderCog.cog r'))
    ∧ (uid ∈ VoiceReminderCog.reminded_coaches (VoiceReminderCog.cog r) ->
       reminders_to uid new = [])
    ∧ (length (reminders_to uid new) <= 1)%nat.

(** A loop that ran to its end. *)
Definition is_going (fl : VoiceReminderCog.Flow) : Prop :=
  match fl with
  | VoiceReminderCog.Going _ => True
  | VoiceReminderCog.Stopped _ => False
  end.

(** ** An epoch on the small guild

    Carol joins the lobby at time 0; ticks come at 4:31, at 5:01 and at
    10:00. *)

Module Epoch.

Definition seconds (n : Z) : Z := n * 1000000.

Definition carol_joins : Event :=
  VoiceStateUpdate 0 Scenario.carol None (Some 10).

Definition tick_at (t : Z) : Event :=
  Tick send_works t [Scenario.guild_at_take].

Definition events : list Event :=
  [carol_joins; tick_at (seconds 271); tick_at (seconds 301); tick_at (seconds 600)].

(** The guild of the scenario, without its attendance channel. *)
Definition guild_without_attendance_channel : Guild :=
  {| guild_name := Py.lit "IRP";
     guild_members := [Scenario.alice; Scenario.bob; Scenario.carol; Scenario.dave];
     channels := [Scenario.lobby [Scenario.carol]; Scenario.side_room];
     guild_roles := Scenario.role_table |}.

(** A cog that has Carol in the reminded set and no timer for her. *)
Definition carol_reminded : VoiceReminderCog.Cog :=
  {| VoiceReminderCog.coach_voice_states := ∅;
     VoiceReminderCog.reminded_coaches := {[ 201 ]} |}.

End Epoch.

(** ** Statements about [sync_users] *)

(** The [discord_id] under which a member is stored. *)
Definition discord_id_of (member : Member) : Py.str :=
  Py.str_of_Z (member_id member).

(** What one round of the member loop does to the [user] table and its
    AUTO_INCREMENT counter when no call raises. *)
Definition upsert (member : Member) (T : list Db.UserRow * Z) : list Db.UserRow * Z :=
  match DatabaseManager.member_user_type member with
  | None => T
  | Some user_type =>
      match List.find (fun r => bool_decide (Db.u_discord_id r = discord_id_of member))
                      (fst T) with
      | Some _ =>
          (List.map (DatabaseManager.update_row (display_name member) user_type
                       (DatabaseManager.member_skill_group member) 1
                       (discord_id_of member))
                    (fst T),
           snd T)
      | None =>
          (fst T ++ [{| Db.u_id := snd T; Db.u_name := display_name member;
                        Db.u_discord_id := discord_id_of member;
                        Db.u_user_type := user_type;
                        Db.u_skill_group := DatabaseManager.member_skill_group member;
                        Db.u_is_active := 1 |}],
           snd T + 1)
      end
  end.

Definition upsert_all (members_ : list Member) (T : list Db.UserRow * Z)
    : list Db.UserRow * Z :=
  fold_left (fun T member => upsert member T) members_ T.

(** The [UPDATE] of one member on one row. *)
Definition refresh (member : Member) (r : Db.UserRow) : Db.UserRow :=
  match DatabaseManager.member_user_type member with
  | None => r
  | Some user_type =>
      DatabaseManager.update_row (display_name member) user_type
        (DatabaseManager.member_skill_group member) 1 (discord_id_of member) r
  end.

Definition refresh_all (members_ : list Member) (r : Db.UserRow) : Db.UserRow :=
  fold_left (fun r member => refresh member r) members_ r.

(** The member is one that [sync_users] stores, under the id of row [r]. *)
Definition stored_as (r : Db.UserRow) (member : Member) : Prop :=
  is_Some (DatabaseManager.member_user_type member)
  ∧ discord_id_of member = Db.u_discord_id r.

(** Every member that [sync_users] stores has a row in the table. *)
Definition all_known (members_ : list Member) (rows : list Db.UserRow) : Prop :=
  forall member,
    member ∈ members_ ->
    is_Some (DatabaseManager.member_user_type member) ->
    exists r, r ∈ rows ∧ Db.u_discord_id r = discord_id_of member.

(** The [user] table and its counter, as a transaction sees them. *)
Definition users_of (c : Db.Connection) : list Db.UserRow * Z :=
  (Db.user (Db.working c), Db.user_counter c).

(** The store with another [user] table and counter. *)
Definition with_users (st : Db.Store) (T : list Db.UserRow * Z) : Db.Store :=
  {| Db.tables := {| Db.session := Db.session (Db.tables st);
                     Db.ledger := Db.ledger (Db.tables st);
                     Db.user := fst T |};
     Db.next_session_id := Db.next_session_id st;
     Db.next_user_id := snd T |}.

(** The transaction has touched the [user] table only. *)
Definition users_only (c c' : Db.Connection) : Prop :=
  Db.committed c' = Db.committed c
  ∧ Db.session (Db.working c') = Db.session (Db.working c)
  ∧ Db.ledger (Db.working c') = Db.ledger (Db.working c)
  ∧ Db.session_counter c' = Db.session_counter c.

(** ** A roster to synchronise *)

Module Roster.

Definition student_role : Z := 3456789012345678.
Definition manager_role : Z := 2345678901234567.

(** A student of the Advanced group. *)
Definition erin : Member :=
  {| member_id := 401; display_name := Py.lit "Erin";
     roles := [student_role; Config.SKILL_GROUPS Config.Advanced];
     bot := false; voice := None |}.

(** A student who is also a manager: the manager role wins and the member
    is skipped. *)
Definition frank : Member :=
  {| member_id := 402; display_name := Py.lit "Frank";
     roles := [student_role; manager_role]; bot := false; voice := None |}.

Definition helper_bot : Member :=
  {| member_id := 900; display_name := Py.lit "Helper";
     roles := [Scenario.coach_role]; bot := true; voice := None |}.

Definition roster : list Member :=
  [Scenario.carol; erin; frank; Scenario.alice; helper_bot].

(** The store after a first synchronisation of the roster. *)
Definition synced : Db.Store :=
  snd (DatabaseManager.sync_users Db.no_faults roster Scenario.empty_store).

(** A connection whose third call raises. *)
Definition third_call_raises : Db.Faults :=
  {| Db.connect_ok := true; Db.raises := fun n => Nat.eqb n 2 |}.

End Roster.


(** ** Statements about the excuse menu *)

(** The line of the absent list as [student_selected] leaves it. *)
Definition marked_line (name line : Py.str) : Py.str :=
  if Py.contains name line then line ++ ExcuseView.excused_mark else line.

(** Presses of the excuse button, one for each element of the list, which
    tells what Discord makes of the press. *)
Definition pressed (presses : list Discord) (v : ExcuseView) : ExcuseView :=
  fold_left (fun v d => ExcuseView.view (ExcuseView.show_select_menu d v)) presses v.

(** The places taken in the five rows of a view that holds the two buttons
    and [n] menus. *)
Definition row_weights (n : nat) : list nat :=
  2%nat :: replicate n 5%nat ++ replicate (4 - n) 0%nat.

(** The item is the log button. *)
Definition is_log_button (it : Item) : bool :=
  match it with
  | Button _ custom_id _ => bool_decide (custom_id = Py.lit "log_button")
  | Select _ _ => false
  end.


(** The field is the absent-students field, by its name. *)
Definition is_absent_field (f : Field) : bool :=
  Py.startswith (Py.lit "Absent Students") (field_name f).

(** The field with another value. *)
Definition with_value (f : Field) (value : Py.str) : Field :=
  {| field_name := field_name f; field_value := value;
     field_inline := field_inline f |}.

(** The embed with other fields. *)
Definition with_fields (e : Embed) (fs : list Field) : Embed :=
  {| title := title e; description := description e; fields := fs;
     footer := footer e |}.


(** ** Statements about the store *)

(** Every session id in the store is below the AUTO_INCREMENT counter. *)
Definition session_ids_below_counter (st : Db.Store) : Prop :=
  Forall (fun s => Db.s_id s < Db.next_session_id st) (Db.session (Db.tables st)).

(** The calls [create_attendance_records] makes on the connection: the
    cursor, the session insert, one insert per member, the commit. *)
Definition calls_of_commit (present absent : list Member) : nat :=
  (3 + length present + length absent)%nat.


(** ** Statements about [take] *)

(** The member holds a role that the choice tracks. *)
Definition holds_tracked_role (choice : AttendanceCog.SkillGroupChoice)
    (m : Member) : bool :=
  match choice with
  | AttendanceCog.Single k => has_role (Config.SKILL_GROUPS k) m
  | AttendanceCog.Combined =>
      has_role (Config.SKILL_GROUPS Config.Advanced) m
      || has_role (Config.SKILL_GROUPS Config.Mechanics) m
  end.


(** The role id that [USER_ROLE_TYPES] maps to a user type. *)
Definition role_id_of (t : Config.UserType) : Z :=
  match t with
  | Config.coach => 1329341459329191948
  | Config.admin => 1234567890123456
  | Config.manager => 2345678901234567
  | Config.student => 3456789012345678
  | Config.graduate => 4567890123456789
  end.

(** The user type [sync_users] stores for a member, read off the roles:
    bots are skipped, the coach role wins, then an admin, manager or
    graduate role makes the member skipped, then the student role counts. *)
Definition user_type_by_roles (m : Member) : option Config.UserType :=
  if bot m then None
  else if has_role (role_id_of Config.coach) m then Some Config.coach
  else if has_role (role_id_of Config.admin) m
          || has_role (role_id_of Config.manager) m
          || has_role (role_id_of Config.graduate) m then None
  else if has_role (role_id_of Config.student) m then Some Config.student
  else None.

(** A list in ascending order of a key. *)
Fixpoint ascending {A} (key : A -> Z) (l : list A) : Prop :=
  match l with
  | [] => True
  | x :: l => Forall (fun y => key x <= key y) l ∧ ascending key l
  end.

(** The members of the list that [sync_users] stores. *)
Definition count_stored (ms : list Member) : Z :=
  Z.of_nat (length (List.filter
                      (fun m => bool_decide (is_Some (DatabaseManager.member_user_type m)))
                      ms)).


(** The calls [sync_users] makes on the connection: [cursor()], a [SELECT]
    and an [UPDATE] or [INSERT] for each stored member, and [commit()]. *)
Definition calls_of_sync (ms : list Member) : nat :=
  (2 + 2 * Z.to_nat (count_stored ms))%nat.

(** The discord ids of the [user] table of a store. *)
Definition discord_ids (st : Db.Store) : list Py.str :=
  List.map Db.u_discord_id (Db.user (Db.tables st)).


(** ** A roster synchronised over an older table *)

Module Enrolled.

(** Erin as she was stored earlier: another name, no skill group yet. *)
Definition erin_earlier : Member :=
  {| member_id := 401; display_name := Py.lit "E";
     roles := [Roster.student_role]; bot := false; voice := None |}.

(** The store that holds Erin's earlier row. *)
Definition store : Db.Store :=
  snd (DatabaseManager.sync_users Db.no_faults [erin_earlier] Scenario.empty_store).

(** The store after the roster has been synchronised over it. *)
Definition synced : Db.Store :=
  snd (DatabaseManager.sync_users Db.no_faults Roster.roster store).

End Enrolled.


(** The members with a tracked role in the voice channels of the guilds,
    in the order [initialize_voice_states] meets them. *)
Definition coaches_in_voice (guilds : list Guild) : list Member :=
  flat_map (fun g => flat_map (fun vc => List.filter has_allowed_role (members vc))
                              (voice_channels g))
           guilds.


(** ** Statements about the filling of the report pages *)

(** Two embeds with the same title and description. *)
Definition same_head (e e' : Embed) : Prop :=
  title e = title e' ∧ description e = description e'.

(** What the session loop keeps true of the pages: the finished ones are
    full, the one being filled holds [field_count] fields, 25 at most, and
    the first page has the head of [first], the others that of a
    continuation. *)
Definition pages_filled (first : Embed) (season_ : Z) (p : AttendanceReport.Paging)
    : Prop :=
  Forall (fun e => length (fields e) = 25%nat) (AttendanceReport.embeds p)
  ∧ AttendanceReport.field_count p
    = Z.of_nat (length (fields (AttendanceReport.current_embed p)))
  ∧ AttendanceReport.field_count p <= 25
  ∧ match AttendanceReport.embeds p ++ [AttendanceReport.current_embed p] with
    | [] => False
    | e :: es =>
        same_head e first
        ∧ Forall (fun e' => same_head e' (AttendanceReport.continued_embed season_)) es
    end.


(** ** Statements about the report fields *)

(** [int] on the decimal writing of an integer. *)
Definition decimal_int (s : Py.str) : option Z :=
  option_map Z.of_int
    (NilZero.int_of_string (string_of_list_ascii (List.map ascii_of_N s))).

(** The [absent_data] column of the report query for the absent rows of
    one session, a student id and an excused flag each:
    [GROUP_CONCAT(CONCAT(student_id, ':', is_excused) SEPARATOR ',')]. *)
Definition absence (row : Z * bool) : Py.str :=
  Py.str_of_Z (fst row) ++ [SessionFields.colon] ++ Py.str_of_Z (Z.b2z (snd row)).

Definition encode_absences (rows : list (Z * bool)) : Py.str :=
  Py.join [SessionFields.comma] (List.map absence rows).

(** The line of one absent row in the report: none for a student who is
    not a member of the guild. *)
Definition listed_student (guild_ : Guild) (row : Z * bool) : option Py.str :=
  match get_member guild_ (fst row) with
  | Some member =>
      Some (display_name member ++ Py.lit " "
            ++ (if snd row then Py.lit "(Excused)" else Py.lit "(Unexcused)"))
  | None => None
  end.

Definition listed_students (guild_ : Guild) (rows : list (Z * bool)) : list Py.str :=
  omap (listed_student guild_) rows.

(** The column is [NULL] or the whole concatenation of some absent rows:
    what the query writes as long as MySQL does not cut the concatenation
    at its [group_concat_max_len]. *)
Definition well_formed {Date} (session_ : @SessionFields.Session Date) : Prop :=
  SessionFields.absent_data session_ = None
  ∨ exists rows, SessionFields.absent_data session_ = Some (encode_absences rows).

(** ** Statements about what [report] sends *)

(** The pages Discord accepts before the first one it refuses. *)
Fixpoint accepted_pages (w : ReportCommand.Webhook) (pages : list Embed)
    : list Embed :=
  match pages with
  | [] => []
  | page :: rest =>
      if ReportCommand.followup_fails w (ReportCommand.SendEmbed page) then []
      else page :: accepted_pages w rest
  end.

(** What the command has sent when it ends on the error text, after the
    followups [before]: the text too, unless Discord refuses it, and then
    the exception leaves the command. *)
Definition error_sent (w : ReportCommand.Webhook) (before : list ReportCommand.Followup)
    : ReportCommand.Sent :=
  {| ReportCommand.followups :=
       if ReportCommand.followup_fails w
            (ReportCommand.SendText ReportCommand.report_error)
       then before
       else before ++ [ReportCommand.SendText ReportCommand.report_error];
     ReportCommand.command_raised :=
       ReportCommand.followup_fails w
         (ReportCommand.SendText ReportCommand.report_error) |}.

(** What the command has sent when it set out to send [pages]: all of
    them when Discord accepts all, and otherwise those before the first
    one refused, and then the error text. *)
Definition pages_sent (w : ReportCommand.Webhook) (pages : list Embed)
    : ReportCommand.Sent :=
  let accepted := accepted_pages w pages in
  if (length accepted =? length pages)%nat
  then {| ReportCommand.followups := List.map ReportCommand.SendEmbed pages;
          ReportCommand.command_raised := false |}
  else error_sent w (List.map ReportCommand.SendEmbed accepted).

(** ** A report on the small guild *)

Module Reported.

Definition strftime (_ : unit) : Py.str := Py.lit "2025-01-01".

(** A session with Alice excused, Bob unexcused and a student who has left
    the guild. *)
Definition aim : @SessionFields.Session unit :=
  {| SessionFields.session_date := tt;
     SessionFields.session_name := Py.lit "Aim";
     SessionFields.skill_group := Py.lit "Advanced";
     SessionFields.total_absences := 3;
     SessionFields.excused_absences := 1;
     SessionFields.absent_data := Some (Py.lit "101:1,102:0,999:0") |}.

(** A session whose only absent student has left the guild. *)
Definition movement : @SessionFields.Session unit :=
  {| SessionFields.session_date := tt;
     SessionFields.session_name := Py.lit "Movement";
     SessionFields.skill_group := Py.lit "Mechanics";
     SessionFields.total_absences := 1;
     SessionFields.excused_absences := 0;
     SessionFields.absent_data := Some (Py.lit "999:0") |}.

Definition query (_ : Db.Tables) (_ _ : Z) : list (@SessionFields.Session unit) :=
  [aim; movement].

(** A connection on which the query raises. *)
Definition query_raises : Db.Faults :=
  {| Db.connect_ok := true; Db.raises := fun n => Nat.eqb n 1 |}.

(** A Discord that refuses every embed and accepts every text. *)
Definition refuses_embeds : ReportCommand.Webhook :=
  {| ReportCommand.defer_fails := false;
     ReportCommand.followup_fails :=
       fun sent => match sent with
                   | ReportCommand.SendEmbed _ => true
                   | ReportCommand.SendText _ => false
                   end |}.

(** A session whose column was cut after "101:1,10". *)
Definition cut : @SessionFields.Session unit :=
  {| SessionFields.session_date := tt;
     SessionFields.session_name := Py.lit "Aim";
     SessionFields.skill_group := Py.lit "Advanced";
     SessionFields.total_absences := 2;
     SessionFields.excused_absences := 1;
     SessionFields.absent_data := Some (Py.lit "101:1,10") |}.

End Reported.

(* ===================================================================== *)
(** * Properties *)
(* ===================================================================== *)

(** ** Python strings *)

Section PyFacts.

Lemma lit_inj s1 s2 : Py.lit s1 = Py.lit s2 -> s1 = s2.
Proof.
  unfold Py.lit. intros H.
  rewrite <- (string_of_list_ascii_of_string s1),
          <- (string_of_list_ascii_of_string s2).
  f_equal. revert H.
  generalize (list_ascii_of_string s1) (list_ascii_of_string s2).
  induction l as [|a l IH]; intros [|b l']; simpl; try discriminate; [done|].
  intros [= Hab Hl]. f_equal; [|by apply IH].
  rewrite <- (ascii_N_embedding a), <- (ascii_N_embedding b). by rewrite Hab.
Qed.

Lemma to_int_proper z : Z.to_int z <> Decimal.Pos Decimal.Nil
                        ∧ Z.to_int z <> Decimal.Neg Decimal.Nil.
Proof.
  destruct z as [|p|p]; simpl; split; try discriminate;
    intros [= H]; by apply (DecimalPos.Unsigned.to_uint_nonnil p).
Qed.

(** [str] of an [int] tells the [int]. *)
Lemma str_of_Z_inj a b : Py.str_of_Z a = Py.str_of_Z b -> a = b.
Proof.
  unfold Py.str_of_Z. intros H%lit_inj.
  destruct (to_int_proper a) as [Ha1 Ha2], (to_int_proper b) as [Hb1 Hb2].
  pose proof (NilZero.isi _ Ha1 Ha2) as Ia.
  pose proof (NilZero.isi _ Hb1 Hb2) as Ib.
  rewrite H in Ia. rewrite Ia in Ib. injection Ib as Hab.
  rewrite <- (DecimalZ.of_to a), <- (DecimalZ.of_to b). by rewrite Hab.
Qed.

End PyFacts.

(** ** The transaction of [create_attendance_records] *)

Section Transaction.
Import Db DatabaseManager.

Lemma add_ledger_nil t : add_ledger [] t = t.
Proof. destruct t; unfold add_ledger; simpl. by rewrite app_nil_r. Qed.

Lemma add_ledger_app r1 r2 t :
  add_ledger r2 (add_ledger r1 t) = add_ledger (r1 ++ r2) t.
Proof. unfold add_ledger; simpl. by rewrite app_assoc. Qed.

Local Arguments add_ledger : simpl never.
Local Arguments add_session_row : simpl never.
Local Arguments ledger_rows : simpl never.

Lemma for_each_ledger_spec (g : Member -> LedgerRow) xs f c :
  match for_each xs (fun m => insert_ledger (g m)) f c with
  | (Ok _, c') =>
      committed c' = committed c
      ∧ working c' = add_ledger (List.map g xs) (working c)
      ∧ session_counter c' = session_counter c
      ∧ user_counter c' = user_counter c
  | (MysqlError, c') =>
      committed c' = committed c
      ∧ session_counter c' = session_counter c
      ∧ user_counter c' = user_counter c
  end.
Proof.
  revert c. induction xs as [|x xs IH]; intros c; simpl.
  - by rewrite add_ledger_nil.
  - unfold bind at 1, insert_ledger at 1, call at 1.
    destruct (raises f (calls c)); simpl; [done|].
    match goal with |- context [for_each xs _ f ?c1] => specialize (IH c1) end.
    destruct (for_each xs _ f _) as [[[]|] c']; simpl in *.
    + destruct IH as (-> & -> & -> & ->).
      unfold add_ledger; simpl. by rewrite <- app_assoc.
    + by destruct IH as (-> & -> & ->).
Qed.

Lemma attendance_statements_spec current_time user_id name group season_
    present absent excused f c :
  match attendance_statements current_time user_id name group season_
          present absent excused f c with
  | (Ok b, c') =>
      b = true
      ∧ committed c' = working c'
      ∧ working c' =
          add_ledger (ledger_rows (session_counter c) current_time present absent excused)
            (add_session_row
               (session_row (session_counter c) current_time user_id name group season_)
               (working c))
      ∧ session_counter c' = session_counter c + 1
      ∧ user_counter c' = user_counter c
  | (MysqlError, c') =>
      committed c' = committed c
      ∧ (session_counter c' = session_counter c
         ∨ session_counter c' = session_counter c + 1)
      ∧ user_counter c' = user_counter c
  end.
Proof.
  unfold attendance_statements.
  unfold bind at 1, insert_session at 1, call at 1.
  destruct (raises f (calls c)); simpl; [by auto|].
  unfold bind at 1.
  match goal with |- context [for_each present ?g f ?c1] =>
    pose proof (for_each_ledger_spec
                  (present_row (session_counter c) current_time) present f c1) as H1
  end.
  destruct (for_each present _ f _) as [[[]|] c1]; simpl in *;
    [|destruct H1 as (-> & -> & ->); by auto].
  destruct H1 as (Hc1 & Hw1 & Hs1 & Hu1).
  unfold bind at 1.
  pose proof (for_each_ledger_spec
                (absent_row (session_counter c) current_time excused) absent f c1) as H2.
  destruct (for_each absent _ f c1) as [[[]|] c2]; simpl in *;
    [|destruct H2 as (-> & -> & ->); rewrite Hc1, Hs1, Hu1; by auto].
  destruct H2 as (Hc2 & Hw2 & Hs2 & Hu2).
  unfold bind, commit, call, ret.
  destruct (raises f (calls c2)); simpl.
  - rewrite Hc2, Hc1, Hs2, Hs1, Hu2, Hu1. by auto.
  - rewrite Hw2, Hw1, Hs2, Hs1, Hu2, Hu1. unfold ledger_rows.
    rewrite add_ledger_app. by auto.
Qed.

(** Every way [create_attendance_records] can end: it returns [True] with
    the session row and all ledger rows committed, or it does not and the
    committed tables are those it found. *)
Lemma create_attendance_records_spec f current_time user_id name group season_
    present absent excused st :
  let r := create_attendance_records f current_time user_id name group season_
             present absent excused st in
  (fst r = Returned true
   ∧ tables (snd r) =
       add_ledger (ledger_rows (next_session_id st) current_time present absent excused)
         (add_session_row
            (session_row (next_session_id st) current_time user_id name group season_)
            (tables st))
   ∧ next_session_id (snd r) = next_session_id st + 1)
  ∨ ((fst r = Returned false ∨ fst r = Raised)
     ∧ tables (snd r) = tables st).
Proof.
  intros r.
  assert (Hr : r = create_attendance_records f current_time user_id name group
                     season_ present absent excused st) by reflexivity.
  clearbody r.
  unfold create_attendance_records, create_connection in Hr.
  destruct (connect_ok f); [|subst r; by right; auto].
  unfold cursor at 1, call at 1 in Hr. simpl in Hr.
  destruct (raises f 0%nat).
  - right. unfold rollback, call in Hr. simpl in Hr.
    destruct (raises f 1%nat); subst r; simpl; by auto.
  - match type of Hr with context [attendance_statements _ _ _ _ _ _ _ _ f ?c0] =>
      pose proof (attendance_statements_spec current_time user_id name group
                    season_ present absent excused f c0) as H
    end.
    destruct (attendance_statements _ _ _ _ _ _ _ _ f _) as [[b|] c'].
    + destruct H as (-> & Hc & Hw & Hs & _). left. subst r. simpl in *.
      rewrite Hc, Hw, Hs. by auto.
    + destruct H as (Hc & _). right.
      unfold rollback, call in Hr.
      destruct (raises f (calls c')); subst r; simpl in *; rewrite Hc; by auto.
Qed.

(** With no fault the call returns [True]. *)
Lemma for_each_ledger_no_faults (g : Member -> LedgerRow) xs c :
  fst (for_each xs (fun m => insert_ledger (g m)) no_faults c) = Ok tt.
Proof.
  revert c. induction xs as [|x xs IH]; intros c; simpl; [done|].
  unfold bind at 1, insert_ledger at 1, call at 1. simpl. apply IH.
Qed.

Lemma create_attendance_records_no_faults current_time user_id name group season_
    present absent excused st :
  fst (create_attendance_records no_faults current_time user_id name group season_
         present absent excused st) = Returned true.
Proof.
  unfold create_attendance_records, create_connection. simpl.
  unfold attendance_statements.
  unfold bind at 1, insert_session at 1, call at 1. simpl.
  unfold bind at 1.
  match goal with |- context [for_each present ?g no_faults ?c1] =>
    pose proof (for_each_ledger_no_faults
                  (present_row (next_session_id st) current_time) present c1) as H1;
    destruct (for_each present g no_faults c1) as [r1 c1'] end.
  simpl in H1. subst r1. unfold bind at 1.
  match goal with |- context [for_each absent ?g no_faults ?c1] =>
    pose proof (for_each_ledger_no_faults
                  (absent_row (next_session_id st) current_time excused) absent c1) as H2;
    destruct (for_each absent g no_faults c1) as [r2 c2'] end.
  simpl in H2. subst r2. reflexivity.
Qed.

End Transaction.

(** ** [log_attendance] *)

Section Commit.
Import DatabaseManager ExcuseView.

Lemma messages_distinct :
  log_success <> log_failure ∧ log_success <> log_error
  ∧ log_success <> not_in_voice.
Proof. repeat split; intros H; vm_compute in H; discriminate H. Qed.

(** A reply inside the [try]: either it goes through, or the [except]
    branch has sent the error text. *)
Lemma replied_cases d v e s text err :
  (reply_fails d text = false
   ∧ replied d v e s text err
     = {| view := v; edited_embed := e; displayed := s; message := text;
          raised := false |})
  ∨ (reply_fails d text = true
     ∧ replied d v e s text err = excepted d v e s err).
Proof. unfold replied. destruct (reply_fails d text); by auto. Qed.

Lemma replied_view d v e s text err : view (replied d v e s text err) = v.
Proof. unfold replied. by destruct (reply_fails d text). Qed.

Lemma replied_message d v e s text err :
  message (replied d v e s text err) = text
  ∨ message (replied d v e s text err) = err.
Proof. unfold replied. destruct (reply_fails d text); by auto. Qed.

Lemma disable_log_button_first items l c d :
  first_log_button (disable_log_button items) = Some (Button l c d) -> d = true.
Proof.
  induction items as [|[l' c' d'|p o] items IH]; simpl; [done| |done].
  destruct (bool_decide (c' = Py.lit "log_button")) eqn:E; simpl; rewrite E.
  - by intros [= _ _ <-].
  - done.
Qed.

(** The loop keeps the log button, with its label and id. *)
Lemma disable_log_button_keeps items l c d :
  first_log_button items = Some (Button l c d) ->
  first_log_button (disable_log_button items) = Some (Button l c true).
Proof.
  induction items as [|[l' c' d'|p o] items IH]; simpl; [done| |done].
  destruct (bool_decide (c' = Py.lit "log_button")) eqn:E; simpl; rewrite E.
  - by intros [= -> -> _].
  - done.
Qed.

Lemma disable_log_button_length items :
  length (disable_log_button items) = length items.
Proof.
  induction items as [|[l c d|p o] items IH]; simpl; [done| |by rewrite IH].
  case_bool_decide; simpl; [done|by rewrite IH].
Qed.

Lemma disable_log_button_others items (k : nat) it :
  items !! k = Some it ->
  is_log_button it = false ->
  disable_log_button items !! k = Some it.
Proof.
  revert k. induction items as [|[l c d|p o] items IH]; intros [|k]; simpl;
    try done.
  - intros [= <-]. simpl. intros ->. done.
  - intros Hk Hit. case_bool_decide; simpl; [done|by apply IH].
  - intros Hk Hit. by apply IH.
Qed.

(** Every way [log_attendance] can end: the rows are committed, the log
    button is disabled in the view, and the answer is the success message
    or, when Discord refuses the edit or the reply, the error message; or
    the tables and the view are as they were, and the answer is one of the
    three failure messages. *)
Lemma log_attendance_cases d f t v i st :
  let l := log_attendance d f t v i st in
  (exists cid ch,
     voice (user i) = Some cid
     ∧ get_channel (guild i) cid = Some ch
     ∧ Db.tables (snd l) =
         add_ledger (ledger_rows (Db.next_session_id st) t (members ch)
                       (absent_members v) (excused_members v))
           (add_session_row
              (session_row (Db.next_session_id st) t (member_id (user i))
                 (session_name v) (skill_group v) (season v))
              (Db.tables st))
     ∧ view (fst l) = with_children v (disable_log_button (children v))
     ∧ ((message (fst l) = log_success
         ∧ displayed (fst l) = Some (disable_log_button (children v))
         ∧ raised (fst l) = false
         ∧ edit_fails d None (disable_log_button (children v)) = false
         ∧ reply_fails d log_success = false)
        ∨ (message (fst l) = log_error
           ∧ (edit_fails d None (disable_log_button (children v)) = true
              ∨ reply_fails d log_success = true))))
  ∨ ((message (fst l) = log_failure ∨ message (fst l) = log_error
      ∨ message (fst l) = not_in_voice)
     ∧ Db.tables (snd l) = Db.tables st
     ∧ view (fst l) = v).
Proof.
  intros l.
  assert (Hl : l = log_attendance d f t v i st) by reflexivity. clearbody l.
  unfold log_attendance, commit_present_members in Hl.
  cbv zeta in Hl. cbn [with_children children] in Hl.
  destruct (voice (user i)) as [cid|].
  2: { subst l. right. cbn [fst snd]. rewrite replied_view.
       destruct (replied_message d v None None not_in_voice log_error) as [-> | ->];
         by auto. }
  destruct (get_channel (guild i) cid) as [ch|] eqn:Hch;
    [|subst l; right; simpl; by auto].
  pose proof (create_attendance_records_spec f t (member_id (user i))
                (session_name v) (skill_group v) (season v) (members ch)
                (absent_members v) (excused_members v) st) as Hspec.
  simpl in Hspec.
  destruct (create_attendance_records _ _ _ _ _ _ _ _ _ _) as [[[]|] st1].
  - destruct Hspec as [(_ & Ht & _) | ([H|H] & _)]; try discriminate H.
    left. exists cid, ch. split; [done|]. split; [done|].
    simpl in Ht.
    destruct (edit_fails d None _) eqn:Hedit; subst l; cbn [fst snd].
    + split; [done|]. split; [done|]. right. by auto.
    + rewrite replied_view. split; [done|]. split; [done|].
      destruct (replied_cases d (with_children v (disable_log_button (children v)))
                  None (Some (disable_log_button (children v)))
                  log_success log_error) as [[Hr ->] | [Hr ->]]; simpl.
      * left. by auto.
      * right. by auto.
  - destruct Hspec as [(H & _) | (_ & Ht)]; [discriminate H|]. right.
    subst l. cbn [fst snd]. rewrite replied_view. split; [|done].
    destruct (replied_message d v None None log_failure log_error) as [-> | ->];
      by auto.
  - destruct Hspec as [(H & _) | (_ & Ht)]; [discriminate H|]. right.
    subst l. simpl. by auto.
Qed.

(** A successful [log_attendance], read backwards. *)
Lemma log_attendance_success d f t v i st r st' :
  log_attendance d f t v i st = (r, st') ->
  message r = log_success ->
  exists cid ch,
    voice (user i) = Some cid
    ∧ get_channel (guild i) cid = Some ch
    ∧ view r = with_children v (disable_log_button (children v))
    ∧ displayed r = Some (disable_log_button (children v))
    ∧ raised r = false
    ∧ Db.tables st' =
        add_ledger (ledger_rows (Db.next_session_id st) t (members ch)
                      (absent_members v) (excused_members v))
          (add_session_row
             (session_row (Db.next_session_id st) t (member_id (user i))
                (session_name v) (skill_group v) (season v))
             (Db.tables st)).
Proof.
  destruct messages_distinct as (Hf & He & Hv). intros Hlog Hmsg.
  pose proof (log_attendance_cases d f t v i st) as H. rewrite Hlog in H.
  cbn [fst snd] in H.
  destruct H as [(cid & ch & Hvoice & Hch & Ht & Hview & Hm) | (Hm & _)].
  - exists cid, ch.
    destruct Hm as [(_ & Hd & Hr & _) | (Hm & _)]; [by auto|congruence].
  - destruct Hm as [Hm | [Hm | Hm]]; congruence.
Qed.

(** With a working database, a press by a member in a voice channel
    commits, whatever Discord makes of the edit and of the reply. *)
Lemma log_attendance_no_faults d t v i st cid ch :
  voice (user i) = Some cid ->
  get_channel (guild i) cid = Some ch ->
  let l := log_attendance d Db.no_faults t v i st in
  Db.tables (snd l) =
    add_ledger (ledger_rows (Db.next_session_id st) t (members ch)
                  (absent_members v) (excused_members v))
      (add_session_row
         (session_row (Db.next_session_id st) t (member_id (user i))
            (session_name v) (skill_group v) (season v))
         (Db.tables st))
  ∧ view (fst l) = with_children v (disable_log_button (children v))
  ∧ (message (fst l) = log_success ∨ message (fst l) = log_error)
  ∧ (edit_fails d None (disable_log_button (children v)) = false ->
     reply_fails d log_success = false ->
     message (fst l) = log_success)
  ∧ fst l
    = (let v1 := with_children v (disable_log_button (children v)) in
       if edit_fails d None (disable_log_button (children v))
       then excepted d v1 None None log_error
       else replied d v1 None (Some (disable_log_button (children v)))
              log_success log_error).
Proof.
  intros Hvoice Hch l.
  assert (Hl : l = log_attendance d Db.no_faults t v i st) by reflexivity.
  clearbody l.
  unfold log_attendance, commit_present_members in Hl. rewrite Hvoice, Hch in Hl.
  cbv zeta in Hl. cbn [with_children children] in Hl.
  pose proof (create_attendance_records_no_faults t (member_id (user i))
                (session_name v) (skill_group v) (season v) (members ch)
                (absent_members v) (excused_members v) st) as Hok.
  pose proof (create_attendance_records_spec Db.no_faults t (member_id (user i))
                (session_name v) (skill_group v) (season v) (members ch)
                (absent_members v) (excused_members v) st) as Hspec.
  simpl in Hspec.
  destruct (create_attendance_records _ _ _ _ _ _ _ _ _ _) as [o st1].
  simpl in Hok. subst o.
  destruct Hspec as [(_ & Ht & _) | ([H|H] & _)]; try discriminate H.
  simpl in Ht.
  destruct (edit_fails d None _) eqn:Hedit; subst l; cbn [fst snd].
  - split_and!; [done|done|by right|done|done].
  - rewrite replied_view. split; [done|]. split; [done|].
    split_and!; [| |done].
    + destruct (replied_message d
                  (with_children v (disable_log_button (children v)))
                  None (Some (disable_log_button (children v)))
                  log_success log_error) as [-> | ->]; by auto.
    + intros _ Hr. unfold replied. by rewrite Hr.
Qed.

(** C5.  The ledger write of a commit is atomic.  Whatever calls on the
    connection fail, [create_attendance_records] either returns [True] with
    the session row and every ledger row committed together, or returns
    [False] or raises with the committed tables exactly as it found them;
    and [log_attendance] then, whatever Discord makes of its calls, either
    has all the rows of the commit in the store, or has left the tables as
    they were and answers with a failure message, never with the success
    message. *)
Theorem commit_is_atomic d f current_time user_id name group season_
    present absent excused v i st :
  let r := create_attendance_records f current_time user_id name group season_
             present absent excused st in
  let l := log_attendance d f current_time v i st in
  ((fst r = Returned true
    ∧ Db.tables (snd r) =
        add_ledger (ledger_rows (Db.next_session_id st) current_time
                      present absent excused)
          (add_session_row
             (session_row (Db.next_session_id st) current_time user_id
                name group season_)
             (Db.tables st)))
   ∨ ((fst r = Returned false ∨ fst r = Raised)
      ∧ Db.tables (snd r) = Db.tables st))
  ∧ ((exists ch,
        Db.tables (snd l) =
          add_ledger (ledger_rows (Db.next_session_id st) current_time
                        (members ch) (absent_members v) (excused_members v))
            (add_session_row
               (session_row (Db.next_session_id st) current_time
                  (member_id (user i)) (session_name v) (skill_group v)
                  (season v))
               (Db.tables st)))
     ∨ (Db.tables (snd l) = Db.tables st
        ∧ message (fst l) <> log_success
        ∧ (message (fst l) = log_failure ∨ message (fst l) = log_error
           ∨ message (fst l) = not_in_voice))).
Proof.
  intros r l. split.
  - destruct (create_attendance_records_spec f current_time user_id name group
                season_ present absent excused st) as [(H1 & H2 & _) | H];
      [left|right]; by auto.
  - destruct messages_distinct as (Hf & He & Hv).
    destruct (log_attendance_cases d f current_time v i st)
      as [(cid & ch & _ & _ & H & _) | (Hm & Ht & _)];
      [left; by exists ch|right].
    fold l in Hm, Ht. split; [done|]. split; [|done].
    destruct Hm as [-> | [-> | ->]]; congruence.
Qed.

(** C1 (as amended).  The terminal state of a snapshot lives in the display
    only.  When [log_attendance] succeeds, the view holds the items it held,
    the log button among them with its label and id and now disabled, every
    other item as it was, and this is what the message shows; that one call
    has added exactly one session row, and the ledger rows of that commit,
    to the store.  The handler itself keeps no record of having committed:
    whenever the log button of this view reaches [log_attendance] again,
    for a member in a voice channel and with a working database, the call
    writes a second session row, and it answers with the success message
    when Discord accepts the edit and the reply. *)
Theorem successful_commit_disables_button_and_writes_once d f t v i st :
  let l := log_attendance d f t v i st in
  message (fst l) = log_success ->
  (forall label custom_id disabled,
     first_log_button (children (view (fst l))) = Some (Button label custom_id disabled) ->
     disabled = true)
  ∧ (forall label custom_id disabled,
       first_log_button (children v) = Some (Button label custom_id disabled) ->
       first_log_button (children (view (fst l)))
       = Some (Button label custom_id true))
  ∧ length (children (view (fst l))) = length (children v)
  ∧ (forall (k : nat) it,
       children v !! k = Some it -> is_log_button it = false ->
       children (view (fst l)) !! k = Some it)
  ∧ displayed (fst l) = Some (children (view (fst l)))
  ∧ length (Db.session (Db.tables (snd l))) = S (length (Db.session (Db.tables st)))
  ∧ (exists ch,
       Db.ledger (Db.tables (snd l)) =
         Db.ledger (Db.tables st)
         ++ ledger_rows (Db.next_session_id st) t (members ch)
              (absent_members v) (excused_members v))
  ∧ forall d' t' i' cid' ch',
      voice (user i') = Some cid' ->
      get_channel (guild i') cid' = Some ch' ->
      let l' := log_attendance d' Db.no_faults t' (view (fst l)) i' (snd l) in
      length (Db.session (Db.tables (snd l')))
      = S (S (length (Db.session (Db.tables st))))
      ∧ Db.ledger (Db.tables (snd l')) =
          Db.ledger (Db.tables (snd l))
          ++ ledger_rows (Db.next_session_id (snd l)) t' (members ch')
               (absent_members v) (excused_members v)
      ∧ (edit_fails d' None (children (view (fst l'))) = false ->
         reply_fails d' log_success = false ->
         message (fst l') = log_success).
Proof.
  intros l Hmsg.
  destruct (log_attendance d f t v i st) as [r st'] eqn:Hlog. subst l.
  cbn [fst snd] in *.
  destruct (log_attendance_success _ _ _ _ _ _ _ _ Hlog Hmsg)
    as (cid & ch & _ & _ & Hview & Hshown & _ & Ht).
  rewrite Hview, Ht, Hshown. cbn [with_children children].
  split_and!.
  - intros label custom_id disabled. apply disable_log_button_first.
  - intros label custom_id disabled. apply disable_log_button_keeps.
  - apply disable_log_button_length.
  - intros k it. apply disable_log_button_others.
  - done.
  - simpl. rewrite length_app. simpl. lia.
  - by exists ch.
  - intros d' t' i' cid' ch' Hvoice' Hch'.
    pose proof (log_attendance_no_faults d' t'
                  (with_children v (disable_log_button (children v))) i' st'
                  cid' ch' Hvoice' Hch') as H.
    cbv zeta in H. destruct H as (Ht' & Hview' & _ & Hok & _).
    rewrite Ht', Hview', Ht.
    cbn [with_children children absent_members excused_members] in *.
    split_and!.
    + simpl. rewrite !length_app. simpl. lia.
    + done.
    + exact Hok.
Qed.

(** C3.  Whoever is in a voice channel commits, with or without a role of
    the allow-list, and it is the occupants of the channel the invoker is
    in that are written as present.  With a working database the store
    gains the session row, under the invoker's id, then for every occupant
    of that channel a row with [is_present] true and [is_excused] false,
    then the absent rows of the snapshot; the call answers with the success
    message when Discord accepts the edit and the reply, and with the error
    message otherwise; and the roles of the invoker never enter the
    outcome. *)
Theorem commit_by_anyone_in_voice d t v i st cid ch :
  voice (user i) = Some cid ->
  get_channel (guild i) cid = Some ch ->
  let l := log_attendance d Db.no_faults t v i st in
  Db.session (Db.tables (snd l))
  = Db.session (Db.tables st)
    ++ [session_row (Db.next_session_id st) t (member_id (user i))
          (session_name v) (skill_group v) (season v)]
  ∧ Db.ledger (Db.tables (snd l)) =
      Db.ledger (Db.tables st)
      ++ List.map (fun member =>
                     entry (Db.next_session_id st) t (member_id member) true false)
                  (members ch)
      ++ List.map (fun member =>
                     entry (Db.next_session_id st) t (member_id member) false
                       (bool_decide (member_id member ∈ excused_members v)))
                  (absent_members v)
  ∧ (edit_fails d None (children (view (fst l))) = false ->
     reply_fails d log_success = false ->
     message (fst l) = log_success)
  ∧ (message (fst l) = log_success ∨ message (fst l) = log_error)
  ∧ forall d' f rs,
      log_attendance d' f t v (with_roles i rs) st = log_attendance d' f t v i st.
Proof.
  intros Hvoice Hch l.
  destruct (log_attendance_no_faults d t v i st cid ch Hvoice Hch)
    as (Ht & Hview & Hm & Hok & _).
  fold l in Ht, Hview, Hm, Hok. rewrite Ht, Hview.
  cbn [with_children children]. by split_and!.
Qed.

(** The rows of one member among the rows of a loop over members with
    distinct ids. *)
Lemma rows_of_map (mk : Member -> Db.LedgerRow) (e : Z -> Db.LedgerRow) xs uid :
  (forall u, Db.l_student_id (e u) = Py.str_of_Z u) ->
  (forall m, mk m = e (member_id m)) ->
  NoDup (ids xs) ->
  rows_of uid (List.map mk xs) = if bool_decide (uid ∈ ids xs) then [e uid] else [].
Proof.
  intros He Hmk. induction xs as [|m xs IH]; intros Hnd.
  - rewrite bool_decide_eq_false_2; [done|]. simpl. by intros ?%elem_of_nil.
  - apply NoDup_cons in Hnd as [Hm Hnd]. specialize (IH Hnd).
    unfold rows_of in *. cbn [ids List.map List.filter].
    rewrite Hmk, He. fold (ids xs).
    destruct (decide (member_id m = uid)) as [Heq|Hne].
    + subst uid. rewrite bool_decide_eq_true_2 by done.
      rewrite bool_decide_eq_true_2 by (by left).
      rewrite IH, bool_decide_eq_false_2; [done|exact Hm].
    + rewrite bool_decide_eq_false_2 by (by intros ?%str_of_Z_inj).
      rewrite IH.
      assert (Hiff : uid ∈ member_id m :: ids xs <-> uid ∈ ids xs)
        by (rewrite elem_of_cons; split; [intros [?|?]; [congruence|done]|by right]).
      by rewrite (bool_decide_ext _ _ Hiff).
Qed.

Lemma member_in_ids m ms : member_in m ms = true <-> member_id m ∈ ids ms.
Proof.
  unfold member_in, ids. rewrite existsb_exists, list_elem_of_In, in_map_iff.
  split; intros (m' & H1 & H2); exists m'.
  - split; [by apply Z.eqb_eq|done].
  - split; [done|by apply Z.eqb_eq].
Qed.

(** C2 (as amended).  A commit that succeeds writes one row per occupant of
    the committer's voice channel, tracked or not, present and not excused,
    and one row per member of the snapshot's absent list, absent, and
    excused exactly when in [excused_members]; and no other row.  Stated
    when no member of the absent list is in the channel at commit time:
    then every member has at most one row. *)
Theorem one_entry_per_occupant_and_absentee d f t v i st cid ch :
  voice (user i) = Some cid ->
  get_channel (guild i) cid = Some ch ->
  let l := log_attendance d f t v i st in
  message (fst l) = log_success ->
  NoDup (ids (members ch)) ->
  NoDup (ids (absent_members v)) ->
  forallb (fun m => negb (member_in m (members ch))) (absent_members v) = true ->
  exists rows,
    Db.ledger (Db.tables (snd l)) = Db.ledger (Db.tables st) ++ rows
    ∧ forall uid,
        rows_of uid rows =
          if bool_decide (uid ∈ ids (members ch))
          then [entry (Db.next_session_id st) t uid true false]
          else if bool_decide (uid ∈ ids (absent_members v))
               then [entry (Db.next_session_id st) t uid false
                       (bool_decide (uid ∈ excused_members v))]
               else [].
Proof.
  intros Hvoice Hch l Hmsg Hndp Hnda Hdisj.
  destruct (log_attendance d f t v i st) as [r st'] eqn:Hlog. subst l. simpl in *.
  destruct (log_attendance_success _ _ _ _ _ _ _ _ Hlog Hmsg)
    as (cid' & ch' & Hvoice' & Hch' & _ & _ & _ & Ht).
  rewrite Hvoice in Hvoice'. injection Hvoice' as <-.
  rewrite Hch in Hch'. injection Hch' as <-.
  rewrite Ht. simpl. eexists; split; [reflexivity|].
  intros uid. unfold ledger_rows.
  assert (Happ : forall a b, rows_of uid (a ++ b) = rows_of uid a ++ rows_of uid b)
    by (intros; apply List.filter_app).
  rewrite Happ.
  rewrite (rows_of_map _ (fun u => entry (Db.next_session_id st) t u true false))
    by done.
  rewrite (rows_of_map _ (fun u => entry (Db.next_session_id st) t u false
                                     (bool_decide (u ∈ excused_members v))))
    by done.
  destruct (bool_decide (uid ∈ ids (members ch))) eqn:Hp; [|done].
  apply bool_decide_eq_true in Hp.
  rewrite bool_decide_eq_false_2; [done|].
  intros (m & <- & Hm)%list_elem_of_In%in_map_iff.
  rewrite forallb_forall in Hdisj.
  apply Hdisj, negb_true_iff in Hm.
  apply member_in_ids in Hp. congruence.
Qed.

End Commit.

(** ** Commits on the small guild *)

Section CommitExamples.
Import DatabaseManager ExcuseView Scenario.

Example take_posts_the_view :
  option_map AttendanceCog.posted_view (snd taken) = Some taken_view.
Proof. vm_compute. reflexivity. Qed.

(** C1, witness: Carol logs the attendance she took. *)
Lemma successful_commit_witness :
  let l := log_attendance Discord.works Db.no_faults 1000 taken_view carol_commits
             empty_store in
  message (fst l) = log_success
  ∧ (forall label custom_id disabled,
       first_log_button (children (view (fst l)))
       = Some (Button label custom_id disabled) ->
       disabled = true)
  ∧ (forall label custom_id disabled,
       first_log_button (children taken_view) = Some (Button label custom_id disabled) ->
       first_log_button (children (view (fst l)))
       = Some (Button label custom_id true))
  ∧ length (children (view (fst l))) = length (children taken_view)
  ∧ (forall (k : nat) it,
       children taken_view !! k = Some it -> is_log_button it = false ->
       children (view (fst l)) !! k = Some it)
  ∧ displayed (fst l) = Some (children (view (fst l)))
  ∧ length (Db.session (Db.tables (snd l)))
    = S (length (Db.session (Db.tables empty_store)))
  ∧ (exists ch,
       Db.ledger (Db.tables (snd l)) =
         Db.ledger (Db.tables empty_store)
         ++ ledger_rows (Db.next_session_id empty_store) 1000 (members ch)
              (absent_members taken_view) (excused_members taken_view))
  ∧ forall d' t' i' cid' ch',
      voice (user i') = Some cid' ->
      get_channel (guild i') cid' = Some ch' ->
      let l' := log_attendance d' Db.no_faults t' (view (fst l)) i' (snd l) in
      length (Db.session (Db.tables (snd l')))
      = S (S (length (Db.session (Db.tables empty_store))))
      ∧ Db.ledger (Db.tables (snd l')) =
          Db.ledger (Db.tables (snd l))
          ++ ledger_rows (Db.next_session_id (snd l)) t' (members ch')
               (absent_members taken_view) (excused_members taken_view)
      ∧ (edit_fails d' None (children (view (fst l'))) = false ->
         reply_fails d' log_success = false ->
         message (fst l') = log_success).
Proof.
  split.
  - vm_compute. reflexivity.
  - apply (successful_commit_disables_button_and_writes_once
             Discord.works Db.no_faults 1000 taken_view carol_commits empty_store).
    vm_compute. reflexivity.
Defined.

(** C1, counterexample: Carol's log button reaches [log_attendance] a second
    time.  The second call succeeds like the first and writes a second
    session row and a second set of ledger rows. *)
Lemma second_commit_is_accepted :
  ~ second_commit_rejected Discord.works Discord.works Db.no_faults Db.no_faults
      1000 2000 taken_view carol_commits carol_commits empty_store.
Proof.
  unfold second_commit_rejected. intros H.
  destruct H as (Hmsg & _); [vm_compute; reflexivity|].
  apply Hmsg. vm_compute. reflexivity.
Qed.

Example second_commit_rows :
  let l1 := log_attendance Discord.works Db.no_faults 1000 taken_view carol_commits
              empty_store in
  let l2 := log_attendance Discord.works Db.no_faults 2000 (view (fst l1))
              carol_commits (snd l1) in
  first_log_button (children (view (fst l1)))
  = Some (Button (Py.lit "Log Attendance") (Py.lit "log_button") true)
  ∧ message (fst l2) = log_success
  ∧ List.map Db.s_id (Db.session (Db.tables (snd l2))) = [1; 2]
  ∧ length (Db.ledger (Db.tables (snd l1))) = 4%nat
  ∧ length (Db.ledger (Db.tables (snd l2))) = 8%nat.
Proof. vm_compute. repeat split. Qed.

(** C3, witness: Dave holds no role and sits in the side room, not in the
    lobby where attendance was taken; his press of the log button commits,
    with the occupants of the side room as the present members. *)
Lemma commit_by_anyone_in_voice_witness :
  has_allowed_role dave = false
  ∧ voice (user dave_commits) = Some 11
  ∧ get_channel (guild dave_commits) 11 = Some side_room
  ∧ let l := log_attendance Discord.works Db.no_faults 1000 taken_view dave_commits
               empty_store in
    Db.session (Db.tables (snd l))
    = Db.session (Db.tables empty_store)
      ++ [session_row (Db.next_session_id empty_store) 1000
            (member_id (user dave_commits))
            (session_name taken_view) (skill_group taken_view) (season taken_view)]
    ∧ Db.ledger (Db.tables (snd l)) =
        Db.ledger (Db.tables empty_store)
        ++ List.map (fun member =>
                       entry (Db.next_session_id empty_store) 1000
                         (member_id member) true false)
                    (members side_room)
        ++ List.map (fun member =>
                       entry (Db.next_session_id empty_store) 1000
                         (member_id member) false
                         (bool_decide (member_id member ∈ excused_members taken_view)))
                    (absent_members taken_view)
    ∧ (edit_fails Discord.works None (children (view (fst l))) = false ->
       reply_fails Discord.works log_success = false ->
       message (fst l) = log_success)
    ∧ (message (fst l) = log_success ∨ message (fst l) = log_error)
    ∧ forall d' f rs,
        log_attendance d' f 1000 taken_view (with_roles dave_commits rs) empty_store
        = log_attendance d' f 1000 taken_view dave_commits empty_store.
Proof.
  split; [reflexivity|]. split; [reflexivity|]. split; [reflexivity|].
  apply (commit_by_anyone_in_voice Discord.works 1000 taken_view dave_commits
           empty_store 11 side_room); reflexivity.
Defined.

Example dave_commits_the_side_room :
  let l := log_attendance Discord.works Db.no_faults 1000 taken_view dave_commits
             empty_store in
  message (fst l) = log_success
  ∧ Db.ledger (Db.tables (snd l))
    = [entry 1 1000 301 true false; entry 1 1000 101 false false;
       entry 1 1000 102 false false].
Proof. vm_compute. split; reflexivity. Qed.

(** C2, counterexample: attendance is taken with Alice and Bob absent, Alice
    is excused, Bob joins the lobby, Carol logs.  Bob has two rows, one
    present and one absent; and Carol, who is not tracked, has a row. *)
Lemma bob_is_logged_twice :
  let rows := Db.ledger (Db.tables (snd (log_attendance Discord.works Db.no_faults
                 5000 alice_excused carol_commits empty_store))) in
  ~ one_entry_per_tracked_member [alice; bob] [carol; bob_in_lobby] {[ 101 ]} rows
  ∧ rows_of 102 rows = [entry 1 5000 102 true false; entry 1 5000 102 false false]
  ∧ rows_of 201 rows = [entry 1 5000 201 true false].
Proof.
  split; [|split; vm_compute; reflexivity].
  intros H. specialize (H 102). vm_compute in H.
  destruct H as (r & Hr & _). discriminate Hr.
Qed.

(** C2, witness: Carol logs before anybody joins. *)
Lemma one_entry_per_occupant_and_absentee_witness :
  let l := log_attendance Discord.works Db.no_faults 5000 alice_excused carol_takes
             empty_store in
  exists rows,
    Db.ledger (Db.tables (snd l)) = Db.ledger (Db.tables empty_store) ++ rows
    ∧ forall uid,
        rows_of uid rows =
          if bool_decide (uid ∈ ids (members (lobby [carol])))
          then [entry (Db.next_session_id empty_store) 5000 uid true false]
          else if bool_decide (uid ∈ ids (absent_members alice_excused))
               then [entry (Db.next_session_id empty_store) 5000 uid false
                       (bool_decide (uid ∈ excused_members alice_excused))]
               else [].
Proof.
  apply (one_entry_per_occupant_and_absentee Discord.works Db.no_faults 5000
           alice_excused carol_takes empty_store 10 (lobby [carol])).
  - reflexivity.
  - reflexivity.
  - vm_compute. reflexivity.
  - apply (bool_decide_unpack _). vm_compute. exact I.
  - apply (bool_decide_unpack _). vm_compute. exact I.
  - vm_compute. reflexivity.
Defined.

End CommitExamples.

(** ** Excuse marking *)

Section Excuses.
Import ExcuseView Scenario.

Lemma find_member_id (ms : list Member) sid m :
  List.find (fun m => member_id m =? sid) ms = Some m ->
  member_id m = sid ∧ m ∈ ms.
Proof.
  intros H. apply find_some in H as [Hin Heq].
  split; [by apply Z.eqb_eq|by apply list_elem_of_In].
Qed.

Lemma remove_select_none items :
  existsb is_select items = false -> remove_select items = items.
Proof.
  induction items as [|it items IH]; simpl; [done|].
  destruct (is_select it); simpl; [done|]. intros H. by rewrite IH.
Qed.

(** [remove_item] touches the children, the weights and the row of the
    menu only. *)
Lemma remove_item_snapshot v :
  absent_members (remove_item v) = absent_members v
  ∧ excused_members (remove_item v) = excused_members v
  ∧ original_embed (remove_item v) = original_embed v
  ∧ select_student (remove_item v) = select_student v
  ∧ children (remove_item v) = remove_select (children v).
Proof.
  unfold remove_item. destruct (existsb is_select (children v)) eqn:E; simpl.
  - done.
  - by rewrite remove_select_none.
Qed.

(** What one [student_selected] does to the snapshot, whatever Discord
    makes of the call. *)
Lemma student_selected_snapshot d v sid :
  let v' := view (student_selected d v sid) in
  absent_members v' = absent_members v
  ∧ select_student v' = select_student v
  ∧ (excused_members v' = excused_members v
     ∨ (sid ∈ ids (absent_members v)
        ∧ excused_members v' = {[ sid ]} ∪ excused_members v)).
Proof.
  unfold student_selected.
  destruct (List.find _ (absent_members v)) as [m|] eqn:Hfind; simpl; [|by auto].
  apply find_member_id in Hfind as [<- Hin].
  assert (member_id m ∈ ids (absent_members v))
    by (apply list_elem_of_In, in_map, list_elem_of_In, Hin).
  destruct (mark_fields _ _ _) as [e completed].
  destruct completed; simpl; [|by auto].
  match goal with |- context [remove_item ?v0] =>
    destruct (remove_item_snapshot v0) as (Ha & He & _ & Hs & _)
  end.
  destruct (edit_fails d _ _); simpl; [|rewrite replied_view];
    rewrite Ha, He, Hs; simpl; by auto.
Qed.

Lemma mark_all_snapshot v selections :
  absent_members (mark_all v selections) = absent_members v
  ∧ (excused_members v ⊆ list_to_set (ids (absent_members v)) ->
     excused_members (mark_all v selections)
     ⊆ list_to_set (ids (absent_members v))).
Proof.
  revert v. induction selections as [|[d sid] rest IH]; intros v; [done|].
  simpl. destruct (student_selected_snapshot d v sid) as (Ha & _ & He).
  destruct (IH (view (student_selected d v sid))) as [IHa IHe].
  rewrite IHa, Ha. split; [done|]. intros Hsub.
  rewrite Ha in IHe. apply IHe.
  destruct He as [-> | (Hin & ->)]; [done|].
  apply union_subseteq. split; [|done].
  apply singleton_subseteq_l, elem_of_list_to_set, Hin.
Qed.

(** C4.  Whatever ids are selected, in whatever order and however often,
    and whatever Discord makes of each call, the excused members of a
    snapshot stay among its absent members; and selecting a member who is
    already excused leaves the excused set as it is. *)
Theorem excused_stay_among_absent absent embed name group season_ selections :
  let v := mark_all (init absent embed name group season_) selections in
  absent_members v = absent
  ∧ excused_members v ⊆ list_to_set (ids absent)
  ∧ forall d sid,
      sid ∈ excused_members v ->
      excused_members (view (student_selected d v sid)) = excused_members v.
Proof.
  intros v.
  destruct (mark_all_snapshot (init absent embed name group season_) selections)
    as [Ha He].
  fold v in Ha, He. simpl in Ha, He.
  split; [done|]. split; [by apply He|].
  intros d sid Hsid.
  destruct (student_selected_snapshot d v sid) as (_ & _ & [H | (_ & ->)]); [done|].
  apply leibniz_equiv. apply subseteq_union_1.
  by apply singleton_subseteq_l.
Qed.

(** What [student_selected] displays does not read [excused_members]: it
    is computed from the fields of the embed, as the calls before left
    them, and the member just selected. *)
Lemma displayed_embed_ignores_excused d v excused sid :
  edited_embed (student_selected d (with_excused v excused) sid)
  = edited_embed (student_selected d v sid).
Proof.
  unfold student_selected. simpl.
  destruct (List.find _ (absent_members v)); [|done]. simpl.
  destruct (mark_fields _ _ _) as [e completed].
  destruct completed; simpl; [|done].
  unfold remove_item. simpl.
  destruct (existsb is_select (children v)); simpl;
    (destruct (edit_fails d _ _); simpl; [done|]);
    unfold replied; simpl; by destruct (reply_fails d _).
Qed.

(** C6, on the code.  Carol excuses Alice, and then Alice once more.  The
    excused set is the same after both calls, Alice alone, but the embed
    displayed after the second call carries the mark twice on Alice's line:
    each call appends to the fields the calls before have written, which
    the copy shares with the original embed.  For the same reason the mark
    of an earlier call stays when Bob is excused after Alice. *)
Theorem repeated_selection_duplicates_annotation :
  let r1 := student_selected Discord.works taken_view 101 in
  let r2 := student_selected Discord.works (view r1) 101 in
  let r3 := student_selected Discord.works (view r1) 102 in
  elements (excused_members (view r1)) = [101]
  ∧ elements (excused_members (view r2)) = [101]
  ∧ (edited_embed r1 ≫= absent_field_value)
    = Some (Py.lit "1. Alice" ++ excused_mark ++ [Py.newline] ++ Py.lit "2. Bob")
  ∧ (edited_embed r2 ≫= absent_field_value)
    = Some (Py.lit "1. Alice" ++ excused_mark ++ excused_mark
            ++ [Py.newline] ++ Py.lit "2. Bob")
  ∧ (edited_embed r3 ≫= absent_field_value)
    = Some (Py.lit "1. Alice" ++ excused_mark ++ [Py.newline]
            ++ Py.lit "2. Bob" ++ excused_mark).
Proof. vm_compute. repeat split. Qed.

End Excuses.

(** ** Report pages *)

Section ReportPages.
Import AttendanceReport.

Context {Session : Type}.
Variable content : Session -> Guild -> option (Py.str * Py.str).

(** The length check: a value within the budget is kept, a longer one is
    cut to 1021 characters and three dots, 1024 in all. *)
Lemma clip_spec value :
  (Py.len value <= MAX_FIELD_VALUE_LENGTH ∧ clip value = value)
  ∨ (Py.len value > MAX_FIELD_VALUE_LENGTH
     ∧ clip value = take 1021 value ++ Py.lit "..."
     ∧ Py.len (clip value) = MAX_FIELD_VALUE_LENGTH).
Proof.
  unfold clip, Py.len, Py.slice_to, MAX_FIELD_VALUE_LENGTH.
  destruct (Z.of_nat (length value) >? 1024) eqn:E.
  - right. apply Z.gtb_lt in E. split; [lia|]. split; [done|].
    rewrite length_app, length_take.
    change (length (Py.lit "...")) with 3%nat. change (1024 - 3) with 1021. lia.
  - left. split; [|done]. rewrite Z.gtb_ltb in E. apply Z.ltb_ge in E. lia.
Qed.

Lemma clip_len value : Py.len (clip value) <= MAX_FIELD_VALUE_LENGTH.
Proof. destruct (clip_spec value) as [[? ->] | (_ & _ & ->)]; lia. Qed.

Lemma continued_embed_fields season_ : fields (continued_embed season_) = [].
Proof. reflexivity. Qed.

Lemma add_session_spec season_ guild_ p session_ :
  paging_ok p ->
  match add_session content season_ guild_ p session_ with
  | None => content session_ guild_ = None
  | Some p' =>
      exists c, content session_ guild_ = Some c
        ∧ paging_ok p'
        ∧ 0 < field_count p'
        ∧ all_fields p' = all_fields p ++ [session_field c]
  end.
Proof.
  intros (Hcur & Hembeds & Hcount & Hfoot & Hfoots).
  unfold add_session. destruct (content session_ guild_) as [[name value]|]; [|done].
  exists (name, value). split; [done|].
  pose proof (clip_len value) as Hclip.
  destruct Hcur as [Hlen Hvals].
  unfold MAX_FIELDS_PER_EMBED in *.
  assert (Hf : within_limits (add_field (continued_embed season_)
                                (session_field (name, value)))).
  { split; simpl; [unfold MAX_FIELDS_PER_EMBED; lia|by repeat constructor]. }
  unfold paging_ok.
  destruct (field_count p >=? 25) eqn:E; cbn [embeds current_embed field_count].
  - split_and!; try done.
    + apply Forall_app. split; [done|]. constructor; [|done]. by split.
    + apply Forall_app. split; [done|]. by constructor.
    + unfold all_fields. cbn [embeds current_embed].
      rewrite List.map_app, concat_app. simpl. by rewrite app_nil_r.
  - rewrite Z.geb_leb in E. apply Z.leb_gt in E.
    split_and!; try done.
    + split; simpl.
      * rewrite length_app. simpl. unfold MAX_FIELDS_PER_EMBED. lia.
      * apply Forall_app. split; [done|]. by repeat constructor.
    + simpl. rewrite length_app. simpl. lia.
    + lia.
    + unfold all_fields. simpl. by rewrite app_assoc.
Qed.

Lemma add_sessions_spec season_ guild_ data p :
  paging_ok p ->
  match add_sessions content season_ guild_ data p with
  | None => exists session_, session_ ∈ data ∧ content session_ guild_ = None
  | Some p' =>
      exists cs,
        Forall2 (fun session_ c => content session_ guild_ = Some c) data cs
        ∧ paging_ok p'
        ∧ (0 < field_count p ∨ data <> [] -> 0 < field_count p')
        ∧ all_fields p' = all_fields p ++ List.map session_field cs
  end.
Proof.
  revert p. induction data as [|session_ data IH]; intros p Hp; simpl.
  - exists []. split; [constructor|]. split; [done|]. split.
    + by intros [?|?].
    + by rewrite app_nil_r.
  - pose proof (add_session_spec season_ guild_ p session_ Hp) as H1.
    destruct (add_session content season_ guild_ p session_) as [p1|].
    + destruct H1 as (c & Hc & Hp1 & Hpos & Hall).
      specialize (IH p1 Hp1).
      destruct (add_sessions content season_ guild_ data p1) as [p'|].
      * destruct IH as (cs & Hcs & Hp' & Hpos' & Hall').
        exists (c :: cs). split; [by constructor|]. split; [done|]. split.
        -- intros _. apply Hpos'. by left.
        -- rewrite Hall', Hall, <- app_assoc. done.
      * destruct IH as (s & Hin & Hs). exists s. split; [by right|done].
    + exists session_. split; [by left|done].
Qed.

(** The page-number loop, from any first number. *)
Lemma numbered_lookup (start total : nat) (es : list Embed) (i : nat) :
  List.map (fun ie => set_footer (snd ie) (page_footer (fst ie) total))
           (combine (seq start (length es)) es) !! i
  = (fun e => set_footer e (page_footer (start + i) total)) <$> (es !! i).
Proof.
  revert start i. induction es as [|e es IH]; intros start [|i]; simpl; try done.
  - by rewrite Nat.add_0_r.
  - rewrite IH. by rewrite Nat.add_succ_r.
Qed.

Lemma number_pages_lookup es i :
  number_pages es !! i
  = (fun e => set_footer e (page_footer (S i) (length es))) <$> (es !! i).
Proof. unfold number_pages, Py.enumerate1. by rewrite numbered_lookup. Qed.

Lemma number_pages_length es : length (number_pages es) = length es.
Proof.
  unfold number_pages, Py.enumerate1.
  by rewrite length_map, length_combine, length_seq, Nat.min_id.
Qed.

Lemma number_pages_numbered es : every_page_numbered (number_pages es).
Proof.
  intros i page. rewrite number_pages_lookup, number_pages_length.
  destruct (es !! i); simpl; [|done]. by intros [= <-].
Qed.

Lemma numbered_fields (start total : nat) (es : list Embed) :
  List.map fields
    (List.map (fun ie => set_footer (snd ie) (page_footer (fst ie) total))
              (combine (seq start (length es)) es))
  = List.map fields es.
Proof.
  revert start. induction es as [|e es IH]; intros start; simpl; [done|].
  by rewrite IH.
Qed.

Lemma number_pages_fields es :
  List.map fields (number_pages es) = List.map fields es.
Proof. apply numbered_fields. Qed.

Lemma within_limits_fields (es es' : list Embed) :
  List.map fields es' = List.map fields es ->
  Forall within_limits es -> Forall within_limits es'.
Proof.
  revert es'. induction es as [|e es IH]; intros [|e' es']; simpl;
    try discriminate; [done|].
  intros [= He Hes]. inversion 1 as [|? ? Hw Hrest]; subst.
  constructor; [|by apply IH].
  unfold within_limits in *. by rewrite He.
Qed.

(** C9 (as amended).  When [create_report_embeds] returns, which it does
    unless [create_session_field_content] raises on a session of the data,
    the page list is not empty, every page holds at most 25 fields, and
    every field value is at most 1024 characters long, a longer value being
    cut to its first 1021 characters and three dots.  For data that is not
    empty, page [i] of [total] carries the footer "Page i/total", and the
    fields of the pages are the session entries in order.  For empty data
    there is exactly one page, with the "No Data" notice; that page carries
    no footer. *)
Theorem report_pages generated_at data season_ granularity guild_ :
  (forall value,
     (Py.len value <= MAX_FIELD_VALUE_LENGTH ∧ clip value = value)
     ∨ (Py.len value > MAX_FIELD_VALUE_LENGTH
        ∧ clip value = take 1021 value ++ Py.lit "..."
        ∧ Py.len (clip value) = MAX_FIELD_VALUE_LENGTH))
  ∧ match create_report_embeds content generated_at data season_ granularity guild_ with
    | None => exists session_, session_ ∈ data ∧ content session_ guild_ = None
    | Some pages =>
        pages <> []
        ∧ Forall within_limits pages
        ∧ match data with
          | [] =>
              pages = [add_field (first_embed season_ granularity generated_at)
                                 no_data_field]
              ∧ Forall (fun page => footer page = None) pages
          | _ :: _ =>
              every_page_numbered pages
              ∧ exists cs,
                  Forall2 (fun session_ c => content session_ guild_ = Some c) data cs
                  ∧ concat (List.map fields pages) = List.map session_field cs
          end
    end.
Proof.
  split; [apply clip_spec|].
  unfold create_report_embeds.
  destruct data as [|session_ data].
  - split; [done|]. split.
    + repeat constructor; vm_compute; discriminate.
    + split; [done|]. by repeat constructor.
  - set (p0 := {| embeds := [];
                  current_embed := first_embed season_ granularity generated_at;
                  field_count := 0 |}).
    assert (Hp0 : paging_ok p0).
    { unfold paging_ok, within_limits, MAX_FIELDS_PER_EMBED. simpl.
      split_and!; try done; lia. }
    pose proof (add_sessions_spec season_ guild_ (session_ :: data) p0 Hp0) as H.
    destruct (add_sessions content season_ guild_ (session_ :: data) p0) as [p|];
      [|done].
    destruct H as (cs & Hcs & Hp & Hpos & Hall).
    assert (Hgt : (field_count p >? 0) = true)
      by (apply Z.gtb_lt, Hpos; by right).
    rewrite Hgt.
    destruct Hp as (Hcur & Hembeds & _).
    assert (Hw : Forall within_limits (embeds p ++ [current_embed p]))
      by (apply Forall_app; split; [done|by constructor]).
    split; [|split; [|split]].
    + intros Hnil. apply (f_equal length) in Hnil.
      rewrite number_pages_length, length_app in Hnil. simpl in Hnil. lia.
    + eapply within_limits_fields; [apply number_pages_fields|done].
    + apply number_pages_numbered.
    + exists cs. split; [done|].
      rewrite number_pages_fields, List.map_app, concat_app. simpl.
      rewrite app_nil_r. exact Hall.
Qed.

End ReportPages.

Section ReportExamples.
Import AttendanceReport Scenario.

(** C9, counterexample: the report of an empty result set is one page, the
    "No Data" page, and it has no footer. *)
Lemma empty_report_page_has_no_footer :
  exists pages,
    create_report_embeds (fun (_ : unit) _ => None)
      (Py.lit "2025-01-01 00:00:00") [] 3 DAILY guild_at_take = Some pages
    ∧ length pages = 1%nat
    ∧ List.map footer pages = [None]
    ∧ ~ every_page_numbered pages.
Proof.
  eexists. split; [reflexivity|]. split; [reflexivity|]. split; [reflexivity|].
  intros H. specialize (H 0%nat _ eq_refl). discriminate H.
Qed.

(** Thirty sessions make two pages, of 25 and of 5 entries. *)
Example thirty_sessions_two_pages :
  match create_report_embeds
          (fun (n : nat) _ => Some (Py.lit "Session", Py.str_of_nat n))
          (Py.lit "2025-01-01 00:00:00") (seq 0 30) 3 WEEKLY guild_at_take with
  | Some pages =>
      List.map (fun page => length (fields page)) pages = [25; 5]%nat
      ∧ List.map footer pages = [Some (Py.lit "Page 1/2"); Some (Py.lit "Page 2/2")]
  | None => False
  end.
Proof. vm_compute. split; reflexivity. Qed.

End ReportExamples.

(** ** Reminders *)

Section Reminders.
Import VoiceReminderCog.

Lemma five_minutes_pos : 0 < five_minutes.
Proof. reflexivity. Qed.

(** A property that every round keeps is kept by the loop, whether the loop
    runs to its end or an exception leaves it. *)
Lemma loop_invariant {A} (P : Run -> Prop) (body : Run -> A -> Flow) xs r :
  (forall r x, x ∈ xs -> P r -> P (run_of (body r x))) ->
  P r -> P (run_of (loop body xs r)).
Proof.
  revert r. induction xs as [|x xs IH]; intros r Hbody Hr; simpl; [done|].
  pose proof (Hbody r x (list_elem_of_here _ _) Hr) as Hx.
  destruct (body r x) as [r'|r']; simpl in *; [|done].
  apply IH; [|done]. intros r0 x0 Hin. apply Hbody. by right.
Qed.

Lemma visit_coach_invariant f t vc s0 r c :
  tick_invariant s0 t r -> tick_invariant s0 t (run_of (visit_coach f t vc r c)).
Proof.
  intros (Hkeep & Hnew & Hsent & Hrem). unfold visit_coach.
  destruct (coach_voice_states (cog r) !! member_id c) as [j|] eqn:Hj.
  - destruct (t - j >=? five_minutes) eqn:E; [|done].
    destruct (f (member_id c)); [done|]. simpl.
    rewrite Z.geb_leb in E. apply Z.leb_le in E.
    split_and!; simpl; try done.
    + intros x [Hx | ->%list_elem_of_singleton]%elem_of_app; [by apply Hsent|].
      simpl. split; [done|].
      destruct (coach_voice_states s0 !! member_id c) as [j'|] eqn:Hj'.
      * apply Hkeep in Hj'. rewrite Hj in Hj'. injection Hj' as <-. by exists j.
      * destruct (Hnew _ Hj') as [H|H]; rewrite Hj in H; [done|].
        injection H as ->. pose proof five_minutes_pos. lia.
    + rewrite Hrem, List.map_app, list_to_set_app_L. simpl. set_solver.
  - simpl. split_and!; simpl; try done.
    + intros u j Hu. destruct (decide (u = member_id c)) as [->|Hne].
      * apply Hkeep in Hu. congruence.
      * rewrite lookup_insert_ne by done. by apply Hkeep.
    + intros u Hu. destruct (decide (u = member_id c)) as [->|Hne].
      * right. by rewrite lookup_insert_eq.
      * rewrite lookup_insert_ne by done. by apply Hnew.
Qed.

(** The tick as a whole keeps [tick_invariant]. *)
Lemma tick_keeps_invariant f t gs s0 :
  tick_invariant s0 t
    (run_of (loop (visit_guild f t) gs {| cog := s0; sent := [] |})).
Proof.
  apply loop_invariant.
  - intros r g _ Hr. unfold visit_guild.
    destruct (get_channel g Config.ATTENDANCE_CHANNEL_ID); [|done].
    apply loop_invariant; [|done].
    intros r1 vc _ Hr1. unfold visit_channel.
    apply loop_invariant; [|done].
    intros r2 coach_ _. apply visit_coach_invariant.
  - unfold tick_invariant. simpl. split_and!; try by auto.
    + by intros x ?%elem_of_nil.
    + set_solver.
Qed.

(** A reminder is sent only to a member whose timer, when the tick
    started, was at least five minutes old; and whoever is reminded is in
    the reminded set afterwards. *)
Lemma tick_reminders_waited f t gs s x :
  x ∈ snd (check_voice_duration f t gs s) ->
  sent_at x = t
  ∧ (exists j, coach_voice_states s !! reminded x = Some j ∧ five_minutes <= t - j)
  ∧ reminded x ∈ reminded_coaches (fst (check_voice_duration f t gs s)).
Proof.
  unfold check_voice_duration. simpl. intros Hx.
  destruct (tick_keeps_invariant f t gs s) as (_ & _ & Hsent & Hrem).
  destruct (Hsent x Hx) as [Ht Hj]. split; [done|]. split; [done|].
  rewrite Hrem. apply elem_of_union_r, elem_of_list_to_set.
  apply list_elem_of_In, in_map, list_elem_of_In, Hx.
Qed.

(** *** Counting the reminders of one member *)

Lemma reminders_to_app uid o1 o2 :
  reminders_to uid (o1 ++ o2) = reminders_to uid o1 ++ reminders_to uid o2.
Proof. apply List.filter_app. Qed.

Lemma reminders_to_elem uid out x :
  x ∈ reminders_to uid out <-> x ∈ out ∧ reminded x = uid.
Proof.
  unfold reminders_to. rewrite !list_elem_of_In, filter_In.
  by rewrite bool_decide_eq_true.
Qed.

Lemma reminders_to_nil uid out :
  (forall x, x ∈ out -> reminded x <> uid) -> reminders_to uid out = [].
Proof.
  intros H. destruct (reminders_to uid out) as [|x l] eqn:E; [done|].
  assert (Hx : x ∈ reminders_to uid out) by (rewrite E; left).
  apply reminders_to_elem in Hx as [Hx Hu]. by destruct (H x Hx).
Qed.

Lemma continues_refl uid r : continues uid r r.
Proof.
  exists []. rewrite app_nil_r. split_and!; try done.
  - by intros x ?%elem_of_nil.
  - simpl. lia.
Qed.

Lemma continues_trans uid r1 r2 r3 :
  continues uid r1 r2 -> continues uid r2 r3 -> continues uid r1 r3.
Proof.
  intros (n1 & Hs1 & Hsub1 & Hin1 & Hnone1 & Hone1)
         (n2 & Hs2 & Hsub2 & Hin2 & Hnone2 & Hone2).
  exists (n1 ++ n2). split_and!.
  - by rewrite Hs2, Hs1, app_assoc.
  - by etrans.
  - intros x [Hx|Hx]%elem_of_app; [apply Hsub2; by apply Hin1|by apply Hin2].
  - intros Hu. rewrite reminders_to_app, Hnone1 by done.
    rewrite Hnone2; [done|by apply Hsub1].
  - rewrite reminders_to_app, length_app.
    destruct (reminders_to uid n1) as [|x l] eqn:E; [simpl; lia|].
    assert (Hx : x ∈ reminders_to uid n1) by (rewrite E; left).
    apply reminders_to_elem in Hx as [Hx <-].
    rewrite Hnone2 by (by apply Hin1). simpl in *. lia.
Qed.

Lemma visit_coach_continues f t vc uid r c :
  member_id c ∉ reminded_coaches (cog r) ->
  continues uid r (run_of (visit_coach f t vc r c))
  ∧ reminded_coaches (cog (run_of (visit_coach f t vc r c)))
    ⊆ {[ member_id c ]} ∪ reminded_coaches (cog r).
Proof.
  intros Hc. unfold visit_coach.
  destruct (coach_voice_states (cog r) !! member_id c) as [j|].
  - destruct (t - j >=? five_minutes); [|split; [apply continues_refl|set_solver]].
    destruct (f (member_id c)); [split; [apply continues_refl|set_solver]|].
    simpl. split; [|done].
    eexists. split; [reflexivity|]. simpl. split_and!.
    + set_solver.
    + intros x ->%list_elem_of_singleton. simpl. set_solver.
    + intros Hu. rewrite bool_decide_eq_false_2; [done|congruence].
    + case_bool_decide; simpl; lia.
  - simpl. split; [|set_solver].
    exists []. rewrite app_nil_r. simpl. split_and!; try done.
    + by intros x ?%elem_of_nil.
    + lia.
Qed.

Lemma visit_coaches_continues f t vc uid xs r :
  NoDup (ids xs) ->
  (forall c, c ∈ xs -> member_id c ∉ reminded_coaches (cog r)) ->
  continues uid r (run_of (loop (visit_coach f t vc) xs r)).
Proof.
  revert r. induction xs as [|x xs IH]; intros r Hnd Hfresh; simpl.
  - apply continues_refl.
  - apply NoDup_cons in Hnd as [Hx Hnd].
    destruct (visit_coach_continues f t vc uid r x) as [Hcont Hsub];
      [apply Hfresh; left|].
    destruct (visit_coach f t vc r x) as [r'|r']; simpl in *; [|done].
    eapply continues_trans; [exact Hcont|]. apply IH; [done|].
    intros c Hc Hin. apply Hsub in Hin.
    apply elem_of_union in Hin as [Heq%elem_of_singleton|Hin].
    + apply Hx. rewrite <- Heq.
      apply list_elem_of_In, in_map, list_elem_of_In, Hc.
    + by apply (Hfresh c); [right|].
Qed.

Lemma NoDup_ids_filter (P : Member -> bool) ms :
  NoDup (ids ms) -> NoDup (ids (List.filter P ms)).
Proof.
  induction ms as [|m ms IH]; simpl; [done|].
  intros [Hm Hnd]%NoDup_cons. destruct (P m); simpl; [|by apply IH].
  apply NoDup_cons. split; [|by apply IH].
  intros (m' & Hid & Hin%filter_In)%list_elem_of_In%in_map_iff.
  apply Hm. rewrite <- Hid. destruct Hin as [Hin _].
  apply list_elem_of_In, in_map, Hin.
Qed.

Lemma visit_channel_continues f t uid r vc :
  NoDup (ids (members vc)) ->
  continues uid r (run_of (visit_channel f t r vc)).
Proof.
  intros Hnd. unfold visit_channel, coaches.
  apply visit_coaches_continues; [by apply NoDup_ids_filter|].
  intros c [_ Hc]%list_elem_of_In%filter_In.
  apply andb_true_iff in Hc as [_ Hc].
  apply negb_true_iff, bool_decide_eq_false in Hc. done.
Qed.

Lemma tick_continues f t uid gs r :
  distinct_occupants gs ->
  continues uid r (run_of (loop (visit_guild f t) gs r)).
Proof.
  intros Hwf.
  apply (loop_invariant (continues uid r)); [|apply continues_refl].
  intros r1 g Hg Hr1. eapply continues_trans; [exact Hr1|].
  unfold visit_guild.
  destruct (get_channel g Config.ATTENDANCE_CHANNEL_ID); [|apply continues_refl].
  apply (loop_invariant (continues uid r1)); [|apply continues_refl].
  intros r2 vc Hvc Hr2. eapply continues_trans; [exact Hr2|].
  apply visit_channel_continues.
  unfold distinct_occupants in Hwf. rewrite Forall_forall in Hwf.
  specialize (Hwf g Hg). rewrite Forall_forall in Hwf. by apply Hwf.
Qed.

(** *** The events of an epoch *)

Lemma on_voice_state_update_reminded t m before after s :
  reminded_coaches (on_voice_state_update t m before after s) = reminded_coaches s.
Proof.
  unfold on_voice_state_update.
  destruct (negb (has_allowed_role m)); [done|].
  by destruct before, after.
Qed.

Lemma initialize_voice_states_reminded t gs s :
  reminded_coaches (initialize_voice_states t gs s) = reminded_coaches s.
Proof.
  unfold initialize_voice_states. revert s.
  induction gs as [|g gs IH]; intros s; simpl; [done|]. rewrite IH.
  unfold initialize_guild. generalize (voice_channels g). clear. intros vcs.
  revert s. induction vcs as [|vc vcs IH]; intros s; simpl; [done|]. rewrite IH.
  unfold initialize_channel. generalize (members vc). clear. intros ms.
  revert s. induction ms as [|m ms IH]; intros s; simpl; [done|]. rewrite IH.
  by destruct (has_allowed_role m).
Qed.

Lemma step_continues uid e r :
  match e with Tick _ _ gs => distinct_occupants gs | _ => True end ->
  continues uid r (step e r).
Proof.
  destruct e as [t m before after | f t gs | t gs]; intros Hwf; simpl.
  - exists []. cbn [cog sent].
    rewrite app_nil_r, on_voice_state_update_reminded.
    split_and!; try done; [by intros x ?%elem_of_nil|simpl; lia].
  - destruct (tick_continues f t uid gs {| cog := cog r; sent := [] |} Hwf)
      as (new & Hs & Hrest).
    cbn [cog sent] in Hs, Hrest. simpl in Hs. rewrite Hs.
    exists new. cbn [cog sent]. split; [done|]. exact Hrest.
  - exists []. cbn [cog sent].
    rewrite app_nil_r, initialize_voice_states_reminded.
    split_and!; try done; [by intros x ?%elem_of_nil|simpl; lia].
Qed.

Lemma events_continue uid es r :
  ticks_well_formed es -> continues uid r (fold_left (fun r e => step e r) es r).
Proof.
  revert r. induction es as [|e es IH]; intros r Hwf; simpl.
  - apply continues_refl.
  - apply Forall_cons in Hwf as [He Hes].
    eapply continues_trans; [by apply step_continues|by apply IH].
Qed.

(** C7.  Within an epoch, that is between two daily resets, a member is
    sent at most one reminder, and none at all if already reminded when the
    epoch's events start; and a tick sends a reminder only to a member
    whose recorded join time is at least five minutes before the tick, the
    member being in the reminded set from then on.  The daily reset empties
    the reminded set. *)
Theorem at_most_one_reminder_per_epoch es s uid :
  ticks_well_formed es ->
  (length (reminders_to uid (sent (epoch es s))) <= 1)%nat
  ∧ (uid ∈ reminded_coaches s -> reminders_to uid (sent (epoch es s)) = [])
  ∧ (forall es1 f t gs es2 x,
       es = es1 ++ Tick f t gs :: es2 ->
       x ∈ snd (check_voice_duration f t gs (cog (epoch es1 s))) ->
       sent_at x = t
       ∧ (exists j,
            coach_voice_states (cog (epoch es1 s)) !! reminded x = Some j
            ∧ five_minutes <= t - j)
       ∧ reminded x
         ∈ reminded_coaches (fst (check_voice_duration f t gs (cog (epoch es1 s)))))
  ∧ (forall t gs s0, reminded_coaches (reset_daily_reminders t gs s0) = ∅).
Proof.
  intros Hwf.
  destruct (events_continue uid es {| cog := s; sent := [] |} Hwf)
    as (new & Hs & _ & _ & Hnone & Hone).
  unfold epoch. rewrite Hs. simpl. split; [done|]. split; [done|]. split.
  - intros es1 f t gs es2 x _. apply tick_reminders_waited.
  - intros t gs s0. unfold reset_daily_reminders.
    by rewrite initialize_voice_states_reminded.
Qed.

(** *** A tick on a member without a timer *)

Lemma visit_coach_going t vc r c : is_going (visit_coach send_works t vc r c).
Proof.
  unfold visit_coach, send_works.
  destruct (coach_voice_states (cog r) !! member_id c) as [j|]; [|done].
  by destruct (t - j >=? five_minutes).
Qed.

Lemma loop_going {A} (body : Run -> A -> Flow) xs r :
  (forall r x, is_going (body r x)) -> is_going (loop body xs r).
Proof.
  intros Hbody. revert r. induction xs as [|x xs IH]; intros r; simpl; [done|].
  specialize (Hbody r x). destruct (body r x); [apply IH|done].
Qed.

(** A loop that runs to its end establishes at the round of [x0] what
    every later round keeps. *)
Lemma loop_reaches {A} (I D : Run -> Prop) (body : Run -> A -> Flow) xs x0 r :
  (forall r x, is_going (body r x)) ->
  (forall r x, I r -> I (run_of (body r x))) ->
  (forall r x, I r -> D r -> D (run_of (body r x))) ->
  x0 ∈ xs ->
  (forall r, I r -> D (run_of (body r x0))) ->
  I r -> D (run_of (loop body xs r)).
Proof.
  intros Hgo HI HD Hin Hx0. revert r.
  induction xs as [|x xs IH]; intros r Hr; [by apply elem_of_nil in Hin|].
  simpl. pose proof (Hgo r x) as Hg. pose proof (HI r x Hr) as Hr1.
  apply elem_of_cons in Hin as [<-|Hin].
  - pose proof (Hx0 r Hr) as Hd.
    destruct (body r x0) as [r1|r1]; simpl in *; [|done].
    apply (loop_invariant (fun r => I r ∧ D r)); [|done].
    intros r2 x2 _ [? ?]. split; [by apply HI|by apply HD].
  - destruct (body r x) as [r1|r1]; simpl in *; [|done]. by apply IH.
Qed.

Lemma visit_coach_keeps_timer f t vc r c u j :
  coach_voice_states (cog r) !! u = Some j ->
  coach_voice_states (cog (run_of (visit_coach f t vc r c))) !! u = Some j.
Proof.
  intros Hu. unfold visit_coach.
  destruct (coach_voice_states (cog r) !! member_id c) as [j'|] eqn:Hc.
  - destruct (t - j' >=? five_minutes); [|done]. by destruct (f (member_id c)).
  - simpl. rewrite lookup_insert_ne; [done|]. intros <-. congruence.
Qed.

Lemma loop_keeps_timer {A} (body : Run -> A -> Flow) xs r u j :
  (forall r x, coach_voice_states (cog r) !! u = Some j ->
               coach_voice_states (cog (run_of (body r x))) !! u = Some j) ->
  coach_voice_states (cog r) !! u = Some j ->
  coach_voice_states (cog (run_of (loop body xs r))) !! u = Some j.
Proof.
  intros Hbody.
  apply (loop_invariant (fun r => coach_voice_states (cog r) !! u = Some j)).
  intros r0 x _. apply Hbody.
Qed.

Lemma visit_channel_keeps_timer f t r vc u j :
  coach_voice_states (cog r) !! u = Some j ->
  coach_voice_states (cog (run_of (visit_channel f t r vc))) !! u = Some j.
Proof.
  unfold visit_channel. apply loop_keeps_timer.
  intros r0 c. apply visit_coach_keeps_timer.
Qed.

Lemma visit_guild_keeps_timer f t r g u j :
  coach_voice_states (cog r) !! u = Some j ->
  coach_voice_states (cog (run_of (visit_guild f t r g))) !! u = Some j.
Proof.
  unfold visit_guild.
  destruct (get_channel g Config.ATTENDANCE_CHANNEL_ID); [|done].
  apply loop_keeps_timer. intros r0 vc. apply visit_channel_keeps_timer.
Qed.

Lemma visit_channel_invariant f t s0 r vc :
  tick_invariant s0 t r -> tick_invariant s0 t (run_of (visit_channel f t r vc)).
Proof.
  unfold visit_channel. apply loop_invariant.
  intros r0 c _. apply visit_coach_invariant.
Qed.

Lemma visit_guild_invariant f t s0 r g :
  tick_invariant s0 t r -> tick_invariant s0 t (run_of (visit_guild f t r g)).
Proof.
  unfold visit_guild.
  destruct (get_channel g Config.ATTENDANCE_CHANNEL_ID); [|done].
  apply loop_invariant. intros r0 vc _. apply visit_channel_invariant.
Qed.

(** Within a tick started without a timer for [m], and with [m] not
    reminded, [m] is not reminded. *)
Lemma untimed_not_reminded s0 t r (m : Member) :
  coach_voice_states s0 !! member_id m = None ->
  member_id m ∉ reminded_coaches s0 ->
  tick_invariant s0 t r ->
  (member_id m ∉ reminded_coaches (cog r))
  ∧ reminders_to (member_id m) (sent r) = [].
Proof.
  intros Hnone Hfresh (_ & _ & Hsent & Hrem).
  assert (Hno : forall x, x ∈ sent r -> reminded x <> member_id m).
  { intros x Hx Heq. destruct (Hsent x Hx) as (_ & j & Hj & _).
    rewrite Heq in Hj. congruence. }
  split; [|by apply reminders_to_nil].
  rewrite Hrem. intros [Hin|Hin]%elem_of_union; [done|].
  apply elem_of_list_to_set, list_elem_of_In, in_map_iff in Hin
    as (x & Heq & Hx%list_elem_of_In).
  by apply (Hno x).
Qed.

Lemma visit_coach_going_quiet f t vc r c :
  (forall u, f u = false) -> is_going (visit_coach f t vc r c).
Proof.
  intros Hf. unfold visit_coach.
  destruct (coach_voice_states (cog r) !! member_id c) as [j|]; [|done].
  destruct (t - j >=? five_minutes); [|done]. by rewrite Hf.
Qed.

(** The round of [m] leaves [m] with the timer [t]. *)
Lemma visit_untimed_coach f s0 t vc r (m : Member) :
  (forall u, f u = false) ->
  coach_voice_states s0 !! member_id m = None ->
  tick_invariant s0 t r ->
  coach_voice_states (cog (run_of (visit_coach f t vc r m))) !! member_id m
  = Some t.
Proof.
  intros Hf Hnone (_ & Hnew & _). unfold visit_coach.
  destruct (Hnew _ Hnone) as [H|H]; rewrite H; simpl.
  - by rewrite lookup_insert_eq.
  - replace (t - t) with 0 by lia. by simpl.
Qed.

Lemma visit_untimed_channel f s0 t vc r (m : Member) :
  (forall u, f u = false) ->
  m ∈ members vc ->
  has_allowed_role m = true ->
  coach_voice_states s0 !! member_id m = None ->
  member_id m ∉ reminded_coaches s0 ->
  tick_invariant s0 t r ->
  coach_voice_states (cog (run_of (visit_channel f t r vc))) !! member_id m
  = Some t.
Proof.
  intros Hf Hin Hrole Hnone Hfresh Hr. unfold visit_channel.
  apply (loop_reaches (tick_invariant s0 t)
           (fun r => coach_voice_states (cog r) !! member_id m = Some t)
           _ _ m).
  - intros r0 c. by apply visit_coach_going_quiet.
  - intros r0 c. apply visit_coach_invariant.
  - intros r0 c _. apply visit_coach_keeps_timer.
  - unfold coaches. apply list_elem_of_In, filter_In.
    split; [by apply list_elem_of_In|]. rewrite Hrole. simpl.
    apply negb_true_iff, bool_decide_eq_false.
    by apply (untimed_not_reminded s0 t r m).
  - intros r0. by apply visit_untimed_coach.
  - done.
Qed.

Lemma visit_untimed_guild f s0 t g ac vc r (m : Member) :
  (forall u, f u = false) ->
  get_channel g Config.ATTENDANCE_CHANNEL_ID = Some ac ->
  vc ∈ voice_channels g ->
  m ∈ members vc ->
  has_allowed_role m = true ->
  coach_voice_states s0 !! member_id m = None ->
  member_id m ∉ reminded_coaches s0 ->
  tick_invariant s0 t r ->
  coach_voice_states (cog (run_of (visit_guild f t r g))) !! member_id m
  = Some t.
Proof.
  intros Hf Hac Hvc Hin Hrole Hnone Hfresh Hr. unfold visit_guild. rewrite Hac.
  apply (loop_reaches (tick_invariant s0 t)
           (fun r => coach_voice_states (cog r) !! member_id m = Some t)
           _ _ vc); try done.
  - intros r0 c. apply loop_going. intros r1 c1. by apply visit_coach_going_quiet.
  - intros r0 c. apply visit_channel_invariant.
  - intros r0 c _. apply visit_channel_keeps_timer.
  - intros r0. by apply visit_untimed_channel.
Qed.

(** A member of the reminded set is not among the coaches of any channel:
    the tick leaves the member without a timer. *)
Lemma visit_reminded_guild f s0 t g r (m : Member) :
  member_id m ∈ reminded_coaches s0 ->
  tick_invariant s0 t r ∧ coach_voice_states (cog r) !! member_id m = None ->
  tick_invariant s0 t (run_of (visit_guild f t r g))
  ∧ coach_voice_states (cog (run_of (visit_guild f t r g))) !! member_id m = None.
Proof.
  intros Hrem. unfold visit_guild.
  destruct (get_channel g Config.ATTENDANCE_CHANNEL_ID); [|done].
  apply (loop_invariant
           (fun r => tick_invariant s0 t r
                     ∧ coach_voice_states (cog r) !! member_id m = None)).
  intros r1 vc _ [Hr1 Hn1]. unfold visit_channel.
  assert (Hother : forall c, c ∈ coaches vc (cog r1) -> member_id c <> member_id m).
  { intros c1 Hc Heq. unfold coaches in Hc.
    apply list_elem_of_In, filter_In in Hc as [_ Hc].
    apply andb_true_iff in Hc as [_ Hc].
    apply negb_true_iff, bool_decide_eq_false in Hc. apply Hc.
    destruct Hr1 as (_ & _ & _ & ->). rewrite Heq. set_solver. }
  revert Hother. generalize (coaches vc (cog r1)). intros cs Hother.
  apply (loop_invariant
           (fun r => tick_invariant s0 t r
                     ∧ coach_voice_states (cog r) !! member_id m = None));
    [|done].
  intros r2 c2 Hc [Hr2 Hn2]. split; [by apply visit_coach_invariant|].
  unfold visit_coach.
  destruct (coach_voice_states (cog r2) !! member_id c2) as [j|].
  - destruct (t - j >=? five_minutes); [|done]. by destruct (f (member_id c2)).
  - simpl. rewrite lookup_insert_ne; [done|]. by apply Hother.
Qed.

(** C8 (as amended).  A tick started on a cog that has no timer for a
    member sends the member no reminder, whatever the guilds, the sends
    that raise and the reminded set are, and leaves the member without a
    timer or with the time of the tick as timer; a later tick on the cog
    this tick leaves reminds the member only if this tick has set the timer
    and the later one comes at least five minutes after.  The tick sets the
    timer when no send raises and the member is among the coaches of a
    voice channel, of a guild where the attendance channel is found: the
    coaches of a channel are its occupants who hold a tracked role and are
    not in the reminded set.  It does not set the timer of a member of the
    reminded set, and, when no guild has the attendance channel, it changes
    nothing. *)
Theorem tick_initializes_missing_timer f t gs s (m : Member) :
  coach_voice_states s !! member_id m = None ->
  let out := check_voice_duration f t gs s in
  reminders_to (member_id m) (snd out) = []
  ∧ (coach_voice_states (fst out) !! member_id m = None
     ∨ coach_voice_states (fst out) !! member_id m = Some t)
  ∧ (forall f' t' gs',
       reminders_to (member_id m)
         (snd (check_voice_duration f' t' gs' (fst out))) <> [] ->
       coach_voice_states (fst out) !! member_id m = Some t
       ∧ five_minutes <= t' - t)
  ∧ (forall k g ac n vc i,
       (forall u, f u = false) ->
       gs !! k = Some g ->
       get_channel g Config.ATTENDANCE_CHANNEL_ID = Some ac ->
       voice_channels g !! n = Some vc ->
       coaches vc s !! i = Some m ->
       coach_voice_states (fst out) !! member_id m = Some t)
  ∧ (member_id m ∈ reminded_coaches s ->
     coach_voice_states (fst out) !! member_id m = None)
  ∧ (Forall (fun g => get_channel g Config.ATTENDANCE_CHANNEL_ID = None) gs ->
     out = (s, [])).
Proof.
  intros Hnone out.
  pose proof (tick_keeps_invariant f t gs s) as Hinv.
  assert (Hstart : tick_invariant s t {| cog := s; sent := [] |}).
  { destruct (tick_keeps_invariant f t [] s) as (? & ? & ? & ?). by split_and!. }
  assert (Hquiet : reminders_to (member_id m) (snd out) = []).
  { apply reminders_to_nil. intros x Hx Heq.
    destruct Hinv as (_ & _ & Hsent & _).
    destruct (Hsent x Hx) as (_ & j & Hj & _). rewrite Heq in Hj. congruence. }
  assert (Htimer : coach_voice_states (fst out) !! member_id m = None
                   ∨ coach_voice_states (fst out) !! member_id m = Some t).
  { destruct Hinv as (_ & Hnew & _). by apply Hnew. }
  split; [done|]. split; [done|]. split; [|split; [|split]].
  - intros f' t' gs' Hsome.
    destruct (reminders_to (member_id m)
                (snd (check_voice_duration f' t' gs' (fst out))))
      as [|x l] eqn:E; [done|].
    assert (Hx : x ∈ reminders_to (member_id m)
                       (snd (check_voice_duration f' t' gs' (fst out))))
      by (rewrite E; left).
    apply reminders_to_elem in Hx as [Hx Heq].
    apply tick_reminders_waited in Hx as (_ & (j & Hj & Hwait) & _).
    rewrite Heq in Hj. destruct Htimer as [Ht|Ht]; rewrite Ht in Hj; [done|].
    injection Hj as <-. done.
  - intros k g ac n vc i Hf Hg Hac Hvc Hcoach.
    apply list_elem_of_lookup_2 in Hg, Hvc, Hcoach.
    apply list_elem_of_In, filter_In in Hcoach as [Hm%list_elem_of_In Hcoach].
    apply andb_true_iff in Hcoach as [Hrole Hfresh].
    apply negb_true_iff, bool_decide_eq_false in Hfresh.
    unfold out, check_voice_duration. simpl.
    apply (loop_reaches (tick_invariant s t)
             (fun r => coach_voice_states (cog r) !! member_id m = Some t)
             _ _ g); try done.
    + intros r0 g0. unfold visit_guild.
      destruct (get_channel g0 Config.ATTENDANCE_CHANNEL_ID); [|done].
      apply loop_going. intros r1 vc1. apply loop_going.
      intros r2 c2. by apply visit_coach_going_quiet.
    + intros r0 g0. apply visit_guild_invariant.
    + intros r0 g0 _. apply visit_guild_keeps_timer.
    + intros r0 Hr0. by apply (visit_untimed_guild f s t g ac vc).
  - intros Hrem. unfold out, check_voice_duration. simpl.
    apply (loop_invariant
             (fun r => tick_invariant s t r
                       ∧ coach_voice_states (cog r) !! member_id m = None));
      [|done].
    intros r g _. by apply visit_reminded_guild.
  - intros Hall. unfold out, check_voice_duration.
    assert (Hloop : loop (visit_guild f t) gs {| cog := s; sent := [] |}
                    = Going {| cog := s; sent := [] |}).
    { generalize {| cog := s; sent := [] |}. clear -Hall. intros r.
      induction gs as [|g gs' IH]; [done|].
      apply Forall_cons in Hall as [Hg Hall].
      simpl. unfold visit_guild at 1. rewrite Hg. by apply IH. }
    by rewrite Hloop.
Qed.

End Reminders.

Section ReminderExamples.
Import VoiceReminderCog Scenario Epoch.

Lemma guild_at_take_distinct : distinct_occupants [guild_at_take].
Proof.
  unfold distinct_occupants. repeat (apply Forall_cons; split);
    try apply Forall_nil; apply (bool_decide_unpack _); vm_compute; exact I.
Qed.

Lemma events_well_formed : ticks_well_formed events.
Proof.
  unfold ticks_well_formed, events.
  repeat first [ exact I | exact guild_at_take_distinct | apply Forall_nil
               | apply Forall_cons; split ].
Defined.

(** The scenario of the epoch: nothing at 4:31, one reminder at 5:01,
    nothing more at 10:00. *)
Example one_reminder_at_five_minutes :
  sent (epoch events init)
  = [{| reminded := 201; in_channel := Py.lit "Lobby"; sent_at := seconds 301 |}].
Proof. vm_compute. reflexivity. Qed.

(** C7, witness: the epoch above, for Carol. *)
Lemma at_most_one_reminder_per_epoch_witness :
  ticks_well_formed events
  ∧ (length (reminders_to 201 (sent (epoch events init))) <= 1)%nat
  ∧ (201 ∈ reminded_coaches init -> reminders_to 201 (sent (epoch events init)) = [])
  ∧ (forall es1 f t gs es2 x,
       events = es1 ++ Tick f t gs :: es2 ->
       x ∈ snd (check_voice_duration f t gs (cog (epoch es1 init))) ->
       sent_at x = t
       ∧ (exists j,
            coach_voice_states (cog (epoch es1 init)) !! reminded x = Some j
            ∧ five_minutes <= t - j)
       ∧ reminded x
         ∈ reminded_coaches (fst (check_voice_duration f t gs (cog (epoch es1 init)))))
  ∧ (forall t gs s0, reminded_coaches (reset_daily_reminders t gs s0) = ∅).
Proof.
  split; [exact events_well_formed|].
  apply (at_most_one_reminder_per_epoch events init 201). exact events_well_formed.
Defined.

(** C8, witness: the process has just started, the cog is empty and Carol
    sits in the lobby; the first tick comes at 1000 seconds. *)
Lemma tick_initializes_missing_timer_witness :
  let out := check_voice_duration send_works (seconds 1000) [guild_at_take] init in
  reminders_to (member_id carol) (snd out) = []
  ∧ (coach_voice_states (fst out) !! member_id carol = None
     ∨ coach_voice_states (fst out) !! member_id carol = Some (seconds 1000))
  ∧ (forall f' t' gs',
       reminders_to (member_id carol)
         (snd (check_voice_duration f' t' gs' (fst out))) <> [] ->
       coach_voice_states (fst out) !! member_id carol = Some (seconds 1000)
       ∧ five_minutes <= t' - seconds 1000)
  ∧ (forall k g ac n vc i,
       (forall u, send_works u = false) ->
       [guild_at_take] !! k = Some g ->
       get_channel g Config.ATTENDANCE_CHANNEL_ID = Some ac ->
       voice_channels g !! n = Some vc ->
       coaches vc init !! i = Some carol ->
       coach_voice_states (fst out) !! member_id carol = Some (seconds 1000))
  ∧ (member_id carol ∈ reminded_coaches init ->
     coach_voice_states (fst out) !! member_id carol = None)
  ∧ (Forall (fun g => get_channel g Config.ATTENDANCE_CHANNEL_ID = None)
            [guild_at_take] ->
     out = (init, [])).
Proof.
  apply (tick_initializes_missing_timer send_works (seconds 1000) [guild_at_take]
           init carol).
  reflexivity.
Defined.

(** On that tick Carol is among the coaches of the lobby; her timer is set
    and nothing is sent. *)
Example first_tick_sets_the_timer :
  let out := check_voice_duration send_works (seconds 1000) [guild_at_take] init in
  get_channel guild_at_take Config.ATTENDANCE_CHANNEL_ID = Some attendance_channel
  ∧ voice_channels guild_at_take !! 0%nat = Some (lobby [carol])
  ∧ coaches (lobby [carol]) init !! 0%nat = Some carol
  ∧ coach_voice_states (fst out) !! member_id carol = Some (seconds 1000)
  ∧ snd out = [].
Proof. vm_compute. repeat split; reflexivity. Qed.

(** C8, counterexample: Carol holds a tracked role, sits in the lobby and
    has no timer.  In a guild without the attendance channel the tick
    leaves her without a timer; so does the tick on a cog that has her in
    the reminded set. *)
Lemma untimed_occupant_is_not_initialized :
  tracked_occupant [guild_without_attendance_channel] carol
  ∧ coach_voice_states init !! member_id carol = None
  ∧ ~ initializes_timer send_works (seconds 1000)
        [guild_without_attendance_channel] init carol
  ∧ tracked_occupant [guild_at_take] carol
  ∧ coach_voice_states carol_reminded !! member_id carol = None
  ∧ ~ initializes_timer send_works (seconds 1000) [guild_at_take] carol_reminded
        carol.
Proof.
  split_and!.
  - exists guild_without_attendance_channel, (lobby [carol]).
    split_and!; [by left|by left|by left|reflexivity].
  - reflexivity.
  - intros [Htimer _]. vm_compute in Htimer. discriminate.
  - exists guild_at_take, (lobby [carol]).
    split_and!; [by left|by left|by left|reflexivity].
  - reflexivity.
  - intros [Htimer _]. vm_compute in Htimer. discriminate.
Qed.

End ReminderExamples.

(** ** [sync_users] *)

Section Sync.
Import DatabaseManager.

(** *** The member loop on the table *)

Lemma update_row_discord_id name ut sg act did r :
  Db.u_discord_id (update_row name ut sg act did r) = Db.u_discord_id r.
Proof. unfold update_row. by case_bool_decide. Qed.

Lemma refresh_discord_id m r : Db.u_discord_id (refresh m r) = Db.u_discord_id r.
Proof.
  unfold refresh. destruct (member_user_type m); [|done].
  apply update_row_discord_id.
Qed.

Lemma refresh_all_discord_id ms r :
  Db.u_discord_id (refresh_all ms r) = Db.u_discord_id r.
Proof.
  revert r. induction ms as [|m ms IH]; intros r; simpl; [done|].
  unfold refresh_all in *. simpl. by rewrite IH, refresh_discord_id.
Qed.

(** A row that no stored member names is left alone. *)
Lemma refresh_other m r : ~ stored_as r m -> refresh m r = r.
Proof.
  unfold stored_as, refresh, update_row. intros H.
  destruct (member_user_type m) as [ut|]; [|done].
  case_bool_decide as E; [|done]. destruct H. split; [by eexists|done].
Qed.

(** A row that a stored member names takes all its values from the member. *)
Lemma refresh_same m r r' :
  stored_as r m ->
  Db.u_id r' = Db.u_id r -> Db.u_discord_id r' = Db.u_discord_id r ->
  refresh m r' = refresh m r.
Proof.
  unfold stored_as, refresh, update_row. intros [[ut Hut] Hdid] Hid Hd.
  rewrite Hut. rewrite Hd. rewrite !bool_decide_eq_true_2 by done.
  by rewrite Hid.
Qed.

Lemma stored_as_dec r m : stored_as r m ∨ ~ stored_as r m.
Proof.
  unfold stored_as.
  destruct (member_user_type m) as [ut|].
  - destruct (decide (discord_id_of m = Db.u_discord_id r)) as [E|E].
    + left. split; [by eexists|done].
    + right. by intros [_ ?].
  - right. intros [[? [=]] _].
Qed.

Lemma refresh_idem m r : refresh m (refresh m r) = refresh m r.
Proof.
  unfold refresh. destruct (member_user_type m) as [ut|]; [|done].
  unfold update_row at 2. case_bool_decide as E.
  - unfold update_row. simpl. by rewrite bool_decide_eq_true_2.
  - unfold update_row. by rewrite bool_decide_eq_false_2.
Qed.

Lemma refresh_all_untouched ms r :
  (forall m, m ∈ ms -> ~ stored_as r m) -> refresh_all ms r = r.
Proof.
  revert r. induction ms as [|m ms IH]; intros r H; [done|].
  unfold refresh_all in *. simpl. rewrite refresh_other by (apply H; left).
  apply IH. intros m' Hm'. apply H. by right.
Qed.

(** When some stored member of the list names the row, what the row held
    before does not matter. *)
Lemma refresh_all_override ms r r' :
  (exists m, m ∈ ms ∧ stored_as r m) ->
  Db.u_id r' = Db.u_id r -> Db.u_discord_id r' = Db.u_discord_id r ->
  refresh_all ms r' = refresh_all ms r.
Proof.
  revert r r'. induction ms as [|m ms IH]; intros r r' (m0 & Hin & Hm0) Hid Hd.
  - by apply elem_of_nil in Hin.
  - unfold refresh_all in *. simpl.
    destruct (stored_as_dec r m) as [Hm|Hm].
    + by rewrite (refresh_same m r r').
    + assert (Hm' : ~ stored_as r' m)
        by (unfold stored_as in *; by rewrite Hd).
      rewrite !refresh_other by done.
      apply IH; [|done|done].
      apply elem_of_cons in Hin as [->|Hin]; [done|]. by exists m0.
Qed.

Lemma refresh_all_cons m ms r : refresh_all (m :: ms) r = refresh_all ms (refresh m r).
Proof. reflexivity. Qed.

Lemma upsert_all_cons m ms T : upsert_all (m :: ms) T = upsert_all ms (upsert m T).
Proof. reflexivity. Qed.

(** The rows after one round. *)
Lemma upsert_rows m T r :
  r ∈ fst (upsert m T) ->
  (exists r0, r0 ∈ fst T ∧ r = refresh m r0)
  ∨ (stored_as r m ∧ refresh m r = r
     ∧ forall r0, r0 ∈ fst T -> Db.u_discord_id r0 <> discord_id_of m).
Proof.
  unfold upsert, refresh.
  destruct (member_user_type m) as [ut|] eqn:Hut; [|intros Hr; left; by exists r].
  destruct (List.find _ (fst T)) as [r1|] eqn:Hfind; simpl.
  - intros (r0 & <- & Hr0%list_elem_of_In)%list_elem_of_In%in_map_iff.
    left. by exists r0.
  - assert (Hfresh : forall r0, r0 ∈ fst T -> Db.u_discord_id r0 <> discord_id_of m).
    { intros r0 Hr0%list_elem_of_In Heq.
      pose proof (find_none _ _ Hfind r0 Hr0) as Hn. simpl in Hn.
      by rewrite bool_decide_eq_true_2 in Hn. }
    intros [Hr | ->%list_elem_of_singleton]%elem_of_app.
    + left. exists r. split; [done|].
      unfold update_row. rewrite bool_decide_eq_false_2; [done|by apply Hfresh].
    + right. split; [|split; [|done]].
      * unfold stored_as. rewrite Hut. split; [by eexists|done].
      * unfold update_row. simpl. by rewrite bool_decide_eq_true_2.
Qed.

Lemma named_dec (ms : list Member) r :
  (exists m, m ∈ ms ∧ stored_as r m) ∨ (forall m, m ∈ ms -> ~ stored_as r m).
Proof.
  induction ms as [|m ms [(m0 & Hin & Hm0)|IH]].
  - right. by intros m ?%elem_of_nil.
  - left. exists m0. split; [by right|done].
  - destruct (stored_as_dec r m) as [Hm|Hm].
    + left. exists m. split; [left|done].
    + right. intros m' [->|Hin]%elem_of_cons; [done|by apply IH].
Qed.

(** A row named by no stored member of the list was there before. *)
Lemma upsert_all_origin ms T r :
  r ∈ fst (upsert_all ms T) ->
  (forall m, m ∈ ms -> ~ stored_as r m) ->
  r ∈ fst T.
Proof.
  revert T. induction ms as [|m ms IH]; intros T Hr Hno; [done|].
  rewrite upsert_all_cons in Hr.
  apply IH in Hr; [|intros m' Hm'; apply Hno; by right].
  assert (Hm : ~ stored_as r m) by (apply Hno; left).
  apply upsert_rows in Hr as [(r0 & Hr0 & ->) | (Hst & _)]; [|done].
  rewrite refresh_other; [done|].
  unfold stored_as in *. by rewrite refresh_discord_id in Hm.
Qed.

(** After the loop, the loop changes no row any more. *)
Lemma upsert_all_settled ms T r :
  r ∈ fst (upsert_all ms T) -> refresh_all ms r = r.
Proof.
  revert T. induction ms as [|m ms IH]; intros T Hr; [done|].
  rewrite upsert_all_cons in Hr. rewrite refresh_all_cons.
  pose proof (IH _ Hr) as Hsettled.
  destruct (stored_as_dec r m) as [Hm|Hm]; [|by rewrite refresh_other].
  destruct (named_dec ms r) as [Hlater|Hnone].
  - rewrite (refresh_all_override ms r (refresh m r)); try done.
    + unfold refresh. destruct (member_user_type m); [|done].
      unfold update_row. by case_bool_decide.
    + apply refresh_discord_id.
  - apply upsert_all_origin in Hr; [|done].
    apply upsert_rows in Hr as [(r0 & Hr0 & ->) | (_ & Heq & _)].
    + rewrite refresh_idem. exact Hsettled.
    + rewrite Heq. exact Hsettled.
Qed.

(** A discord id in the table stays in the table. *)
Lemma upsert_keeps_ids m T did :
  (exists r, r ∈ fst T ∧ Db.u_discord_id r = did) ->
  exists r, r ∈ fst (upsert m T) ∧ Db.u_discord_id r = did.
Proof.
  intros (r & Hr & Hd). unfold upsert.
  destruct (member_user_type m) as [ut|]; [|by exists r].
  destruct (List.find _ (fst T)); simpl.
  - eexists. split.
    + apply list_elem_of_In, in_map, list_elem_of_In, Hr.
    + by rewrite update_row_discord_id.
  - exists r. split; [apply elem_of_app; by left|done].
Qed.

Lemma upsert_all_keeps_ids ms T did :
  (exists r, r ∈ fst T ∧ Db.u_discord_id r = did) ->
  exists r, r ∈ fst (upsert_all ms T) ∧ Db.u_discord_id r = did.
Proof.
  revert T. induction ms as [|m ms IH]; intros T H; [done|].
  rewrite upsert_all_cons. by apply IH, upsert_keeps_ids.
Qed.

Lemma upsert_knows m T :
  is_Some (member_user_type m) ->
  exists r, r ∈ fst (upsert m T) ∧ Db.u_discord_id r = discord_id_of m.
Proof.
  intros [ut Hut]. unfold upsert. rewrite Hut.
  destruct (List.find _ (fst T)) as [r1|] eqn:Hfind; simpl.
  - apply find_some in Hfind as [Hin Heq%bool_decide_eq_true].
    eexists. split.
    + apply list_elem_of_In, in_map, Hin.
    + by rewrite update_row_discord_id.
  - eexists. split; [apply elem_of_app; right; apply list_elem_of_singleton; done|done].
Qed.

(** After the loop, every stored member of the list has a row. *)
Lemma upsert_all_known ms T : all_known ms (fst (upsert_all ms T)).
Proof.
  revert T. induction ms as [|m ms IH]; intros T m0 Hin Hsome.
  - by apply elem_of_nil in Hin.
  - rewrite upsert_all_cons. apply elem_of_cons in Hin as [->|Hin].
    + by apply upsert_all_keeps_ids, upsert_knows.
    + by apply IH.
Qed.

(** On a table that knows the members, the loop only updates: no row is
    added, the counter stays. *)
Lemma upsert_all_of_known ms rows ctr :
  all_known ms rows ->
  upsert_all ms (rows, ctr) = (List.map (refresh_all ms) rows, ctr).
Proof.
  revert rows. induction ms as [|m ms IH]; intros rows Hknown.
  - simpl. by rewrite List.map_id.
  - rewrite upsert_all_cons.
    assert (Hstep : upsert m (rows, ctr) = (List.map (refresh m) rows, ctr)).
    { unfold upsert, refresh.
      destruct (member_user_type m) as [ut|] eqn:Hut; [|by rewrite List.map_id].
      destruct (Hknown m) as (r & Hr & Hd); [left|by rewrite Hut; eexists|].
      simpl. destruct (List.find _ rows) eqn:Hfind; [done|].
      apply list_elem_of_In in Hr.
      pose proof (find_none _ _ Hfind r Hr) as Hn. simpl in Hn.
      by rewrite bool_decide_eq_true_2 in Hn. }
    rewrite Hstep, IH.
    + by rewrite List.map_map.
    + intros m0 Hin Hsome.
      destruct (Hknown m0) as (r & Hr & Hd); [by right|done|].
      exists (refresh m r). split.
      * apply list_elem_of_In, in_map, list_elem_of_In, Hr.
      * by rewrite refresh_discord_id.
Qed.

Lemma all_known_prefix ms1 ms2 rows :
  all_known (ms1 ++ ms2) rows -> all_known ms1 rows.
Proof. intros H m Hin. apply H, elem_of_app. by left. Qed.

(** Running the loop again on the table it left changes nothing. *)
Lemma upsert_all_twice ms T :
  upsert_all ms (upsert_all ms T) = upsert_all ms T.
Proof.
  destruct (upsert_all ms T) as [rows ctr] eqn:E.
  rewrite upsert_all_of_known.
  - f_equal. rewrite <- (List.map_id rows) at 2. apply List.map_ext_in.
    intros r Hr%list_elem_of_In. apply (upsert_all_settled ms T).
    by rewrite E.
  - pose proof (upsert_all_known ms T) as H. by rewrite E in H.
Qed.

(** *** The member loop on the connection *)

Lemma sync_member_spec m counts f c :
  match sync_member m counts f c with
  | (Db.Ok counts', c') =>
      users_of c' = upsert m (users_of c)
      ∧ fst counts' - fst counts = Db.user_counter c' - Db.user_counter c
      ∧ users_only c c'
  | (Db.MysqlError, c') =>
      Db.committed c' = Db.committed c
      ∧ Db.session_counter c' = Db.session_counter c
      ∧ Db.user_counter c' = Db.user_counter c
  end.
Proof.
  unfold sync_member, upsert, users_of, users_only.
  destruct (member_user_type m) as [ut|]; [|simpl; split_and!; try done; lia].
  unfold Db.bind at 1, select_user at 1, Db.call at 1.
  destruct (Db.raises f (Db.calls c)); [done|]. cbn [fst snd].
  fold (discord_id_of m).
  destruct (List.find _ (Db.user (Db.working c))); cbn [Db.tick_call].
  - unfold Db.bind, update_user, Db.call, Db.ret. cbn.
    destruct (Db.raises f (S (Db.calls c))); cbn; [done|].
    split_and!; try done; lia.
  - unfold Db.bind, insert_user, Db.call, Db.ret. cbn.
    destruct (Db.raises f (S (Db.calls c))); cbn; [done|].
    split_and!; try done; lia.
Qed.

Lemma users_only_trans c1 c2 c3 :
  users_only c1 c2 -> users_only c2 c3 -> users_only c1 c3.
Proof.
  unfold users_only. intros (-> & -> & -> & ->) (-> & -> & -> & ->). done.
Qed.

Lemma sync_members_spec ms counts f c :
  match sync_members ms counts f c with
  | (Db.Ok counts', c') =>
      users_of c' = upsert_all ms (users_of c)
      ∧ fst counts' - fst counts = Db.user_counter c' - Db.user_counter c
      ∧ users_only c c'
  | (Db.MysqlError, c') =>
      Db.committed c' = Db.committed c
      ∧ Db.session_counter c' = Db.session_counter c
      ∧ exists ms1 ms2,
          ms = ms1 ++ ms2
          ∧ Db.user_counter c' = snd (upsert_all ms1 (users_of c))
  end.
Proof.
  revert counts c. induction ms as [|m ms IH]; intros counts c.
  - cbn. split; [done|]. split; [lia|]. by repeat split.
  - cbn [sync_members]. unfold Db.bind.
    pose proof (sync_member_spec m counts f c) as Hm.
    destruct (sync_member m counts f c) as [[counts1|] c1].
    + destruct Hm as (Hu & Hc & Honly).
      specialize (IH counts1 c1).
      destruct (sync_members ms counts1 f c1) as [[counts2|] c2].
      * destruct IH as (Hu2 & Hc2 & Honly2).
        rewrite upsert_all_cons, <- Hu.
        split_and!; [done|lia|by eapply users_only_trans].
      * destruct IH as (Hcom & Hs & ms1 & ms2 & -> & Hctr).
        destruct Honly as (Hcom1 & _ & _ & Hs1).
        split_and!; [congruence|congruence|].
        exists (m :: ms1), ms2. split; [done|].
        by rewrite upsert_all_cons, <- Hu.
    + destruct Hm as (Hcom & Hs & Hctr).
      split_and!; try done. exists [], (m :: ms). by split.
Qed.

Lemma sync_members_no_faults ms counts c :
  exists counts' c', sync_members ms counts Db.no_faults c = (Db.Ok counts', c').
Proof.
  revert counts c. induction ms as [|m ms IH]; intros counts c.
  - by eexists _, _.
  - cbn [sync_members]. unfold Db.bind.
    assert (Hm : exists counts1 c1,
               sync_member m counts Db.no_faults c = (Db.Ok counts1, c1)).
    { unfold sync_member. destruct (member_user_type m); [|by eexists _, _].
      unfold Db.bind at 1, select_user at 1, Db.call at 1. cbn.
      destruct (List.find _ _); cbn; by eexists _, _. }
    destruct Hm as (counts1 & c1 & ->). apply IH.
Qed.

(** *** [sync_users] on the store *)

Lemma with_users_same st :
  with_users st (Db.user (Db.tables st), Db.next_user_id st) = st.
Proof. by destruct st as [[] ? ?]. Qed.

(** Every way [sync_users] can end.  It returns [True] with the table the
    member loop leaves, and the number of rows the loop added; or it
    returns [(False, 0, 0)] or raises, with the rows it found, the counter
    alone having moved past the inserts made before the failure. *)
Lemma sync_users_outcomes f ms st :
  let r := sync_users f ms st in
  let T := (Db.user (Db.tables st), Db.next_user_id st) in
  (exists updated,
     fst r = Returned (true, snd (upsert_all ms T) - Db.next_user_id st, updated)
     ∧ snd r = with_users st (upsert_all ms T))
  ∨ ((fst r = Returned (false, 0, 0) ∨ fst r = Raised)
     ∧ exists ms1 ms2,
         ms = ms1 ++ ms2
         ∧ snd r = with_users st (Db.user (Db.tables st), snd (upsert_all ms1 T))).
Proof.
  intros r T.
  assert (Hr : r = sync_users f ms st) by reflexivity. clearbody r.
  unfold sync_users, Db.create_connection in Hr.
  destruct (Db.connect_ok f).
  2: { right. subst r. split; [by left|]. exists [], ms. split; [done|].
       simpl. by rewrite with_users_same. }
  unfold Db.cursor at 1, Db.call at 1 in Hr. cbn in Hr.
  destruct (Db.raises f 0%nat).
  { right. subst r. split; [by right|]. exists [], ms. split; [done|].
    subst T. by destruct st as [[] ? ?]. }
  unfold Db.bind at 1 in Hr.
  match type of Hr with context [sync_members ms ?counts f ?c0] =>
    pose proof (sync_members_spec ms counts f c0) as H;
    destruct (sync_members ms counts f c0) as [[counts'|] c']
  end.
  - destruct H as (Hu & Hc & Hcom & Hs & Hl & Hsc).
    unfold users_of in Hu. cbn in Hu, Hc, Hcom, Hs, Hl, Hsc. fold T in Hu.
    unfold Db.bind, Db.commit, Db.call, Db.ret in Hr.
    destruct (Db.raises f (Db.calls c')); subst r; cbn.
    + right. split; [by left|]. exists ms, []. split; [by rewrite app_nil_r|].
      unfold Db.close, with_users. cbn. rewrite Hcom, Hsc, <- Hu.
      subst T. by destruct st as [[] ? ?].
    + left. exists (snd counts'). split.
      * do 3 f_equal. rewrite <- Hu. cbn. lia.
      * unfold Db.close, with_users. cbn. rewrite Hsc, <- Hu. cbn.
        destruct (Db.working c'). cbn in *. by rewrite Hs, Hl.
  - destruct H as (Hcom & Hsc & ms1 & ms2 & -> & Hctr).
    unfold users_of in Hctr. cbn in Hcom, Hsc, Hctr. fold T in Hctr.
    subst r. right. split; [by left|]. exists ms1, ms2. split; [done|].
    unfold Db.close, with_users. cbn. rewrite Hcom, Hsc, Hctr.
    subst T. by destruct st as [[] ? ?].
Qed.

(** C10.  When a first [sync_users] has returned success, a second one on
    the same members leaves the store exactly as the first left it, every
    row of the [user] table with its name, user type, skill group and active
    flag, and the id counter too; it reports no user added, whether it
    succeeds or fails on the way; and with a working database it returns
    success with zero users added. *)
Theorem sync_users_twice f1 f2 ms st added updated st1 :
  sync_users f1 ms st = (Returned (true, added, updated), st1) ->
  snd (sync_users f2 ms st1) = st1
  ∧ match fst (sync_users f2 ms st1) with
    | Returned (_, users_added, _) => users_added = 0
    | Raised => True
    end
  ∧ exists users_updated,
      sync_users Db.no_faults ms st1 = (Returned (true, 0, users_updated), st1).
Proof.
  intros Hfirst.
  set (T := (Db.user (Db.tables st), Db.next_user_id st)).
  assert (Hst1 : st1 = with_users st (upsert_all ms T)).
  { destruct (sync_users_outcomes f1 ms st) as [(u & Ho & Hs) | ([Ho|Ho] & _)];
      rewrite Hfirst in *; simpl in *; [done|discriminate Ho|discriminate Ho]. }
  set (T1 := (Db.user (Db.tables st1), Db.next_user_id st1)).
  assert (HT1 : T1 = upsert_all ms T) by (unfold T1; rewrite Hst1; by destruct (upsert_all ms T)).
  assert (Hknown : forall ms1 ms2, ms = ms1 ++ ms2 ->
            upsert_all ms1 T1 = (List.map (refresh_all ms1) (fst T1), snd T1)).
  { intros ms1 ms2 Heq. destruct T1 as [rows ctr] eqn:E. apply upsert_all_of_known.
    apply (all_known_prefix ms1 ms2). rewrite <- Heq.
    pose proof (upsert_all_known ms T) as H. by rewrite <- HT1 in H. }
  assert (Hsame : upsert_all ms T1 = T1)
    by (rewrite HT1; apply upsert_all_twice).
  assert (Hall : forall f, snd (sync_users f ms st1) = st1
            ∧ match fst (sync_users f ms st1) with
              | Returned (_, users_added, _) => users_added = 0
              | Raised => True
              end).
  { intros f.
    destruct (sync_users_outcomes f ms st1)
      as [(u & -> & ->) | (Ho & ms1 & ms2 & Heq & ->)]; fold T1.
    - rewrite Hsame. split; [apply with_users_same|]. unfold T1. simpl. lia.
    - rewrite (Hknown _ _ Heq). simpl. split; [apply with_users_same|].
      by destruct Ho as [-> | ->]. }
  split; [apply Hall|]. split; [apply Hall|].
  destruct (sync_users_outcomes Db.no_faults ms st1)
    as [(u & Ho & Hs) | ([Ho|Ho] & _)].
  - fold T1 in Ho, Hs. rewrite Hsame in Ho, Hs.
    exists u. rewrite (surjective_pairing (sync_users Db.no_faults ms st1)).
    rewrite Ho, Hs, with_users_same. do 4 f_equal. unfold T1. simpl. lia.
  - exfalso. revert Ho. unfold sync_users. simpl.
    destruct (sync_members_no_faults ms (0, 0)
                (Db.tick_call
                   {| Db.committed := Db.tables st1; Db.working := Db.tables st1;
                      Db.session_counter := Db.next_session_id st1;
                      Db.user_counter := Db.next_user_id st1; Db.calls := 0 |}))
      as (counts' & c' & Hok).
    unfold Db.bind at 1. simpl in Hok. rewrite Hok. by cbn.
  - exfalso. revert Ho. unfold sync_users. simpl.
    destruct (sync_members_no_faults ms (0, 0)
                (Db.tick_call
                   {| Db.committed := Db.tables st1; Db.working := Db.tables st1;
                      Db.session_counter := Db.next_session_id st1;
                      Db.user_counter := Db.next_user_id st1; Db.calls := 0 |}))
      as (counts' & c' & Hok).
    unfold Db.bind at 1. simpl in Hok. rewrite Hok. by cbn.
Qed.

End Sync.

Section SyncExamples.
Import DatabaseManager Roster.

Example first_sync_adds_two :
  fst (sync_users Db.no_faults roster Scenario.empty_store) = Returned (true, 2, 0)
  ∧ List.map (fun r => (Db.u_discord_id r, Db.u_user_type r, Db.u_skill_group r))
             (Db.user (Db.tables synced))
    = [(Py.lit "201", Config.coach, None);
       (Py.lit "401", Config.student, Some Config.Advanced)].
Proof. vm_compute. split; reflexivity. Qed.

(** C10, witness: the roster is synchronised twice, the second time over a
    connection whose third call raises. *)
Lemma sync_users_twice_witness :
  sync_users Db.no_faults roster Scenario.empty_store = (Returned (true, 2, 0), synced)
  ∧ snd (sync_users third_call_raises roster synced) = synced
  ∧ match fst (sync_users third_call_raises roster synced) with
    | Returned (_, users_added, _) => users_added = 0
    | Raised => True
    end
  ∧ exists users_updated,
      sync_users Db.no_faults roster synced = (Returned (true, 0, users_updated), synced).
Proof.
  split; [vm_compute; reflexivity|].
  apply (sync_users_twice Db.no_faults third_call_raises roster
           Scenario.empty_store 2 0 synced).
  vm_compute. reflexivity.
Defined.

End SyncExamples.

(** ** Lines of text *)

Section Lines.

Lemma split_not_nil sep s : Py.split sep s <> [].
Proof.
  destruct s as [|c s]; simpl; [done|].
  destruct (c =? sep)%N; [done|]. by destruct (Py.split sep s).
Qed.

Lemma split_without sep p : sep ∉ p -> Py.split sep p = [p].
Proof.
  induction p as [|c p IH]; intros Hp; simpl; [done|].
  apply not_elem_of_cons in Hp as [Hc Hp].
  destruct (N.eqb_spec c sep) as [->|_]; [done|].
  by rewrite IH.
Qed.

Lemma split_app sep p rest :
  sep ∉ p -> Py.split sep (p ++ sep :: rest) = p :: Py.split sep rest.
Proof.
  induction p as [|c p IH]; intros Hp; simpl.
  - by rewrite N.eqb_refl.
  - apply not_elem_of_cons in Hp as [Hc Hp].
    destruct (N.eqb_spec c sep) as [->|_]; [done|].
    by rewrite IH.
Qed.

(** Splitting what was joined gives the parts back, when no part holds
    the separator. *)
Lemma split_join sep parts :
  parts <> [] ->
  Forall (fun p => sep ∉ p) parts ->
  Py.split sep (Py.join [sep] parts) = parts.
Proof.
  induction parts as [|p parts IH]; intros Hne Hall; [done|].
  apply Forall_cons in Hall as [Hp Hall].
  destruct parts as [|q parts]; simpl.
  - by apply split_without.
  - rewrite split_app by done. f_equal. by apply IH.
Qed.

(** Joining what was split gives the string back. *)
Lemma join_split sep s : Py.join [sep] (Py.split sep s) = s.
Proof.
  induction s as [|c s IH]; simpl; [done|].
  destruct (N.eqb_spec c sep) as [->|Hne].
  - pose proof (split_not_nil sep s) as Hnil.
    destruct (Py.split sep s) as [|w ws] eqn:E; [done|].
    simpl. simpl in IH. by rewrite IH.
  - destruct (Py.split sep s) as [|w ws] eqn:E.
    + by apply split_not_nil in E.
    + rewrite <- IH. by destruct ws.
Qed.

Lemma split_parts sep s : Forall (fun p => sep ∉ p) (Py.split sep s).
Proof.
  induction s as [|c s IH]; simpl.
  - constructor; [|done]. by intros ?%elem_of_nil.
  - destruct (N.eqb_spec c sep) as [->|Hne].
    + constructor; [|done]. by intros ?%elem_of_nil.
    + destruct (Py.split sep s) as [|w ws] eqn:E; [by apply split_not_nil in E|].
      apply Forall_cons in IH as [Hw Hws]. constructor; [|done].
      intros [?|?]%elem_of_cons; [congruence|done].
Qed.

End Lines.

(** ** The excuse menu *)

Section Menu.
Import ExcuseView.

Lemma excused_mark_one_line : Py.newline ∉ excused_mark.
Proof. apply (bool_decide_unpack _). vm_compute. exact I. Qed.

(** X1.  The value [student_selected] writes into the absent-students
    field has the lines of the original value, in order, each with the mark
    appended exactly when the line contains the display name selected,
    whoever the line belongs to. *)
Theorem mark_lines_by_line name value :
  Py.split Py.newline (mark_lines name value)
  = List.map (marked_line name) (Py.split Py.newline value).
Proof.
  unfold mark_lines. apply split_join.
  - pose proof (split_not_nil Py.newline value) as H.
    by destruct (Py.split Py.newline value).
  - apply Forall_forall. intros l (line & <- & Hin)%list_elem_of_In%in_map_iff.
    pose proof (split_parts Py.newline value) as Hparts.
    rewrite Forall_forall in Hparts.
    apply list_elem_of_In, Hparts in Hin.
    unfold marked_line. destruct (Py.contains name line); [|done].
    intros [?|?]%elem_of_app; [done|]. by apply excused_mark_one_line.
Qed.

End Menu.

Section Rendering.
Import ExcuseView.

Lemma fields_index_first pre f rest :
  exists i, fields_index (pre ++ f :: rest) f = Some i ∧ (i <= length pre)%nat.
Proof.
  induction pre as [|g pre (i & Hi & Hle)]; simpl.
  - exists 0%nat. by rewrite decide_True.
  - destruct (decide (g = f)); [exists 0%nat; split; [done|lia]|].
    rewrite Hi. exists (S i). split; [done|lia].
Qed.

Lemma fields_index_after pre f rest :
  Forall (fun g => g <> f) pre ->
  fields_index (pre ++ f :: rest) f = Some (length pre).
Proof.
  induction pre as [|g pre IH]; intros Hpre; simpl.
  - by rewrite decide_True.
  - apply Forall_cons in Hpre as [Hg Hpre].
    rewrite decide_False by done. by rewrite IH.
Qed.

(** The loop over the fields never raises: the field it looks up is still
    in the copy, at or before its own place. *)
Lemma mark_fields_total name snapshot e pre :
  fields e = pre ++ snapshot ->
  exists fs, mark_fields name snapshot e = (with_fields e fs, true)
             ∧ length fs = length (fields e).
Proof.
  revert e pre. induction snapshot as [|f rest IH]; intros e pre He;
    cbn [mark_fields].
  - exists (fields e). split; [by destruct e|done].
  - destruct (Py.startswith (Py.lit "Absent Students") (field_name f)).
    + rewrite He. destruct (fields_index_first pre f rest) as (i & -> & Hle).
      unfold set_field_at. rewrite He, decide_True
        by (rewrite length_app; simpl; lia).
      set (f' := with_value f (mark_lines name (field_value f))).
      destruct (IH (with_fields e (<[i:=f']> (pre ++ f :: rest)))
                   (<[i:=f']> (pre ++ [f]))) as (fs & Hfs & Hlen).
      { simpl. rewrite (cons_middle f pre rest), app_assoc.
        rewrite insert_app_l; [done|]. rewrite length_app. simpl. lia. }
      exists fs. split; [exact Hfs|].
      rewrite Hlen. simpl. by rewrite length_insert.
    + apply (IH e (pre ++ [f])). by rewrite <- app_assoc.
Qed.

Lemma mark_fields_skip name snapshot e :
  Forall (fun f => is_absent_field f = false) snapshot ->
  mark_fields name snapshot e = (e, true).
Proof.
  induction snapshot as [|f rest IH]; intros H; cbn [mark_fields]; [done|].
  apply Forall_cons in H as [Hf Hrest]. unfold is_absent_field in Hf.
  rewrite Hf. by apply IH.
Qed.

Lemma mark_fields_skip_app name pre rest e :
  Forall (fun f => is_absent_field f = false) pre ->
  mark_fields name (pre ++ rest) e = mark_fields name rest e.
Proof.
  induction pre as [|f pre IH]; intros H; cbn [mark_fields app]; [done|].
  apply Forall_cons in H as [Hf Hpre]. unfold is_absent_field in Hf.
  rewrite Hf. by apply IH.
Qed.

(** The fields the loop of [student_selected] leaves when the embed has
    one absent-students field. *)
Lemma mark_fields_one name e fs pre f post :
  mark_fields name (fields e) e = (with_fields e fs, true) ->
  fields e = pre ++ f :: post ->
  is_absent_field f = true ->
  Forall (fun g => is_absent_field g = false) (pre ++ post) ->
  fs = pre ++ with_value f (mark_lines name (field_value f)) :: post.
Proof.
  intros Hfs Hfields Hf Hothers.
  apply Forall_app in Hothers as [Hpre Hpost].
  rewrite Hfields in Hfs.
  rewrite mark_fields_skip_app in Hfs by done. cbn [mark_fields] in Hfs.
  unfold is_absent_field in Hf. rewrite Hf, Hfields in Hfs.
  rewrite fields_index_after in Hfs.
  2: { eapply Forall_impl; [exact Hpre|]. intros g Hg ->.
       unfold is_absent_field in Hg. congruence. }
  unfold set_field_at in Hfs. rewrite Hfields in Hfs.
  rewrite decide_True in Hfs by (rewrite length_app; simpl; lia).
  rewrite mark_fields_skip in Hfs by done.
  injection Hfs as Hfs. rewrite <- Hfs.
  rewrite insert_app_r_alt by lia. by rewrite Nat.sub_diag.
Qed.

(** A selection of an absent member, whatever Discord makes of the call. *)
Lemma student_selected_view d v sid member :
  List.find (fun m => member_id m =? sid) (absent_members v) = Some member ->
  exists fs,
    mark_fields (display_name member) (fields (original_embed v)) (original_embed v)
    = (with_fields (original_embed v) fs, true)
    ∧ length fs = length (fields (original_embed v))
    ∧ let e := with_fields (original_embed v) fs in
      let v3 := remove_item
                  (with_original_embed
                     (with_excused v ({[ member_id member ]} ∪ excused_members v)) e) in
      view (student_selected d v sid) = v3
      ∧ student_selected d v sid
        = if edit_fails d (Some e) (children v3)
          then excepted d v3 None None excuse_error
          else replied d v3 (Some e) (Some (children v3))
                 (Py.lit "Marked " ++ display_name member ++ Py.lit " as excused.")
                 excuse_error.
Proof.
  intros Hfind.
  destruct (mark_fields_total (display_name member) (fields (original_embed v))
              (original_embed v) []) as (fs & Hfs & Hlen); [done|].
  exists fs. split; [done|]. split; [done|]. intros e v3.
  unfold student_selected. rewrite Hfind.
  cbn [with_excused original_embed]. rewrite Hfs. cbn [negb]. fold e. fold v3.
  split; [|done].
  destruct (edit_fails d (Some e) (children v3)); [done|apply replied_view].
Qed.

Lemma find_absent_member (ms : list Member) sid :
  sid ∈ ids ms ->
  exists member,
    List.find (fun m => member_id m =? sid) ms = Some member
    ∧ member_id member = sid.
Proof.
  intros (m & Hid & Hin)%list_elem_of_In%in_map_iff.
  destruct (List.find (fun m => member_id m =? sid) ms) as [member|] eqn:Hfind.
  - exists member. split; [done|].
    by apply find_some in Hfind as [_ ?%Z.eqb_eq].
  - pose proof (find_none _ _ Hfind m Hin) as Hn. simpl in Hn.
    rewrite Hid in Hn. by rewrite Z.eqb_refl in Hn.
Qed.

(** A selection of an absent member excuses the member, whatever Discord
    makes of the call. *)
Lemma student_selected_excused d v sid :
  sid ∈ ids (absent_members v) ->
  excused_members (view (student_selected d v sid)) = {[ sid ]} ∪ excused_members v.
Proof.
  intros (member & Hfind & Hid)%find_absent_member.
  destruct (student_selected_view d v sid member Hfind) as (fs & _ & _ & Hview & _).
  cbv zeta in Hview. rewrite Hview.
  match goal with |- context [remove_item ?v0] =>
    destruct (remove_item_snapshot v0) as (_ & -> & _)
  end.
  simpl. by rewrite Hid.
Qed.

(** X2.  What [student_selected] does.  For an id that no absent member
    has, it changes nothing and sends the error text.  For the id of an
    absent member, it adds the id to [excused_members], writes the marked
    lines into the absent-students field of the original embed, which has
    the fields it had, and takes one menu off the view, whatever Discord
    makes of the call; then it edits the message to this embed and this
    view and answers that the member is marked, or, when Discord refuses
    the edit or the answer, sends the error text, the member excused and
    the menu gone all the same.  In every case [raised] tells whether the
    last text it sent was refused. *)
Theorem student_selected_outcome d v sid :
  let r := student_selected d v sid in
  raised r = reply_fails d (message r)
  ∧ match List.find (fun m => member_id m =? sid) (absent_members v) with
    | None =>
        (sid ∉ ids (absent_members v))
        ∧ view r = v
        ∧ edited_embed r = None ∧ displayed r = None
        ∧ message r = excuse_error
    | Some member =>
        (sid ∈ ids (absent_members v))
        ∧ member_id member = sid
        ∧ excused_members (view r) = {[ sid ]} ∪ excused_members v
        ∧ children (view r) = remove_select (children v)
        ∧ (exists fs,
             original_embed (view r) = with_fields (original_embed v) fs
             ∧ length fs = length (fields (original_embed v))
             ∧ forall pre f post,
                 fields (original_embed v) = pre ++ f :: post ->
                 is_absent_field f = true ->
                 Forall (fun g => is_absent_field g = false) (pre ++ post) ->
                 fs = pre ++ with_value f (mark_lines (display_name member)
                                             (field_value f)) :: post)
        ∧ let marked := Py.lit "Marked " ++ display_name member
                        ++ Py.lit " as excused." in
          if edit_fails d (Some (original_embed (view r))) (children (view r))
          then edited_embed r = None ∧ displayed r = None
               ∧ message r = excuse_error
          else edited_embed r = Some (original_embed (view r))
               ∧ displayed r = Some (children (view r))
               ∧ message r = if reply_fails d marked then excuse_error else marked
    end.
Proof.
  intros r.
  destruct (List.find _ (absent_members v)) as [member|] eqn:Hfind.
  - destruct (student_selected_view d v sid member Hfind)
      as (fs & Hfs & Hlen & Hview & Hr).
    cbv zeta in Hview, Hr.
    set (e := with_fields (original_embed v) fs) in *.
    set (v3 := remove_item _) in *.
    set (marked := Py.lit "Marked " ++ display_name member ++ Py.lit " as excused.")
      in *.
    pose proof Hfind as Hfind'.
    apply find_some in Hfind' as [Hin Hid%Z.eqb_eq].
    destruct (remove_item_snapshot
                (with_original_embed
                   (with_excused v ({[ member_id member ]} ∪ excused_members v)) e))
      as (_ & He & Ho & _ & Hc).
    fold v3 in He, Ho, Hc.
    cbn [with_original_embed with_excused excused_members original_embed children]
      in He, Ho, Hc.
    rewrite Hid in He.
    fold r in Hview. rewrite Hview, Ho, He, Hc.
    assert (Hsent : raised r = reply_fails d (message r)
                    ∧ if edit_fails d (Some e) (children v3)
                      then edited_embed r = None ∧ displayed r = None
                           ∧ message r = excuse_error
                      else edited_embed r = Some e
                           ∧ displayed r = Some (children v3)
                           ∧ message r = if reply_fails d marked
                                         then excuse_error else marked).
    { unfold r. rewrite Hr.
      destruct (edit_fails d (Some e) (children v3)); [done|].
      unfold replied. destruct (reply_fails d marked) eqn:E; simpl; [done|].
      by rewrite E. }
    destruct Hsent as [Hraised Hsent]. rewrite Hc in Hsent.
    split; [done|].
    split; [rewrite <- Hid; apply list_elem_of_In, in_map, Hin|].
    split; [done|]. split; [done|]. split; [done|]. split; [|done].
    exists fs. split; [done|]. split; [done|].
    intros pre f post. by apply mark_fields_one.
  - unfold r, student_selected. rewrite Hfind. simpl. split; [done|].
    split; [|done].
    intros (m & Hid & Hin)%list_elem_of_In%in_map_iff.
    pose proof (find_none _ _ Hfind m Hin) as Hn. simpl in Hn.
    rewrite Hid in Hn. by rewrite Z.eqb_refl in Hn.
Qed.

(** The view with [n] menus beside the two buttons, as presses of the
    excuse button build it. *)
Lemma show_select_menu_step d absent v (n : nat) :
  (n <= 4)%nat ->
  select_student v = Some (student_select absent) ->
  children v = [excuse_button; log_button] ++ replicate n (student_select absent) ->
  weights v = row_weights n ->
  let r := show_select_menu d v in
  select_student (view r) = Some (student_select absent)
  ∧ absent_members (view r) = absent_members v
  ∧ children (view r)
    = [excuse_button; log_button] ++ replicate (Nat.min (S n) 4) (student_select absent)
  ∧ weights (view r) = row_weights (Nat.min (S n) 4)
  ∧ (n = 4%nat -> view r = v ∧ message r = menu_error ∧ displayed r = None).
Proof.
  intros Hn Hs Hc Hw r. unfold r, show_select_menu, add_item.
  rewrite Hs.
  assert (Hlen : (25 <=? length (children v))%nat = false).
  { rewrite Hc, length_app, length_replicate. simpl length.
    apply Nat.leb_gt. lia. }
  rewrite Hlen, Hw.
  change (width (student_select absent)) with 5%nat.
  change (is_select (student_select absent)) with true.
  assert (Hcases : n = 0%nat ∨ n = 1%nat ∨ n = 2%nat ∨ n = 3%nat ∨ n = 4%nat)
    by lia.
  destruct Hcases as [-> | [-> | [-> | [-> | ->]]]];
    match goal with |- context [find_open_space ?ws ?w] =>
      let found := eval vm_compute in (find_open_space ws w) in
      change (find_open_space ws w) with found
    end; cbv iota beta.
  5: { cbn [excepted view message displayed]. by split_and!. }
  all: destruct (edit_fails d None _);
    cbn [excepted view select_student absent_members children weights];
    rewrite Hc; split_and!; try done; lia.
Qed.

Lemma pressed_snoc presses d v :
  pressed (presses ++ [d]) v = view (show_select_menu d (pressed presses v)).
Proof. unfold pressed. by rewrite fold_left_app. Qed.

Lemma pressed_view presses absent embed name group season_ :
  absent <> [] ->
  let v := pressed presses (init absent embed name group season_) in
  let n := Nat.min (length presses) 4 in
  select_student v = Some (student_select absent)
  ∧ absent_members v = absent
  ∧ children v = [excuse_button; log_button] ++ replicate n (student_select absent)
  ∧ weights v = row_weights n.
Proof.
  intros Hne. induction presses as [|d presses IH] using rev_ind.
  - simpl. by destruct absent.
  - cbv zeta in *. rewrite pressed_snoc, length_app. simpl length.
    destruct IH as (Hs & Ha & Hc & Hw).
    destruct (show_select_menu_step d absent
                (pressed presses (init absent embed name group season_))
                (Nat.min (length presses) 4))
      as (Hs' & Ha' & Hc' & Hw' & _); [lia|done|done|done|].
    rewrite Hs', Ha', Hc', Hw', Ha.
    replace (Nat.min (S (Nat.min (length presses) 4)) 4)
      with (Nat.min (length presses + 1) 4) by lia.
    done.
Qed.

Lemma remove_select_menus n (sel : Item) :
  is_select sel = true ->
  remove_select ([excuse_button; log_button] ++ replicate n sel)
  = [excuse_button; log_button] ++ replicate (n - 1) sel.
Proof.
  intros Hsel. destruct n as [|n]; simpl; [done|].
  by rewrite Hsel, Nat.sub_0_r.
Qed.

(** X3.  Presses of the excuse button put at most four menus on the view.
    The buttons take the first row and a menu a whole row: starting from
    the view [take] posts, each of the first four presses adds the menu
    once more, whatever Discord makes of the press, and every press after
    them finds no room, leaves the view as it is and sends the error text.
    A selection then takes one menu off. *)
Theorem at_most_four_menus presses absent embed name group season_ :
  absent <> [] ->
  let v := pressed presses (init absent embed name group season_) in
  children v
  = [excuse_button; log_button]
    ++ replicate (Nat.min (length presses) 4) (student_select absent)
  ∧ (forall d,
       (4 <= length presses)%nat ->
       view (show_select_menu d v) = v
       ∧ message (show_select_menu d v) = menu_error
       ∧ displayed (show_select_menu d v) = None)
  ∧ forall d sid,
      sid ∈ ids absent ->
      children (view (student_selected d v sid))
      = [excuse_button; log_button]
        ++ replicate (Nat.min (length presses) 4 - 1) (student_select absent).
Proof.
  intros Hne v.
  destruct (pressed_view presses absent embed name group season_ Hne)
    as (Hs & Ha & Hc & Hw).
  fold v in Hs, Ha, Hc, Hw. split; [done|]. split.
  - intros d Hlen.
    destruct (show_select_menu_step d absent v (Nat.min (length presses) 4))
      as (_ & _ & _ & _ & Hfull); [lia|done|done|done|].
    apply Hfull. lia.
  - intros d sid (m & Hid & Hin)%list_elem_of_In%in_map_iff.
    destruct (List.find (fun m => member_id m =? sid) (absent_members v))
      as [member|] eqn:Hfind.
    + destruct (student_selected_view d v sid member Hfind)
        as (fs & _ & _ & Hview & _).
      cbv zeta in Hview. rewrite Hview.
      match goal with |- context [remove_item ?v0] =>
        destruct (remove_item_snapshot v0) as (_ & _ & _ & _ & ->)
      end.
      cbn [with_original_embed with_excused children]. rewrite Hc.
      by apply remove_select_menus.
    + rewrite Ha in Hfind.
      pose proof (find_none _ _ Hfind m Hin) as Hn. simpl in Hn.
      rewrite Hid in Hn. by rewrite Z.eqb_refl in Hn.
Qed.

End Rendering.

Section MenuExamples.
Import ExcuseView Scenario.

(** [__init__] leaves the view as its calls of [add_item] build it. *)
Example init_adds_the_buttons :
  add_item (with_children
              {| timeout := 300; absent_members := [alice; bob];
                 original_embed := original_embed taken_view;
                 excused_members := ∅; session_name := Py.lit "Aim";
                 skill_group := Py.lit "Advanced"; season := 3;
                 select_student := Some (student_select [alice; bob]);
                 children := []; weights := [0; 0; 0; 0; 0]%nat;
                 rendered_row := None |} [])
           excuse_button
  ≫= (fun v => add_item v log_button)
  = Some taken_view.
Proof. vm_compute. reflexivity. Qed.

(** X3, witness: Carol presses the excuse button six times. *)
Lemma at_most_four_menus_witness :
  let presses := replicate 6 Discord.works in
  let v := pressed presses (init [alice; bob] (original_embed taken_view)
                              (Py.lit "Aim") (Py.lit "Advanced") 3) in
  children v
  = [excuse_button; log_button]
    ++ replicate (Nat.min (length presses) 4) (student_select [alice; bob])
  ∧ (forall d,
       (4 <= length presses)%nat ->
       view (show_select_menu d v) = v
       ∧ message (show_select_menu d v) = menu_error
       ∧ displayed (show_select_menu d v) = None)
  ∧ forall d sid,
      sid ∈ ids [alice; bob] ->
      children (view (student_selected d v sid))
      = [excuse_button; log_button]
        ++ replicate (Nat.min (length presses) 4 - 1) (student_select [alice; bob]).
Proof.
  apply (at_most_four_menus (replicate 6 Discord.works) [alice; bob]
           (original_embed taken_view) (Py.lit "Aim") (Py.lit "Advanced") 3).
  discriminate.
Defined.

(** The fifth press, on the small guild. *)
Example fifth_press_is_refused :
  let v := pressed (replicate 4 Discord.works) taken_view in
  length (children v) = 6%nat
  ∧ message (show_select_menu Discord.works v) = menu_error
  ∧ children (view (show_select_menu Discord.works v)) = children v.
Proof. vm_compute. repeat split. Qed.

(** Discord refuses the edit of a selection: Alice is excused and the menu
    is gone from the view all the same, and the answer is the error text. *)
Example refused_edit_of_a_selection :
  let v := pressed [Discord.works] taken_view in
  let r := student_selected refuses_edits v 101 in
  message r = excuse_error
  ∧ edited_embed r = None
  ∧ elements (excused_members (view r)) = [101]
  ∧ children (view r) = [excuse_button; log_button]
  ∧ absent_field_value (original_embed (view r))
    = Some (Py.lit "1. Alice" ++ excused_mark ++ [Py.newline] ++ Py.lit "2. Bob").
Proof. vm_compute. repeat split. Qed.

End MenuExamples.

(** ** More on commits *)

Section CommitMore.
Import DatabaseManager ExcuseView.

(** X4.  A successful commit changes one thing in the view, the log button:
    every other item keeps its place and its state, the excuse button
    enabled as before, and the snapshot is as it was; a selection made
    after the commit still adds the member to [excused_members]. *)
Theorem commit_disables_only_the_log_button d f t v i st :
  let l := log_attendance d f t v i st in
  message (fst l) = log_success ->
  length (children (view (fst l))) = length (children v)
  ∧ (forall (k : nat) it,
       children v !! k = Some it -> is_log_button it = false ->
       children (view (fst l)) !! k = Some it)
  ∧ absent_members (view (fst l)) = absent_members v
  ∧ excused_members (view (fst l)) = excused_members v
  ∧ forall d' sid,
      sid ∈ ids (absent_members v) ->
      excused_members (view (student_selected d' (view (fst l)) sid))
      = {[ sid ]} ∪ excused_members v.
Proof.
  intros l Hmsg.
  destruct (log_attendance d f t v i st) as [r st'] eqn:Hlog. subst l. simpl in *.
  destruct (log_attendance_success _ _ _ _ _ _ _ _ Hlog Hmsg)
    as (cid & ch & _ & _ & Hview & _).
  rewrite Hview. simpl. split_and!; try done.
  - apply disable_log_button_length.
  - intros k it. apply disable_log_button_others.
  - intros d' sid Hsid.
    by rewrite (student_selected_excused d'
                  (with_children v (disable_log_button (children v))) sid).
Qed.

(** X5.  The rows of a commit that returned [True]: one session row, with
    the id the counter held, and after the ledger rows already there one
    row per member of the two lists, each carrying that session id and the
    time of the session row; a row is excused only if it is an absent row
    of a member in [excused_members]; the [user] table is untouched. *)
Theorem committed_rows_are_consistent f current_time user_id name group season_
    present absent excused st :
  let r := create_attendance_records f current_time user_id name group season_
             present absent excused st in
  fst r = Returned true ->
  Db.session (Db.tables (snd r))
  = Db.session (Db.tables st)
    ++ [session_row (Db.next_session_id st) current_time user_id name group season_]
  ∧ Db.user (Db.tables (snd r)) = Db.user (Db.tables st)
  ∧ exists rows,
      Db.ledger (Db.tables (snd r)) = Db.ledger (Db.tables st) ++ rows
      ∧ length rows = (length present + length absent)%nat
      ∧ Forall (fun x =>
                  Db.l_session_id x = Db.next_session_id st
                  ∧ Db.l_event_date x = current_time
                  ∧ (Db.l_is_excused x = true ->
                     Db.l_is_present x = false
                     ∧ exists m, m ∈ absent ∧ member_id m ∈ excused
                                 ∧ Db.l_student_id x = Py.str_of_Z (member_id m)))
               rows.
Proof.
  intros r Hr.
  destruct (create_attendance_records_spec f current_time user_id name group
              season_ present absent excused st) as [(_ & Ht & _) | ([H|H] & _)];
    fold r in Ht || fold r in H; try congruence.
  rewrite Ht. simpl. split; [done|]. split; [done|].
  eexists. split; [reflexivity|]. unfold ledger_rows. split.
  - by rewrite length_app, !length_map.
  - apply Forall_app. split; apply Forall_forall;
      intros x (m & <- & Hm)%list_elem_of_In%in_map_iff; simpl.
    + split_and!; try done.
    + split_and!; try done. intros He%bool_decide_eq_true.
      split; [done|]. exists m. split; [by apply list_elem_of_In|done].
Qed.

(** The calls of a ledger loop: it runs through exactly when none of its
    calls raises. *)
Lemma for_each_ledger_calls (g : Member -> Db.LedgerRow) xs f c :
  match Db.for_each xs (fun m => Db.insert_ledger (g m)) f c with
  | (Db.Ok _, c') =>
      Db.calls c' = (Db.calls c + length xs)%nat
      ∧ forall k, (k < length xs)%nat -> Db.raises f (Db.calls c + k) = false
  | (Db.MysqlError, _) =>
      exists k, (k < length xs)%nat ∧ Db.raises f (Db.calls c + k) = true
  end.
Proof.
  revert c. induction xs as [|x xs IH]; intros c; cbn [Db.for_each].
  - simpl. split; [lia|]. intros k Hk. lia.
  - unfold Db.bind at 1, Db.insert_ledger at 1, Db.call at 1.
    destruct (Db.raises f (Db.calls c)) eqn:E; cbn [fst snd].
    + exists 0%nat. simpl. split; [lia|]. by rewrite Nat.add_0_r.
    + match goal with |- context [Db.for_each xs _ f ?c1] => specialize (IH c1) end.
      destruct (Db.for_each xs _ f _) as [[[]|] c']; cbn in IH |- *.
      * destruct IH as [Hc Hk]. split; [lia|].
        intros [|k] Hlt; [by rewrite Nat.add_0_r|].
        replace (Db.calls c + S k)%nat with (S (Db.calls c + k)) by lia.
        apply Hk. lia.
      * destruct IH as (k & Hk & Hr). exists (S k). split; [lia|].
        by replace (Db.calls c + S k)%nat with (S (Db.calls c + k)) by lia.
Qed.

Lemma attendance_statements_calls current_time user_id name group season_
    present absent excused f c :
  match attendance_statements current_time user_id name group season_
          present absent excused f c with
  | (Db.Ok _, _) =>
      forall k, (k < 2 + length present + length absent)%nat ->
                Db.raises f (Db.calls c + k) = false
  | (Db.MysqlError, _) =>
      exists k, (k < 2 + length present + length absent)%nat
                ∧ Db.raises f (Db.calls c + k) = true
  end.
Proof.
  unfold attendance_statements.
  unfold Db.bind at 1, Db.insert_session at 1, Db.call at 1.
  destruct (Db.raises f (Db.calls c)) eqn:E0; cbn [fst snd].
  { exists 0%nat. split; [lia|]. by rewrite Nat.add_0_r. }
  unfold Db.bind at 1.
  match goal with |- context [Db.for_each present ?g f ?c1] =>
    pose proof (for_each_ledger_calls
                  (present_row (Db.session_counter c) current_time) present f c1)
      as H1;
    destruct (Db.for_each present g f c1) as [[[]|] c1'] end; cbn in H1.
  2: { destruct H1 as (k & Hk & Hr). exists (S k). split; [lia|].
       by replace (Db.calls c + S k)%nat with (S (Db.calls c + k)) by lia. }
  destruct H1 as [Hc1 Hp]. unfold Db.bind at 1.
  pose proof (for_each_ledger_calls
                (absent_row (Db.session_counter c) current_time excused)
                absent f c1') as H2.
  destruct (Db.for_each absent _ f c1') as [[[]|] c2']; cbn in H2.
  2: { destruct H2 as (k & Hk & Hr). rewrite Hc1 in Hr.
       exists (S (length present + k)). split; [lia|].
       by replace (Db.calls c + S (length present + k))%nat
         with (S (Db.calls c + length present) + k)%nat by lia. }
  destruct H2 as [Hc2 Ha]. rewrite Hc1 in Hc2, Ha.
  unfold Db.bind, Db.commit, Db.call, Db.ret. rewrite Hc2.
  destruct (Db.raises f (S (Db.calls c + length present) + length absent))
    eqn:Ec; cbn [fst snd].
  - exists (S (length present + length absent)). split; [lia|].
    by replace (Db.calls c + S (length present + length absent))%nat
      with (S (Db.calls c + length present) + length absent)%nat by lia.
  - intros k Hk.
    destruct (decide (k = 0%nat)) as [->|]; [by rewrite Nat.add_0_r|].
    destruct (decide (k < 1 + length present)%nat).
    + replace (Db.calls c + k)%nat with (S (Db.calls c + (k - 1))) by lia.
      apply Hp. lia.
    + destruct (decide (k < 1 + length present + length absent)%nat).
      * replace (Db.calls c + k)%nat
          with (S (Db.calls c + length present) + (k - 1 - length present))%nat
          by lia.
        apply Ha. lia.
      * by replace (Db.calls c + k)%nat
          with (S (Db.calls c + length present) + length absent)%nat by lia.
Qed.

(** X6.  [create_attendance_records] returns [True] exactly when the
    connection opens and none of its calls raises: the cursor, the session
    insert, one insert per present member, one per absent member, and the
    commit; a single failing insert fails the whole commit. *)
Theorem commit_succeeds_iff_no_call_raises f current_time user_id name group
    season_ present absent excused st :
  fst (create_attendance_records f current_time user_id name group season_
         present absent excused st) = Returned true
  <-> Db.connect_ok f = true
      ∧ forall k, (k < calls_of_commit present absent)%nat -> Db.raises f k = false.
Proof.
  unfold create_attendance_records, Db.create_connection, calls_of_commit.
  destruct (Db.connect_ok f); [|split; [done|by intros [? _]]].
  set (c0 := {| Db.committed := Db.tables st; Db.working := Db.tables st;
                Db.session_counter := Db.next_session_id st;
                Db.user_counter := Db.next_user_id st; Db.calls := 0 |}).
  unfold Db.cursor at 1, Db.call at 1. change (Db.calls c0) with 0%nat.
  destruct (Db.raises f 0%nat) eqn:E0; cbn [fst snd].
  { destruct (Db.rollback f _). split; [done|].
    intros [_ H]. rewrite H in E0; [done|lia]. }
  pose proof (attendance_statements_calls current_time user_id name group
                season_ present absent excused f (Db.tick_call c0)) as H.
  pose proof (attendance_statements_spec current_time user_id name group
                season_ present absent excused f (Db.tick_call c0)) as Hb.
  destruct (attendance_statements _ _ _ _ _ _ _ _ f (Db.tick_call c0))
    as [[b|] c'].
  - destruct Hb as (-> & _). cbn [fst]. split; [|done].
    intros _. split; [done|]. intros k Hk.
    destruct k as [|k]; [done|]. apply (H k). lia.
  - destruct H as (k & Hk & Hr). change (Db.calls (Db.tick_call c0) + k)%nat
      with (S k) in Hr.
    destruct (Db.rollback f c') as [[[]|] ?]; cbn [fst]; (split; [done|]);
      intros [_ H]; rewrite H in Hr; done || lia.
Qed.

(** The session counter after [create_attendance_records]: where it was,
    or one further; a rolled-back session insert keeps the id it took. *)
Lemma create_attendance_records_counter f current_time user_id name group
    season_ present absent excused st :
  let r := create_attendance_records f current_time user_id name group season_
             present absent excused st in
  Db.next_session_id (snd r) = Db.next_session_id st
  ∨ Db.next_session_id (snd r) = Db.next_session_id st + 1.
Proof.
  intros r.
  assert (Hr : r = create_attendance_records f current_time user_id name group
                     season_ present absent excused st) by reflexivity.
  clearbody r.
  unfold create_attendance_records, Db.create_connection in Hr.
  destruct (Db.connect_ok f); [|subst r; by left].
  unfold Db.cursor at 1, Db.call at 1 in Hr. simpl in Hr.
  destruct (Db.raises f 0%nat).
  - left. unfold Db.rollback, Db.call in Hr. simpl in Hr.
    destruct (Db.raises f 1%nat); by subst r.
  - match type of Hr with context [attendance_statements _ _ _ _ _ _ _ _ f ?c0] =>
      pose proof (attendance_statements_spec current_time user_id name group
                    season_ present absent excused f c0) as H
    end.
    destruct (attendance_statements _ _ _ _ _ _ _ _ f _) as [[b|] c'].
    + destruct H as (_ & _ & _ & Hs & _). right. by subst r.
    + destruct H as (_ & Hs & _).
      unfold Db.rollback, Db.call in Hr.
      destruct (Db.raises f (Db.calls c')); subst r; exact Hs.
Qed.

(** X7.  Session ids stay unique.  In a store whose session ids are all
    below the counter, that is still so after [create_attendance_records],
    however it ends; and if the ids were pairwise distinct, they still are. *)
Theorem session_ids_stay_unique f current_time user_id name group season_
    present absent excused st :
  session_ids_below_counter st ->
  let r := create_attendance_records f current_time user_id name group season_
             present absent excused st in
  session_ids_below_counter (snd r)
  ∧ (NoDup (List.map Db.s_id (Db.session (Db.tables st))) ->
     NoDup (List.map Db.s_id (Db.session (Db.tables (snd r))))).
Proof.
  intros Hok r. unfold session_ids_below_counter in *.
  pose proof (create_attendance_records_counter f current_time user_id name
                group season_ present absent excused st) as Hctr.
  destruct (create_attendance_records_spec f current_time user_id name group
              season_ present absent excused st) as [(_ & Ht & Hn) | (_ & Ht)];
    fold r in Ht, Hctr; rewrite Ht.
  - fold r in Hn. rewrite Hn. simpl. split.
    + apply Forall_app. split.
      * eapply Forall_impl; [exact Hok|]. simpl. intros; lia.
      * constructor; [simpl; lia|done].
    + intros Hnd. rewrite List.map_app. simpl.
      apply NoDup_app. split; [done|]. split; [|apply NoDup_singleton].
      intros x Hx Hnew%list_elem_of_singleton. subst x.
      apply list_elem_of_In, in_map_iff in Hx as (s0 & Hid & Hin).
      rewrite Forall_forall in Hok. apply list_elem_of_In, Hok in Hin. lia.
  - split; [|done]. simpl in Hctr.
    eapply Forall_impl; [exact Hok|]. simpl. intros s0 Hs0.
    destruct Hctr as [-> | ->]; lia.
Qed.

Lemma failure_messages_distinct :
  log_failure <> log_error ∧ not_in_voice <> log_error.
Proof. split; intros H; vm_compute in H; discriminate H. Qed.

(** X8.  A commit that wrote nothing can be tried again.  When
    [log_attendance] answers with the failure message or that the member
    is not in a voice channel, the tables are as they were; and whenever
    it leaves the tables as they were, the view is as it was, log button
    included, the answer is one of the three failure messages, and a later
    press by a member in a voice channel, once the database works, writes
    exactly one session row and answers with the success message when
    Discord accepts the edit and the reply. *)
Theorem failed_commit_can_be_retried d f t v i st :
  let l := log_attendance d f t v i st in
  (message (fst l) = log_failure ∨ message (fst l) = not_in_voice ->
   Db.tables (snd l) = Db.tables st)
  ∧ (Db.tables (snd l) = Db.tables st ->
     view (fst l) = v
     ∧ (message (fst l) = log_failure ∨ message (fst l) = log_error
        ∨ message (fst l) = not_in_voice)
     ∧ forall d' t' i' cid ch,
         voice (user i') = Some cid ->
         get_channel (guild i') cid = Some ch ->
         let l' := log_attendance d' Db.no_faults t' (view (fst l)) i' (snd l) in
         length (Db.session (Db.tables (snd l')))
         = S (length (Db.session (Db.tables st)))
         ∧ (edit_fails d' None (children (view (fst l'))) = false ->
            reply_fails d' log_success = false ->
            message (fst l') = log_success)).
Proof.
  intros l.
  destruct messages_distinct as (Hf & He & Hv).
  destruct failure_messages_distinct as [Hfe Hve].
  destruct (log_attendance_cases d f t v i st)
    as [(cid & ch & _ & _ & Ht & _ & Hm) | (Hm & Ht & Hview)];
    fold l in Ht, Hm.
  - split.
    + intros [H|H]; destruct Hm as [(Hm & _) | (Hm & _)]; congruence.
    + intros Hsame. exfalso. rewrite Ht in Hsame.
      apply (f_equal (fun T => length (Db.session T))) in Hsame.
      simpl in Hsame. rewrite length_app in Hsame. simpl in Hsame. lia.
  - fold l in Hview. split; [done|]. intros _. split; [done|]. split; [done|].
    intros d' t' i' cid ch Hvoice Hch.
    pose proof (log_attendance_no_faults d' t' (view (fst l)) i' (snd l) cid ch
                  Hvoice Hch) as H.
    cbv zeta in H. destruct H as (Ht' & Hview' & _ & Hok & _).
    cbv zeta. rewrite Ht', Hview', Ht. cbn [with_children children]. split.
    + simpl. rewrite length_app. simpl. lia.
    + exact Hok.
Qed.

(** X24.  An acknowledgement that Discord refuses does not undo the
    commit.  When the database works and Discord refuses the edit of the
    message or the success reply, [log_attendance] answers with the error
    message although the session row and the ledger rows are committed;
    the log button is disabled in the view all the same, and with a refused
    edit the message goes on showing what it showed.  A press that follows
    this answer writes a second session row. *)
Theorem commit_outlives_a_refused_edit d t v i st cid ch :
  voice (user i) = Some cid ->
  get_channel (guild i) cid = Some ch ->
  edit_fails d None (disable_log_button (children v)) = true
  ∨ reply_fails d log_success = true ->
  let l := log_attendance d Db.no_faults t v i st in
  message (fst l) = log_error
  ∧ raised (fst l) = reply_fails d log_error
  ∧ length (Db.session (Db.tables (snd l))) = S (length (Db.session (Db.tables st)))
  ∧ Db.ledger (Db.tables (snd l)) =
      Db.ledger (Db.tables st)
      ++ ledger_rows (Db.next_session_id st) t (members ch)
           (absent_members v) (excused_members v)
  ∧ children (view (fst l)) = disable_log_button (children v)
  ∧ (edit_fails d None (disable_log_button (children v)) = true ->
     displayed (fst l) = None)
  ∧ forall d' t' i' cid' ch',
      voice (user i') = Some cid' ->
      get_channel (guild i') cid' = Some ch' ->
      length (Db.session
                (Db.tables (snd (log_attendance d' Db.no_faults t' (view (fst l))
                                   i' (snd l)))))
      = S (S (length (Db.session (Db.tables st)))).
Proof.
  intros Hvoice Hch Hrefused l.
  pose proof (log_attendance_no_faults d t v i st cid ch Hvoice Hch) as H.
  cbv zeta in H. fold l in H. destruct H as (Ht & Hview & _ & _ & Hl).
  rewrite Ht, Hview. cbn [with_children children].
  assert (Hreply : message (fst l) = log_error
                   ∧ raised (fst l) = reply_fails d log_error
                   ∧ (edit_fails d None (disable_log_button (children v)) = true ->
                      displayed (fst l) = None)).
  { rewrite Hl.
    destruct (edit_fails d None (disable_log_button (children v))) eqn:Hedit;
      [done|].
    destruct Hrefused as [?|Hr]; [done|]. unfold replied. rewrite Hr. done. }
  destruct Hreply as (Hm & Hr & Hd).
  split_and!; try done.
  - simpl. rewrite length_app. simpl. lia.
  - intros d' t' i' cid' ch' Hvoice' Hch'.
    pose proof (log_attendance_no_faults d' t'
                  (with_children v (disable_log_button (children v))) i' (snd l)
                  cid' ch' Hvoice' Hch') as H'.
    cbv zeta in H'. destruct H' as (Ht' & _).
    rewrite Ht', Ht. simpl. rewrite !length_app. simpl. lia.
Qed.

End CommitMore.

(** ** [take] *)

Section Take.
Import AttendanceCog.

Lemma tracked_members g choice members_with_role role_name :
  tracked g choice = Some (members_with_role, role_name) ->
  members_with_role = List.filter (holds_tracked_role choice) (guild_members g).
Proof.
  unfold tracked. destruct choice as [k|].
  - destruct (get_role g (Config.SKILL_GROUPS k)); [|done]. by intros [= <- _].
  - destruct (get_role g (Config.SKILL_GROUPS Config.Advanced)); [|done].
    destruct (get_role g (Config.SKILL_GROUPS Config.Mechanics)); [|done].
    by intros [= <- _].
Qed.

(** X9.  What [take] posts.  It posts only for a caller who holds an
    allowed role and is in a voice channel, and then the absent members of
    the view are exactly the members of the guild who hold the tracked role,
    or one of the two roles of the combined choice, and are not in the
    caller's voice channel, in the order of the guild's member list; nobody
    is excused yet, and the view keeps the posted embed as its original. *)
Theorem take_lists_the_absent i name choice season_ reply posted :
  take i name choice season_ = (reply, Some posted) ->
  has_allowed_role (user i) = true
  ∧ exists member cid voice_channel,
      get_member (guild i) (member_id (user i)) = Some member
      ∧ voice member = Some cid
      ∧ get_channel (guild i) cid = Some voice_channel
      ∧ absent_members (posted_view posted)
        = List.filter (fun m => holds_tracked_role choice m
                                && negb (member_in m (members voice_channel)))
                      (guild_members (guild i))
      ∧ excused_members (posted_view posted) = ∅
      ∧ original_embed (posted_view posted) = posted_embed posted
      ∧ session_name (posted_view posted) = name
      ∧ skill_group (posted_view posted) = choice_value choice
      ∧ season (posted_view posted) = season_.
Proof.
  unfold take.
  destruct (has_allowed_role (user i)); simpl; [|done]. intros H.
  split; [done|].
  destruct (get_member (guild i) (member_id (user i))) as [member|] eqn:Hm;
    [|done].
  destruct (voice member) as [cid|] eqn:Hv; [|done].
  destruct (get_channel (guild i) cid) as [vc|] eqn:Hc; [|done].
  destruct (get_channel (guild i) Config.ATTENDANCE_CHANNEL_ID); [|done].
  destruct (tracked (guild i) choice) as [[members_with_role role_name]|] eqn:Ht;
    [|done].
  injection H as _ <-. simpl.
  exists member, cid, vc. split_and!; try done.
  rewrite (tracked_members _ _ _ _ Ht).
  generalize (guild_members (guild i)). intros ms.
  induction ms as [|m ms IH]; simpl; [done|].
  destruct (holds_tracked_role choice m); simpl.
  - destruct (negb (member_in m (members vc))); by rewrite IH.
  - exact IH.
Qed.

(** X10.  The absent-students field that [take] builds never holds more
    than 1024 characters. *)
Theorem take_absent_field_is_bounded name season_ voice_channel role_name
    members_with_role absent taker f :
  f ∈ fields (take_embed name season_ voice_channel role_name
               members_with_role absent taker) ->
  is_absent_field f = true ->
  Py.len (field_value f) <= 1024.
Proof.
  unfold take_embed. destruct absent as [|m absent]; simpl.
  - intros [->|[->|?%elem_of_nil]%elem_of_cons]%elem_of_cons; [| |done];
      intros H; vm_compute in H; discriminate H.
  - intros [->|[->|?%elem_of_nil]%elem_of_cons]%elem_of_cons; [| |done].
    + intros H. vm_compute in H. discriminate H.
    + intros _. cbn [field_value].
      destruct (Py.len (absent_list (m :: absent)) <=? 1024) eqn:E.
      * by apply Z.leb_le.
      * unfold Py.len, Py.slice_to. rewrite length_app, length_take.
        change (length (Py.lit "...")) with 3%nat. lia.
Qed.

End Take.

Section TakeExamples.
Import AttendanceCog Scenario.

(** X9, witness: Carol takes attendance of the Advanced group. *)
Lemma take_lists_the_absent_witness :
  has_allowed_role (user carol_takes) = true
  ∧ exists member cid voice_channel,
      get_member (guild carol_takes) (member_id (user carol_takes)) = Some member
      ∧ voice member = Some cid
      ∧ get_channel (guild carol_takes) cid = Some voice_channel
      ∧ absent_members (posted_view {| posted_embed := original_embed taken_view;
                                       posted_view := taken_view |})
        = List.filter (fun m => holds_tracked_role (Single Config.Advanced) m
                                && negb (member_in m (members voice_channel)))
                      (guild_members (guild carol_takes))
      ∧ excused_members taken_view = ∅
      ∧ original_embed taken_view = original_embed taken_view
      ∧ session_name taken_view = Py.lit "Aim"
      ∧ skill_group taken_view = choice_value (Single Config.Advanced)
      ∧ season taken_view = 3.
Proof.
  apply (take_lists_the_absent carol_takes (Py.lit "Aim") (Single Config.Advanced) 3
           (fst taken)
           {| posted_embed := original_embed taken_view; posted_view := taken_view |}).
  vm_compute. reflexivity.
Defined.

(** X10, witness: the embed Carol's [take] posts. *)
Lemma take_absent_field_is_bounded_witness :
  Py.len (Py.lit "1. Alice" ++ [Py.newline] ++ Py.lit "2. Bob") <= 1024.
Proof.
  apply (take_absent_field_is_bounded (Py.lit "Aim") 3 (lobby [carol])
           (Py.lit "Advanced") [alice; bob] [alice; bob] carol
           {| field_name := Py.lit "Absent Students (2)";
              field_value := Py.lit "1. Alice" ++ [Py.newline] ++ Py.lit "2. Bob";
              field_inline := false |}).
  - apply (bool_decide_unpack _). vm_compute. exact I.
  - vm_compute. reflexivity.
Defined.

End TakeExamples.

(** ** The user type of a member *)

Section UserType.
Import DatabaseManager.

Lemma insert_by_elem {A} (key : A -> Z) x y l :
  y ∈ insert_by key x l <-> y = x ∨ y ∈ l.
Proof.
  induction l as [|z l IH]; simpl.
  - rewrite list_elem_of_singleton. split; [by left|]. by intros [?|?%elem_of_nil].
  - destruct (key x <=? key z).
    + by rewrite !elem_of_cons.
    + rewrite !elem_of_cons, IH. tauto.
Qed.

Lemma sorted_by_elem {A} (key : A -> Z) y l : y ∈ sorted_by key l <-> y ∈ l.
Proof.
  unfold sorted_by. induction l as [|x l IH]; simpl; [done|].
  rewrite insert_by_elem, elem_of_cons, IH. done.
Qed.

Lemma insert_by_ascending {A} (key : A -> Z) x l :
  ascending key l -> ascending key (insert_by key x l).
Proof.
  induction l as [|z l IH]; intros Hl; simpl.
  - split; [constructor|done].
  - destruct Hl as [Hz Hl].
    destruct (key x <=? key z) eqn:E.
    + apply Z.leb_le in E. simpl. split; [|done].
      constructor; [done|]. eapply Forall_impl; [exact Hz|]. simpl. intros; lia.
    + apply Z.leb_gt in E. simpl. split; [|by apply IH].
      apply Forall_forall. intros y Hy%insert_by_elem.
      destruct Hy as [->|Hy]; [lia|].
      rewrite Forall_forall in Hz. by apply Hz.
Qed.

Lemma sorted_by_ascending {A} (key : A -> Z) l : ascending key (sorted_by key l).
Proof.
  unfold sorted_by. induction l as [|x l IH]; simpl; [done|].
  by apply insert_by_ascending.
Qed.

Lemma ascending_last {A} (key : A -> Z) l x :
  ascending key (l ++ [x]) -> forall y, y ∈ l -> key y <= key x.
Proof.
  induction l as [|z l IH]; simpl; intros Hs y Hy.
  - by apply elem_of_nil in Hy.
  - destruct Hs as [Hz Hs].
    apply elem_of_cons in Hy as [->|Hy]; [|by apply IH].
    rewrite Forall_forall in Hz. apply Hz, elem_of_app. right. by left.
Qed.

(** [sorted(l, key)[-1]] is an element of [l] of greatest key. *)
Lemma sorted_last {A} (key : A -> Z) (l : list A) :
  match List.rev (sorted_by key l) with
  | [] => l = []
  | x :: _ => x ∈ l ∧ forall y, y ∈ l -> key y <= key x
  end.
Proof.
  pose proof (sorted_by_ascending key l) as Hs.
  pose proof (sorted_by_elem key) as He.
  destruct (List.rev (sorted_by key l)) as [|x r] eqn:E.
  - apply (f_equal (@List.rev A)) in E. rewrite rev_involutive in E. simpl in E.
    destruct l as [|z l]; [done|].
    assert (H : z ∈ sorted_by key (z :: l)) by (apply He; left).
    rewrite E in H. by apply elem_of_nil in H.
  - apply (f_equal (@List.rev A)) in E. rewrite rev_involutive in E. simpl in E.
    rewrite E in Hs. split.
    + apply He. rewrite E. apply elem_of_app. right. by left.
    + intros y Hy. apply He in Hy. rewrite E in Hy.
      apply elem_of_app in Hy as [Hy | ->%list_elem_of_singleton]; [|lia].
      apply (ascending_last key (List.rev r) x Hs).
      exact Hy.
Qed.

Lemma user_role_type_id r t :
  Config.USER_ROLE_TYPES r = Some t <-> r = role_id_of t.
Proof.
  unfold Config.USER_ROLE_TYPES.
  repeat (match goal with |- context [?a =? ?b] =>
            destruct (Z.eqb_spec a b) as [->|?] end);
    destruct t; simpl; split; intros H; try done; try congruence; try lia.
Qed.

Lemma role_type_held t m :
  t ∈ member_role_types m <-> has_role (role_id_of t) m = true.
Proof.
  unfold member_role_types, has_role.
  rewrite list_elem_of_omap, existsb_exists. split.
  - intros (r & Hr & Ht%user_role_type_id). exists r.
    split; [by apply list_elem_of_In|]. by apply Z.eqb_eq.
  - intros (r & Hr & ->%Z.eqb_eq). exists (role_id_of t).
    split; [by apply list_elem_of_In|]. by apply user_role_type_id.
Qed.

Lemma priority_keys :
  priority_key Config.student = 0 ∧ priority_key Config.graduate = 1
  ∧ priority_key Config.manager = 2 ∧ priority_key Config.admin = 3
  ∧ priority_key Config.coach = 4.
Proof. by vm_compute. Qed.

(** X11.  The user type [sync_users] stores, read off the roles: a bot is
    skipped; a member holding the coach role is a coach whatever else the
    member holds; a member holding an admin, manager or graduate role and
    not the coach role is skipped, student or not; a member holding the
    student role alone among these is a student; everyone else is skipped. *)
Theorem stored_user_type m : member_user_type m = user_type_by_roles m.
Proof.
  unfold member_user_type, user_type_by_roles.
  destruct (bot m); [done|].
  destruct priority_keys as (Ks & Kg & Km & Ka & Kc).
  pose proof (sorted_last priority_key (member_role_types m)) as Hlast.
  assert (Hheld : forall t, has_role (role_id_of t) m = true
                            <-> t ∈ member_role_types m)
    by (intros t; symmetry; apply role_type_held).
  destruct (has_role (role_id_of Config.coach) m) eqn:Hc.
  { apply Hheld in Hc.
    destruct (List.rev _) as [|x r]; [rewrite Hlast in Hc; by apply elem_of_nil in Hc|].
    destruct Hlast as [_ Hmax]. specialize (Hmax _ Hc).
    destruct x; try done; lia. }
  assert (Hnc : Config.coach ∉ member_role_types m)
    by (intros H%Hheld; congruence).
  destruct (has_role (role_id_of Config.admin) m
            || has_role (role_id_of Config.manager) m
            || has_role (role_id_of Config.graduate) m) eqn:Ho.
  { destruct (List.rev _) as [|x r]; [done|].
    destruct Hlast as [Hx Hmax].
    apply orb_true_iff in Ho as [Ho|Ho]; [apply orb_true_iff in Ho as [Ho|Ho]|];
      apply Hheld in Ho; specialize (Hmax _ Ho); destruct x; try done; lia. }
  apply orb_false_iff in Ho as [Ho Hg]. apply orb_false_iff in Ho as [Ha Hm].
  assert (Hna : Config.admin ∉ member_role_types m) by (intros H%Hheld; congruence).
  assert (Hnm : Config.manager ∉ member_role_types m) by (intros H%Hheld; congruence).
  assert (Hng : Config.graduate ∉ member_role_types m) by (intros H%Hheld; congruence).
  destruct (has_role (role_id_of Config.student) m) eqn:Hs.
  - apply Hheld in Hs.
    destruct (List.rev _) as [|x r]; [rewrite Hlast in Hs; by apply elem_of_nil in Hs|].
    destruct Hlast as [Hx _]. by destruct x.
  - assert (Hns : Config.student ∉ member_role_types m)
      by (intros H%Hheld; congruence).
    destruct (List.rev _) as [|x r]; [done|].
    destruct Hlast as [Hx _]. by destruct x.
Qed.

End UserType.

(** ** What [sync_users] does to the rows it finds *)

Section SyncRows.
Import DatabaseManager.

Lemma refresh_keeps_active m r :
  Db.u_is_active r = 1 -> Db.u_is_active (refresh m r) = 1.
Proof.
  unfold refresh, update_row. destruct (member_user_type m); [|done].
  by case_bool_decide.
Qed.

Lemma refresh_all_keeps_active ms r :
  Db.u_is_active r = 1 -> Db.u_is_active (refresh_all ms r) = 1.
Proof.
  revert r. induction ms as [|m ms IH]; intros r H; [done|].
  rewrite refresh_all_cons. by apply IH, refresh_keeps_active.
Qed.

Lemma refresh_id m r : Db.u_id (refresh m r) = Db.u_id r.
Proof.
  unfold refresh, update_row. destruct (member_user_type m); [|done].
  by case_bool_decide.
Qed.

Lemma refresh_all_id ms r : Db.u_id (refresh_all ms r) = Db.u_id r.
Proof.
  revert r. induction ms as [|m ms IH]; intros r; [done|].
  by rewrite refresh_all_cons, IH, refresh_id.
Qed.

(** A row that a stored member names is active after the member's round. *)
Lemma refresh_activates m r : stored_as r m -> Db.u_is_active (refresh m r) = 1.
Proof.
  unfold stored_as, refresh, update_row. intros [[ut ->] Hd].
  by rewrite bool_decide_eq_true_2.
Qed.

Lemma refresh_all_activates ms r :
  (exists m, m ∈ ms ∧ stored_as r m) -> Db.u_is_active (refresh_all ms r) = 1.
Proof.
  revert r. induction ms as [|m ms IH]; intros r (m0 & Hin & Hm0).
  - by apply elem_of_nil in Hin.
  - rewrite refresh_all_cons.
    destruct (stored_as_dec r m) as [Hm|Hm].
    + by apply refresh_all_keeps_active, refresh_activates.
    + rewrite refresh_other by done. apply IH.
      apply elem_of_cons in Hin as [->|Hin]; [done|]. by exists m0.
Qed.

(** One round: the rows found stay where they are, refreshed, and at most
    one row is appended. *)
Lemma upsert_structure m T :
  exists new_rows,
    fst (upsert m T) = List.map (refresh m) (fst T) ++ new_rows
    ∧ snd (upsert m T) = snd T + Z.of_nat (length new_rows)
    ∧ forall r, r ∈ new_rows -> Db.u_is_active r = 1 ∧ stored_as r m.
Proof.
  unfold upsert, refresh, stored_as.
  destruct (member_user_type m) as [ut|] eqn:Hut.
  2: { exists []. rewrite List.map_id, app_nil_r. simpl.
       split_and!; [done|lia|by intros r ?%elem_of_nil]. }
  destruct (List.find _ (fst T)) as [r1|] eqn:Hfind; cbn [fst snd].
  - exists []. rewrite app_nil_r. simpl.
    split_and!; [done|lia|by intros r ?%elem_of_nil].
  - eexists [_]. split_and!.
    + f_equal. rewrite <- (List.map_id (fst T)) at 1. apply List.map_ext_in.
      intros r Hr. pose proof (find_none _ _ Hfind r Hr) as Hn. simpl in Hn.
      unfold update_row. by rewrite Hn.
    + simpl. lia.
    + intros r ->%list_elem_of_singleton. simpl. split; [done|].
      split; [by eexists|done].
Qed.

(** The whole loop: the rows found stay where they are, refreshed by every
    member in turn, and the rows of the members not found are appended. *)
Lemma upsert_all_structure ms T :
  exists new_rows,
    fst (upsert_all ms T) = List.map (refresh_all ms) (fst T) ++ new_rows
    ∧ snd (upsert_all ms T) = snd T + Z.of_nat (length new_rows)
    ∧ forall r, r ∈ new_rows ->
        Db.u_is_active r = 1 ∧ exists m, m ∈ ms ∧ stored_as r m.
Proof.
  revert T. induction ms as [|m ms IH]; intros T.
  - exists []. simpl. rewrite List.map_id, app_nil_r.
    split_and!; [done|lia|by intros r ?%elem_of_nil].
  - rewrite upsert_all_cons.
    destruct (upsert_structure m T) as (new1 & Hf1 & Hs1 & Hn1).
    destruct (IH (upsert m T)) as (new2 & Hf2 & Hs2 & Hn2).
    exists (List.map (refresh_all ms) new1 ++ new2). split_and!.
    + rewrite Hf2, Hf1, List.map_app, List.map_map, <- app_assoc. done.
    + rewrite Hs2, Hs1, length_app, length_map. lia.
    + intros r [Hr|Hr]%elem_of_app.
      * apply list_elem_of_In, in_map_iff in Hr as (r0 & <- & Hr0%list_elem_of_In).
        destruct (Hn1 _ Hr0) as [Hact Hst]. split.
        -- by apply refresh_all_keeps_active.
        -- exists m. split; [left|].
           unfold stored_as in *. by rewrite refresh_all_discord_id.
      * destruct (Hn2 _ Hr) as (Hact & m0 & Hin & Hst). split; [done|].
        exists m0. split; [by right|done].
Qed.

Lemma count_stored_cons m ms :
  count_stored (m :: ms)
  = match member_user_type m with Some _ => 1 | None => 0 end + count_stored ms.
Proof.
  unfold count_stored. cbn [List.filter].
  destruct (member_user_type m) as [ut|].
  - rewrite bool_decide_eq_true_2 by (by eexists). cbn [length]. lia.
  - rewrite bool_decide_eq_false_2 by (by intros [? [=]]). lia.
Qed.

Lemma count_stored_nonneg ms : 0 <= count_stored ms.
Proof. unfold count_stored. lia. Qed.

(** One round of the loop counts the member once when it is stored, and
    makes two calls for it. *)
Lemma sync_member_counts m counts f c :
  match sync_member m counts f c with
  | (Db.Ok counts', c') =>
      fst counts' + snd counts'
      = fst counts + snd counts + match member_user_type m with Some _ => 1 | None => 0 end
      ∧ fst counts <= fst counts' ∧ snd counts <= snd counts'
      ∧ Db.calls c' = (Db.calls c + match member_user_type m with Some _ => 2 | None => 0 end)%nat
      ∧ (forall k, (Db.calls c <= k < Db.calls c')%nat -> Db.raises f k = false)
  | (Db.MysqlError, c') =>
      exists k, (Db.calls c <= k < Db.calls c
                                   + match member_user_type m with Some _ => 2 | None => 0 end)%nat
                ∧ Db.raises f k = true
  end.
Proof.
  unfold sync_member.
  destruct (member_user_type m) as [ut|].
  2: { simpl. split_and!; [lia|lia|lia|lia|intros; lia]. }
  unfold Db.bind at 1, select_user at 1, Db.call at 1.
  destruct (Db.raises f (Db.calls c)) eqn:E0.
  { exists (Db.calls c). split; [lia|done]. }
  cbn [fst snd].
  destruct (List.find _ (Db.user (Db.working c))); cbn [Db.tick_call].
  - unfold Db.bind, update_user, Db.call, Db.ret. cbn.
    destruct (Db.raises f (S (Db.calls c))) eqn:E1; cbn.
    + exists (S (Db.calls c)). split; [lia|done].
    + split_and!; [lia|lia|lia|lia|].
      intros k Hk. assert (k = Db.calls c ∨ k = S (Db.calls c)) as [-> | ->] by lia; done.
  - unfold Db.bind, insert_user, Db.call, Db.ret. cbn.
    destruct (Db.raises f (S (Db.calls c))) eqn:E1; cbn.
    + exists (S (Db.calls c)). split; [lia|done].
    + split_and!; [lia|lia|lia|lia|].
      intros k Hk. assert (k = Db.calls c ∨ k = S (Db.calls c)) as [-> | ->] by lia; done.
Qed.

Lemma sync_members_counts ms counts f c :
  match sync_members ms counts f c with
  | (Db.Ok counts', c') =>
      fst counts' + snd counts' = fst counts + snd counts + count_stored ms
      ∧ fst counts <= fst counts' ∧ snd counts <= snd counts'
      ∧ Db.calls c' = (Db.calls c + 2 * Z.to_nat (count_stored ms))%nat
      ∧ (forall k, (Db.calls c <= k < Db.calls c')%nat -> Db.raises f k = false)
  | (Db.MysqlError, c') =>
      exists k, (Db.calls c <= k < Db.calls c + 2 * Z.to_nat (count_stored ms))%nat
                ∧ Db.raises f k = true
  end.
Proof.
  revert counts c. induction ms as [|m ms IH]; intros counts c.
  - cbn. split_and!; [unfold count_stored; simpl; lia|lia|lia|
                      unfold count_stored; simpl; lia|intros; lia].
  - cbn [sync_members]. unfold Db.bind.
    pose proof (sync_member_counts m counts f c) as Hm.
    pose proof (count_stored_nonneg ms) as Hnn.
    rewrite count_stored_cons.
    destruct (sync_member m counts f c) as [[counts1|] c1].
    + destruct Hm as (Hsum & Hadd & Hupd & Hcalls & Hno).
      specialize (IH counts1 c1).
      destruct (sync_members ms counts1 f c1) as [[counts2|] c2].
      * destruct IH as (Hsum2 & Hadd2 & Hupd2 & Hcalls2 & Hno2).
        split_and!.
        -- lia.
        -- lia.
        -- lia.
        -- rewrite Hcalls2, Hcalls. destruct (member_user_type m); lia.
        -- intros k Hk. destruct (decide (k < Db.calls c1)%nat).
           ++ apply Hno. lia.
           ++ apply Hno2. lia.
      * destruct IH as (k & Hk & Hraise). exists k. split; [|done].
        rewrite Hcalls in Hk. destruct (member_user_type m); lia.
    + destruct Hm as (k & Hk & Hraise). exists k. split; [|done].
      destruct (member_user_type m); lia.
Qed.

(** The ways [sync_users] can end, by the calls that raise. *)
Lemma sync_users_by_calls f ms st :
  match fst (sync_users f ms st) with
  | Returned (true, added, updated) =>
      added + updated = count_stored ms ∧ 0 <= added ∧ 0 <= updated
      ∧ Db.connect_ok f = true
      ∧ forall k, (k < calls_of_sync ms)%nat -> Db.raises f k = false
  | Returned (false, added, updated) =>
      added = 0 ∧ updated = 0
      ∧ (Db.connect_ok f = false
         ∨ exists k, (0 < k < calls_of_sync ms)%nat ∧ Db.raises f k = true)
  | Raised => Db.connect_ok f = true ∧ Db.raises f 0%nat = true
  end.
Proof.
  unfold sync_users, Db.create_connection, calls_of_sync.
  destruct (Db.connect_ok f); [|simpl; split_and!; try done; by left].
  unfold Db.cursor at 1, Db.call at 1. cbn.
  destruct (Db.raises f 0%nat) eqn:E0; [done|].
  unfold Db.bind at 1.
  match goal with |- context [sync_members ms ?counts f ?c0] =>
    pose proof (sync_members_counts ms counts f c0) as H;
    destruct (sync_members ms counts f c0) as [[counts'|] c']
  end.
  - destruct H as (Hsum & Hadd & Hupd & Hcalls & Hno).
    cbn in Hsum, Hadd, Hupd, Hcalls, Hno.
    unfold Db.bind, Db.commit, Db.call, Db.ret.
    destruct (Db.raises f (Db.calls c')) eqn:Ec; cbn.
    + split_and!; try done. right. exists (Db.calls c'). split; [lia|done].
    + split_and!; [lia|lia|lia|done|].
      intros k Hk. destruct (decide (k = 0)%nat) as [->|]; [done|].
      destruct (decide (k = Db.calls c')) as [->|]; [done|].
      apply Hno. lia.
  - destruct H as (k & Hk & Hraise). cbn in Hk. cbn.
    split_and!; try done. right. exists k. split; [lia|done].
Qed.

(** X12.  A successful [sync_users] keeps every row it found in its place,
    with its id and discord id; a row that no stored member of the list
    names is left exactly as it was, so nobody is deactivated or deleted,
    and a row that one names ends active; the rows of the members not found
    are appended, active, [users_added] of them; the [session] and [ledger]
    tables are untouched. *)
Theorem sync_users_keeps_rows_in_place f ms st added updated st1 :
  sync_users f ms st = (Returned (true, added, updated), st1) ->
  exists new_rows,
    Db.user (Db.tables st1)
    = List.map (refresh_all ms) (Db.user (Db.tables st)) ++ new_rows
    ∧ Z.of_nat (length new_rows) = added
    ∧ (forall r, r ∈ new_rows ->
         Db.u_is_active r = 1 ∧ exists m, m ∈ ms ∧ stored_as r m)
    ∧ (forall r,
         Db.u_id (refresh_all ms r) = Db.u_id r
         ∧ Db.u_discord_id (refresh_all ms r) = Db.u_discord_id r
         ∧ ((forall m, m ∈ ms -> ~ stored_as r m) -> refresh_all ms r = r)
         ∧ ((exists m, m ∈ ms ∧ stored_as r m) ->
            Db.u_is_active (refresh_all ms r) = 1))
    ∧ Db.session (Db.tables st1) = Db.session (Db.tables st)
    ∧ Db.ledger (Db.tables st1) = Db.ledger (Db.tables st).
Proof.
  intros Hsync.
  set (T := (Db.user (Db.tables st), Db.next_user_id st)).
  destruct (sync_users_outcomes f ms st) as [(u & Ho & Hs) | ([Ho|Ho] & _)];
    rewrite Hsync in *; simpl in Ho; [|discriminate Ho|discriminate Ho].
  simpl in Hs. fold T in Ho, Hs.
  destruct (upsert_all_structure ms T) as (new_rows & Hf & Hc & Hn).
  exists new_rows. subst st1. cbn [with_users Db.tables Db.user Db.session Db.ledger].
  split_and!; try done.
  - injection Ho as Ha _. rewrite Ha, Hc. simpl. lia.
  - intros r. split_and!.
    + apply refresh_all_id.
    + apply refresh_all_discord_id.
    + apply refresh_all_untouched.
    + apply refresh_all_activates.
Qed.

(** X13.  A successful [sync_users] counts every member it stores exactly
    once, as added or as updated: the two numbers it returns sum to the
    number of listed members that are not bots and whose winning role type
    is student or coach, a member listed twice counting twice. *)
Theorem sync_users_counts_each_stored_member f ms st added updated st1 :
  sync_users f ms st = (Returned (true, added, updated), st1) ->
  added + updated = count_stored ms ∧ 0 <= added ∧ 0 <= updated.
Proof.
  intros Hsync.
  pose proof (sync_users_by_calls f ms st) as H. rewrite Hsync in H.
  simpl in H. by destruct H as (Hsum & Ha & Hu & _).
Qed.

(** X14.  [sync_users] returns success exactly when the connection opens
    and none of its calls raises: [cursor()], a [SELECT] and a write for
    each stored member, and [commit()]. *)
Theorem sync_succeeds_iff_no_call_raises f ms st :
  (exists added updated,
     fst (sync_users f ms st) = Returned (true, added, updated))
  <-> Db.connect_ok f = true
      ∧ forall k, (k < calls_of_sync ms)%nat -> Db.raises f k = false.
Proof.
  pose proof (sync_users_by_calls f ms st) as H.
  split.
  - intros (a & u & Hr). rewrite Hr in H. by destruct H as (_ & _ & _ & Hc & Hno).
  - intros [Hc Hno].
    destruct (fst (sync_users f ms st)) as [[[[] a] u]|].
    + by exists a, u.
    + destruct H as (_ & _ & [Hf | (k & Hk & Hraise)]); [congruence|].
      rewrite Hno in Hraise by lia. discriminate.
    + destruct H as [_ Hraise]. rewrite Hno in Hraise; [discriminate|].
      unfold calls_of_sync. lia.
Qed.

(** X15.  When the connection does not open or one of its calls raises,
    [sync_users] leaves every table as it found it, inserts and updates
    made before the failure included, although it never calls
    [rollback()]; it returns [(False, 0, 0)], or raises when the failing
    call is [cursor()]. *)
Theorem failed_sync_changes_no_row f ms st :
  (Db.connect_ok f = false
   ∨ exists k, (k < calls_of_sync ms)%nat ∧ Db.raises f k = true) ->
  Db.tables (snd (sync_users f ms st)) = Db.tables st
  ∧ (fst (sync_users f ms st) = Returned (false, 0, 0)
     ∨ (fst (sync_users f ms st) = Raised ∧ Db.raises f 0%nat = true)).
Proof.
  intros Hfail.
  pose proof (sync_users_by_calls f ms st) as H.
  destruct (sync_users_outcomes f ms st)
    as [(u & Ho & _) | (Ho & ms1 & ms2 & _ & Hs)].
  - exfalso. rewrite Ho in H. destruct H as (_ & _ & _ & Hc & Hno).
    destruct Hfail as [Hf | (k & Hk & Hraise)]; [congruence|].
    rewrite Hno in Hraise by done. discriminate.
  - split.
    + rewrite Hs. by destruct st as [[] ? ?].
    + destruct Ho as [Ho|Ho]; [by left|]. right. split; [done|].
      rewrite Ho in H. by destruct H.
Qed.

Lemma upsert_discord_ids_unique m T :
  NoDup (List.map Db.u_discord_id (fst T)) ->
  NoDup (List.map Db.u_discord_id (fst (upsert m T))).
Proof.
  intros Hnd. unfold upsert.
  destruct (member_user_type m) as [ut|]; [|done].
  destruct (List.find _ (fst T)) as [r1|] eqn:Hfind; cbn [fst].
  - rewrite List.map_map.
    erewrite List.map_ext; [exact Hnd|].
    intros r. apply update_row_discord_id.
  - rewrite List.map_app. simpl. apply NoDup_app. split_and!; [done| |apply NoDup_singleton].
    intros did Hdid ->%list_elem_of_singleton.
    apply list_elem_of_In, in_map_iff in Hdid as (r & Hr & Hin).
    pose proof (find_none _ _ Hfind r Hin) as Hn. simpl in Hn.
    by rewrite bool_decide_eq_true_2 in Hn.
Qed.

Lemma upsert_all_discord_ids_unique ms T :
  NoDup (List.map Db.u_discord_id (fst T)) ->
  NoDup (List.map Db.u_discord_id (fst (upsert_all ms T))).
Proof.
  revert T. induction ms as [|m ms IH]; intros T H; [done|].
  rewrite upsert_all_cons. by apply IH, upsert_discord_ids_unique.
Qed.

(** X16.  [sync_users] never stores two rows under one discord id: when
    the discord ids of the [user] table are distinct before the call, they
    are distinct after it, however it ends, and also when the member list
    names a member twice. *)
Theorem sync_users_keeps_discord_ids_unique f ms st :
  NoDup (discord_ids st) -> NoDup (discord_ids (snd (sync_users f ms st))).
Proof.
  unfold discord_ids. intros Hnd.
  destruct (sync_users_outcomes f ms st)
    as [(u & _ & ->) | (_ & ms1 & ms2 & _ & ->)]; cbn [with_users Db.tables Db.user fst].
  - by apply upsert_all_discord_ids_unique.
  - done.
Qed.

End SyncRows.

(** ** Commits and synchronisations on the small guild *)

Section CommitMoreExamples.
Import DatabaseManager ExcuseView Scenario.

(** X4, witness: Carol logs the attendance she took. *)
Lemma commit_disables_only_the_log_button_witness :
  let l := log_attendance Discord.works Db.no_faults 1000 taken_view carol_commits
             empty_store in
  message (fst l) = log_success
  ∧ length (children (view (fst l))) = length (children taken_view)
  ∧ (forall (k : nat) it,
       children taken_view !! k = Some it -> is_log_button it = false ->
       children (view (fst l)) !! k = Some it)
  ∧ absent_members (view (fst l)) = absent_members taken_view
  ∧ excused_members (view (fst l)) = excused_members taken_view
  ∧ forall d' sid,
      sid ∈ ids (absent_members taken_view) ->
      excused_members (view (student_selected d' (view (fst l)) sid))
      = {[ sid ]} ∪ excused_members taken_view.
Proof.
  split.
  - vm_compute. reflexivity.
  - apply (commit_disables_only_the_log_button
             Discord.works Db.no_faults 1000 taken_view carol_commits empty_store).
    vm_compute. reflexivity.
Defined.

(** X5, witness: a commit with Carol present, Alice excused and Bob absent. *)
Lemma committed_rows_are_consistent_witness :
  let r := create_attendance_records Db.no_faults 1000 201 (Py.lit "Aim")
             (Py.lit "Advanced") 3 [carol] [alice; bob] {[ 101 ]} empty_store in
  fst r = Returned true
  ∧ Db.session (Db.tables (snd r))
    = Db.session (Db.tables empty_store)
      ++ [session_row (Db.next_session_id empty_store) 1000 201 (Py.lit "Aim")
            (Py.lit "Advanced") 3]
  ∧ Db.user (Db.tables (snd r)) = Db.user (Db.tables empty_store)
  ∧ exists rows,
      Db.ledger (Db.tables (snd r)) = Db.ledger (Db.tables empty_store) ++ rows
      ∧ length rows = (length [carol] + length [alice; bob])%nat
      ∧ Forall (fun x =>
                  Db.l_session_id x = Db.next_session_id empty_store
                  ∧ Db.l_event_date x = 1000
                  ∧ (Db.l_is_excused x = true ->
                     Db.l_is_present x = false
                     ∧ exists m, m ∈ [alice; bob] ∧ member_id m ∈ ({[ 101 ]} : gset Z)
                                 ∧ Db.l_student_id x = Py.str_of_Z (member_id m)))
               rows.
Proof.
  split.
  - vm_compute. reflexivity.
  - apply (committed_rows_are_consistent Db.no_faults 1000 201 (Py.lit "Aim")
             (Py.lit "Advanced") 3 [carol] [alice; bob] {[ 101 ]} empty_store).
    vm_compute. reflexivity.
Defined.

(** X7, witness: a second commit on the store the first one left. *)
Lemma session_ids_stay_unique_witness :
  let st := snd (log_attendance Discord.works Db.no_faults 1000 taken_view
                   carol_commits empty_store) in
  let r := create_attendance_records Roster.third_call_raises 2000 201
             (Py.lit "Aim") (Py.lit "Advanced") 3 [carol] [alice; bob] ∅ st in
  session_ids_below_counter st
  ∧ session_ids_below_counter (snd r)
  ∧ (NoDup (List.map Db.s_id (Db.session (Db.tables st))) ->
     NoDup (List.map Db.s_id (Db.session (Db.tables (snd r))))).
Proof.
  assert (H : session_ids_below_counter
                (snd (log_attendance Discord.works Db.no_faults 1000 taken_view
                        carol_commits empty_store)))
    by (vm_compute; repeat constructor).
  split; [exact H|].
  exact (session_ids_stay_unique Roster.third_call_raises 2000 201
           (Py.lit "Aim") (Py.lit "Advanced") 3 [carol] [alice; bob] ∅ _ H).
Defined.

(** X8, witness: Carol's first press meets a connection whose third call
    raises; she presses again. *)
Lemma failed_commit_can_be_retried_witness :
  let l := log_attendance Discord.works Roster.third_call_raises 1000 taken_view
             carol_commits empty_store in
  message (fst l) = log_failure
  ∧ Db.tables (snd l) = Db.tables empty_store
  ∧ view (fst l) = taken_view
  ∧ (message (fst l) = log_failure ∨ message (fst l) = log_error
     ∨ message (fst l) = not_in_voice)
  ∧ forall d' t' i' cid ch,
      voice (user i') = Some cid ->
      get_channel (guild i') cid = Some ch ->
      let l' := log_attendance d' Db.no_faults t' (view (fst l)) i' (snd l) in
      length (Db.session (Db.tables (snd l')))
      = S (length (Db.session (Db.tables empty_store)))
      ∧ (edit_fails d' None (children (view (fst l'))) = false ->
         reply_fails d' log_success = false ->
         message (fst l') = log_success).
Proof.
  assert (Hm : message (fst (log_attendance Discord.works Roster.third_call_raises
                               1000 taken_view carol_commits empty_store))
               = log_failure) by (vm_compute; reflexivity).
  split; [exact Hm|].
  destruct (failed_commit_can_be_retried Discord.works Roster.third_call_raises
              1000 taken_view carol_commits empty_store) as [Hsame Hretry].
  assert (Ht := Hsame (or_introl Hm)).
  split; [exact Ht|]. exact (Hretry Ht).
Defined.

(** X24, witness: the database works and Discord refuses the edit of
    Carol's commit. *)
Lemma commit_outlives_a_refused_edit_witness :
  let l := log_attendance Scenario.refuses_edits Db.no_faults 1000 taken_view
             carol_commits empty_store in
  message (fst l) = log_error
  ∧ raised (fst l) = reply_fails Scenario.refuses_edits log_error
  ∧ length (Db.session (Db.tables (snd l)))
    = S (length (Db.session (Db.tables empty_store)))
  ∧ Db.ledger (Db.tables (snd l)) =
      Db.ledger (Db.tables empty_store)
      ++ ledger_rows (Db.next_session_id empty_store) 1000
           (members (lobby [carol; bob_in_lobby]))
           (absent_members taken_view) (excused_members taken_view)
  ∧ children (view (fst l)) = disable_log_button (children taken_view)
  ∧ (edit_fails Scenario.refuses_edits None
       (disable_log_button (children taken_view)) = true ->
     displayed (fst l) = None)
  ∧ forall d' t' i' cid' ch',
      voice (user i') = Some cid' ->
      get_channel (guild i') cid' = Some ch' ->
      length (Db.session
                (Db.tables (snd (log_attendance d' Db.no_faults t' (view (fst l))
                                   i' (snd l)))))
      = S (S (length (Db.session (Db.tables empty_store)))).
Proof.
  apply (commit_outlives_a_refused_edit Scenario.refuses_edits 1000 taken_view
           carol_commits empty_store 10 (lobby [carol; bob_in_lobby])).
  - reflexivity.
  - reflexivity.
  - left. reflexivity.
Defined.

End CommitMoreExamples.

Section SyncRowsExamples.
Import DatabaseManager Roster.

Example roster_over_older_table :
  sync_users Db.no_faults roster Enrolled.store
  = (Returned (true, 1, 1), Enrolled.synced)
  ∧ List.map (fun r => (Db.u_id r, Db.u_name r, Db.u_skill_group r))
             (Db.user (Db.tables Enrolled.store))
    = [(1, Py.lit "E", None)]
  ∧ List.map (fun r => (Db.u_id r, Db.u_name r, Db.u_skill_group r))
             (Db.user (Db.tables Enrolled.synced))
    = [(1, Py.lit "Erin", Some Config.Advanced); (2, Py.lit "Carol", None)].
Proof. vm_compute. repeat split. Qed.

(** X12, witness: the roster is synchronised over a table that holds Erin
    under an older name. *)
Lemma sync_users_keeps_rows_in_place_witness :
  sync_users Db.no_faults roster Enrolled.store
  = (Returned (true, 1, 1), Enrolled.synced)
  ∧ exists new_rows,
      Db.user (Db.tables Enrolled.synced)
      = List.map (refresh_all roster) (Db.user (Db.tables Enrolled.store)) ++ new_rows
      ∧ Z.of_nat (length new_rows) = 1
      ∧ (forall r, r ∈ new_rows ->
           Db.u_is_active r = 1 ∧ exists m, m ∈ roster ∧ stored_as r m)
      ∧ (forall r,
           Db.u_id (refresh_all roster r) = Db.u_id r
           ∧ Db.u_discord_id (refresh_all roster r) = Db.u_discord_id r
           ∧ ((forall m, m ∈ roster -> ~ stored_as r m) -> refresh_all roster r = r)
           ∧ ((exists m, m ∈ roster ∧ stored_as r m) ->
              Db.u_is_active (refresh_all roster r) = 1))
      ∧ Db.session (Db.tables Enrolled.synced)
        = Db.session (Db.tables Enrolled.store)
      ∧ Db.ledger (Db.tables Enrolled.synced)
        = Db.ledger (Db.tables Enrolled.store).
Proof.
  assert (H : sync_users Db.no_faults roster Enrolled.store
              = (Returned (true, 1, 1), Enrolled.synced))
    by (vm_compute; reflexivity).
  split; [exact H|].
  exact (sync_users_keeps_rows_in_place Db.no_faults roster Enrolled.store 1 1
           Enrolled.synced H).
Defined.

(** X13, witness: of the five members of the roster two are stored, Carol
    added and Erin updated. *)
Lemma sync_users_counts_each_stored_member_witness :
  sync_users Db.no_faults roster Enrolled.store
  = (Returned (true, 1, 1), Enrolled.synced)
  ∧ 1 + 1 = count_stored roster ∧ 0 <= 1 ∧ 0 <= 1.
Proof.
  assert (H : sync_users Db.no_faults roster Enrolled.store
              = (Returned (true, 1, 1), Enrolled.synced))
    by (vm_compute; reflexivity).
  split; [exact H|].
  exact (sync_users_counts_each_stored_member Db.no_faults roster Enrolled.store
           1 1 Enrolled.synced H).
Defined.

(** X15, witness: the third call, Carol's insert, raises. *)
Lemma failed_sync_changes_no_row_witness :
  (2 < calls_of_sync roster)%nat
  ∧ Db.raises third_call_raises 2 = true
  ∧ Db.tables (snd (sync_users third_call_raises roster Enrolled.store))
    = Db.tables Enrolled.store
  ∧ (fst (sync_users third_call_raises roster Enrolled.store)
     = Returned (false, 0, 0)
     ∨ (fst (sync_users third_call_raises roster Enrolled.store) = Raised
        ∧ Db.raises third_call_raises 0%nat = true)).
Proof.
  assert (Hk : (2 < calls_of_sync roster)%nat) by (vm_compute; lia).
  split; [exact Hk|]. split; [reflexivity|].
  apply (failed_sync_changes_no_row third_call_raises roster Enrolled.store).
  right. exists 2%nat. split; [exact Hk|reflexivity].
Defined.

(** X16, witness: the roster, listed twice, over the older table. *)
Lemma sync_users_keeps_discord_ids_unique_witness :
  NoDup (discord_ids Enrolled.store)
  ∧ NoDup (discord_ids (snd (sync_users Db.no_faults (roster ++ roster)
                               Enrolled.store))).
Proof.
  assert (H : NoDup (discord_ids Enrolled.store))
    by (apply (bool_decide_unpack _); vm_compute; exact I).
  split; [exact H|].
  exact (sync_users_keeps_discord_ids_unique Db.no_faults (roster ++ roster)
           Enrolled.store H).
Defined.

End SyncRowsExamples.

(** ** Timers and due reminders *)

Section Timers.
Import VoiceReminderCog.

(** A loop of timer settings: [who x] are the ids whose timer round [x]
    sets. *)
Lemma timers_fold {A} (step : Cog -> A -> Cog) (who : A -> list Z) t u xs s :
  (forall s x, coach_voice_states (step s x) !! u
               = if bool_decide (u ∈ who x) then Some t
                 else coach_voice_states s !! u) ->
  coach_voice_states (fold_left step xs s) !! u
  = if bool_decide (u ∈ flat_map who xs) then Some t else coach_voice_states s !! u.
Proof.
  intros Hstep. revert s. induction xs as [|x xs IH]; intros s.
  - cbn [fold_left flat_map].
    rewrite bool_decide_eq_false_2; [done|by intros ?%elem_of_nil].
  - cbn [fold_left flat_map]. rewrite IH, Hstep.
    destruct (decide (u ∈ flat_map who xs)) as [Hin|Hout].
    + rewrite !bool_decide_eq_true_2; [done| |done].
      apply elem_of_app. by right.
    + rewrite (bool_decide_eq_false_2 _ Hout).
      destruct (decide (u ∈ who x)) as [Hx|Hx].
      * rewrite !bool_decide_eq_true_2; [done| |done].
        apply elem_of_app. by left.
      * rewrite !bool_decide_eq_false_2; [done| |done].
        by intros [?|?]%elem_of_app.
Qed.

Lemma ids_flat_map {A} (f : A -> list Member) xs :
  ids (flat_map f xs) = flat_map (fun x => ids (f x)) xs.
Proof.
  unfold ids. induction xs as [|x xs IH]; simpl; [done|].
  by rewrite List.map_app, IH.
Qed.

Lemma ids_filter (P : Member -> bool) ms :
  ids (List.filter P ms)
  = flat_map (fun m => if P m then [member_id m] else []) ms.
Proof.
  unfold ids. induction ms as [|m ms IH]; simpl; [done|].
  destruct (P m); simpl; by rewrite IH.
Qed.

Lemma initialize_voice_states_timers t gs s u :
  coach_voice_states (initialize_voice_states t gs s) !! u
  = if bool_decide (u ∈ ids (coaches_in_voice gs)) then Some t
    else coach_voice_states s !! u.
Proof.
  unfold initialize_voice_states, coaches_in_voice.
  rewrite ids_flat_map. apply timers_fold. clear s. intros s g.
  unfold initialize_guild. rewrite ids_flat_map. apply timers_fold.
  clear s. intros s vc.
  unfold initialize_channel. rewrite ids_filter. apply timers_fold.
  clear s. intros s m.
  destruct (has_allowed_role m); cbn [set_join coach_voice_states].
  - destruct (decide (u = member_id m)) as [->|Hne].
    + rewrite lookup_insert_eq, bool_decide_eq_true_2; [done|left].
    + rewrite lookup_insert_ne by done.
      rewrite bool_decide_eq_false_2; [done|].
      by intros ?%list_elem_of_singleton.
  - rewrite bool_decide_eq_false_2; [done|by intros ?%elem_of_nil].
Qed.

(** X17.  [initialize_voice_states] gives the timer [current_time] to every
    member with a tracked role who sits in a voice channel, also to one who
    had an older timer, and touches no other timer and not the reminded
    set; it does not look for the attendance channel.
    [reset_daily_reminders] leaves exactly these timers and an empty
    reminded set: the timers of members out of voice are gone, and who was
    reminded can be reminded again. *)
Theorem reset_restarts_the_timers t gs s u :
  (coach_voice_states (initialize_voice_states t gs s) !! u
   = if bool_decide (u ∈ ids (coaches_in_voice gs)) then Some t
     else coach_voice_states s !! u)
  ∧ reminded_coaches (initialize_voice_states t gs s) = reminded_coaches s
  ∧ (coach_voice_states (reset_daily_reminders t gs s) !! u
     = if bool_decide (u ∈ ids (coaches_in_voice gs)) then Some t else None)
  ∧ reminded_coaches (reset_daily_reminders t gs s) = ∅.
Proof.
  split_and!.
  - apply initialize_voice_states_timers.
  - apply initialize_voice_states_reminded.
  - unfold reset_daily_reminders. by rewrite initialize_voice_states_timers.
  - unfold reset_daily_reminders. by rewrite initialize_voice_states_reminded.
Qed.

(** *** A tick on a member whose timer is due *)

Lemma visit_coach_reminded_grows f t vc r c :
  reminded_coaches (cog r) ⊆ reminded_coaches (cog (run_of (visit_coach f t vc r c))).
Proof.
  unfold visit_coach.
  destruct (coach_voice_states (cog r) !! member_id c) as [j|]; [|done].
  destruct (t - j >=? five_minutes); [|done].
  destruct (f (member_id c)); simpl; [done|set_solver].
Qed.

Lemma loop_reminded_grows {A} (body : Run -> A -> Flow) xs r :
  (forall r x, reminded_coaches (cog r) ⊆ reminded_coaches (cog (run_of (body r x)))) ->
  reminded_coaches (cog r) ⊆ reminded_coaches (cog (run_of (loop body xs r))).
Proof.
  intros Hbody.
  apply (loop_invariant
           (fun r' => reminded_coaches (cog r) ⊆ reminded_coaches (cog r')));
    [|done].
  intros r0 x _ H. etrans; [exact H|apply Hbody].
Qed.

Lemma visit_channel_reminded_grows f t r vc :
  reminded_coaches (cog r) ⊆ reminded_coaches (cog (run_of (visit_channel f t r vc))).
Proof.
  unfold visit_channel. apply loop_reminded_grows.
  intros r0 c. apply visit_coach_reminded_grows.
Qed.

Lemma visit_guild_reminded_grows f t r g :
  reminded_coaches (cog r) ⊆ reminded_coaches (cog (run_of (visit_guild f t r g))).
Proof.
  unfold visit_guild.
  destruct (get_channel g Config.ATTENDANCE_CHANNEL_ID); [|done].
  apply loop_reminded_grows. intros r0 vc. apply visit_channel_reminded_grows.
Qed.

(** The round of a member whose timer is due reminds the member. *)
Lemma visit_due_coach s0 t vc r (m : Member) j :
  coach_voice_states s0 !! member_id m = Some j ->
  five_minutes <= t - j ->
  tick_invariant s0 t r ->
  member_id m ∈ reminded_coaches (cog (run_of (visit_coach send_works t vc r m))).
Proof.
  intros Hj Hdue (Hkept & _). unfold visit_coach.
  rewrite (Hkept _ _ Hj).
  assert (Hge : (t - j >=? five_minutes) = true) by (apply Z.geb_le; lia).
  rewrite Hge. unfold send_works. simpl. set_solver.
Qed.

Lemma visit_due_channel s0 t vc r (m : Member) j :
  m ∈ members vc ->
  has_allowed_role m = true ->
  coach_voice_states s0 !! member_id m = Some j ->
  five_minutes <= t - j ->
  tick_invariant s0 t r ->
  member_id m ∈ reminded_coaches (cog (run_of (visit_channel send_works t r vc))).
Proof.
  intros Hin Hrole Hj Hdue Hr.
  destruct (decide (member_id m ∈ reminded_coaches (cog r))) as [Hrem|Hfresh].
  { by apply visit_channel_reminded_grows. }
  unfold visit_channel.
  apply (loop_reaches (tick_invariant s0 t)
           (fun r => member_id m ∈ reminded_coaches (cog r)) _ _ m).
  - intros r0 c. apply visit_coach_going.
  - intros r0 c. apply visit_coach_invariant.
  - intros r0 c _ H. by apply visit_coach_reminded_grows.
  - unfold coaches. apply list_elem_of_In, filter_In.
    split; [by apply list_elem_of_In|]. rewrite Hrole. simpl.
    by apply negb_true_iff, bool_decide_eq_false.
  - intros r0. by apply (visit_due_coach s0 t vc r0 m j).
  - done.
Qed.

Lemma visit_due_guild s0 t g ac vc r (m : Member) j :
  get_channel g Config.ATTENDANCE_CHANNEL_ID = Some ac ->
  vc ∈ voice_channels g ->
  m ∈ members vc ->
  has_allowed_role m = true ->
  coach_voice_states s0 !! member_id m = Some j ->
  five_minutes <= t - j ->
  tick_invariant s0 t r ->
  member_id m ∈ reminded_coaches (cog (run_of (visit_guild send_works t r g))).
Proof.
  intros Hac Hvc Hin Hrole Hj Hdue Hr. unfold visit_guild. rewrite Hac.
  apply (loop_reaches (tick_invariant s0 t)
           (fun r => member_id m ∈ reminded_coaches (cog r)) _ _ vc); try done.
  - intros r0 c. apply loop_going. intros r1 c1. apply visit_coach_going.
  - intros r0 c. apply visit_channel_invariant.
  - intros r0 c _ H. by apply visit_channel_reminded_grows.
  - intros r0. by apply (visit_due_channel s0 t vc r0 m j).
Qed.

(** X18.  A tick reminds every coach whose timer is due.  When the tick
    finds, among the coaches of a voice channel of a guild with the
    attendance channel, a member whose timer is at least five minutes old,
    and the sends go through, it sends the member a reminder stamped with
    the time of the tick and puts the member into the reminded set; the
    timer stays as it was, it is not restarted. *)
Theorem due_coach_is_reminded t gs s k g ac n vc i (m : Member) j :
  gs !! k = Some g ->
  get_channel g Config.ATTENDANCE_CHANNEL_ID = Some ac ->
  voice_channels g !! n = Some vc ->
  coaches vc s !! i = Some m ->
  coach_voice_states s !! member_id m = Some j ->
  five_minutes <= t - j ->
  let out := check_voice_duration send_works t gs s in
  member_id m ∈ reminded_coaches (fst out)
  ∧ (exists x, x ∈ snd out ∧ reminded x = member_id m ∧ sent_at x = t)
  ∧ coach_voice_states (fst out) !! member_id m = Some j.
Proof.
  intros Hg Hac Hvc Hcoach Hj Hdue out.
  apply list_elem_of_lookup_2 in Hg, Hvc, Hcoach.
  apply list_elem_of_In, filter_In in Hcoach as [Hm%list_elem_of_In Hcoach].
  apply andb_true_iff in Hcoach as [Hrole Hfresh].
  apply negb_true_iff, bool_decide_eq_false in Hfresh.
  pose proof (tick_keeps_invariant send_works t gs s) as Hinv.
  assert (Hrem : member_id m ∈ reminded_coaches (fst out)).
  { unfold out, check_voice_duration. simpl.
    apply (loop_reaches (tick_invariant s t)
             (fun r => member_id m ∈ reminded_coaches (cog r)) _ _ g); try done.
    - intros r0 g0. unfold visit_guild.
      destruct (get_channel g0 Config.ATTENDANCE_CHANNEL_ID); [|done].
      apply loop_going. intros r1 vc1. apply loop_going.
      intros r2 c2. apply visit_coach_going.
    - intros r0 g0. apply visit_guild_invariant.
    - intros r0 g0 _ H. by apply visit_guild_reminded_grows.
    - intros r0 Hr0. by apply (visit_due_guild s t g ac vc r0 m j).
    - destruct (tick_keeps_invariant send_works t [] s) as (? & ? & ? & ?).
      by split_and!. }
  destruct Hinv as (Hkept & _ & Hsent & Hset).
  split; [done|]. split; [|by apply Hkept].
  unfold out, check_voice_duration in Hrem. simpl in Hrem.
  rewrite Hset in Hrem. apply elem_of_union in Hrem as [Hrem|Hrem]; [done|].
  apply elem_of_list_to_set, list_elem_of_In, in_map_iff in Hrem
    as (x & Heq & Hx%list_elem_of_In).
  exists x. split; [done|]. split; [done|]. by destruct (Hsent x Hx).
Qed.

(** *** A tick on a member already reminded *)

Lemma visit_other_coach f t vc uid s r c :
  member_id c <> uid ->
  reminders_to uid (sent r) = []
  ∧ coach_voice_states (cog r) !! uid = coach_voice_states s !! uid ->
  reminders_to uid (sent (run_of (visit_coach f t vc r c))) = []
  ∧ coach_voice_states (cog (run_of (visit_coach f t vc r c))) !! uid
    = coach_voice_states s !! uid.
Proof.
  intros Hne [Hnone Htimer]. unfold visit_coach.
  destruct (coach_voice_states (cog r) !! member_id c) as [j|].
  - destruct (t - j >=? five_minutes); [|done].
    destruct (f (member_id c)); simpl; [done|].
    split; [|done]. rewrite reminders_to_app, Hnone. simpl.
    by rewrite bool_decide_eq_false_2.
  - simpl. split; [done|]. by rewrite lookup_insert_ne.
Qed.

(** X19.  A tick passes over a member of the reminded set: it sends the
    member nothing and leaves the member's timer, set or not, as it was,
    whatever the voice channels hold and whether the sends go through or
    not. *)
Theorem reminded_coach_is_passed_over f t gs s uid :
  uid ∈ reminded_coaches s ->
  let out := check_voice_duration f t gs s in
  reminders_to uid (snd out) = []
  ∧ coach_voice_states (fst out) !! uid = coach_voice_states s !! uid
  ∧ uid ∈ reminded_coaches (fst out).
Proof.
  intros Hrem out. unfold out, check_voice_duration. simpl.
  set (P := fun r : Run =>
              uid ∈ reminded_coaches (cog r)
              ∧ reminders_to uid (sent r) = []
              ∧ coach_voice_states (cog r) !! uid = coach_voice_states s !! uid).
  assert (HP : P (run_of (loop (visit_guild f t) gs {| cog := s; sent := [] |}))).
  { apply (loop_invariant P); [|by split_and!].
    intros r g _ Hr. unfold visit_guild.
    destruct (get_channel g Config.ATTENDANCE_CHANNEL_ID); [|done].
    apply (loop_invariant P); [|done].
    intros r1 vc _ Hr1. unfold visit_channel.
    assert (Hothers : forall c1, c1 ∈ coaches vc (cog r1) -> member_id c1 <> uid).
    { intros c1 [_ Hc]%list_elem_of_In%filter_In Heq.
      apply andb_true_iff in Hc as [_ Hc].
      apply negb_true_iff, bool_decide_eq_false in Hc.
      destruct Hr1 as [Hin _]. by rewrite Heq in Hc. }
    revert Hothers. generalize (coaches vc (cog r1)). intros cs Hothers.
    apply (loop_invariant P); [|done].
    intros r2 c2 Hc (Hin & Hnone & Htimer). split.
    - by apply visit_coach_reminded_grows.
    - apply visit_other_coach; [by apply Hothers|done]. }
  destruct HP as (? & ? & ?). done.
Qed.

End Timers.

Section TimerExamples.
Import VoiceReminderCog Scenario Epoch.

(** X18, witness: Carol joined the lobby at time 0; the tick comes at 5:01. *)
Lemma due_coach_is_reminded_witness :
  let s := cog (epoch [carol_joins] init) in
  let out := check_voice_duration send_works (seconds 301) [guild_at_take] s in
  coach_voice_states s !! member_id carol = Some 0
  ∧ five_minutes <= seconds 301 - 0
  ∧ member_id carol ∈ reminded_coaches (fst out)
  ∧ (exists x, x ∈ snd out ∧ reminded x = member_id carol ∧ sent_at x = seconds 301)
  ∧ coach_voice_states (fst out) !! member_id carol = Some 0.
Proof.
  split; [reflexivity|]. split; [vm_compute; discriminate|].
  apply (due_coach_is_reminded (seconds 301) [guild_at_take]
           (cog (epoch [carol_joins] init))
           0%nat guild_at_take attendance_channel 0%nat (lobby [carol]) 0%nat carol 0).
  - reflexivity.
  - reflexivity.
  - reflexivity.
  - vm_compute. reflexivity.
  - reflexivity.
  - vm_compute. discriminate.
Defined.

(** X19, witness: Carol has been reminded at 5:01; the tick at 10:00, with
    sends that raise, passes over her. *)
Lemma reminded_coach_is_passed_over_witness :
  let s := cog (epoch [carol_joins; tick_at (seconds 301)] init) in
  let out := check_voice_duration (fun _ => true) (seconds 600) [guild_at_take] s in
  201 ∈ reminded_coaches s
  ∧ reminders_to 201 (snd out) = []
  ∧ coach_voice_states (fst out) !! 201 = coach_voice_states s !! 201
  ∧ 201 ∈ reminded_coaches (fst out).
Proof.
  assert (H : 201 ∈ reminded_coaches
                      (cog (epoch [carol_joins; tick_at (seconds 301)] init)))
    by (apply (bool_decide_unpack _); vm_compute; exact I).
  split; [exact H|].
  exact (reminded_coach_is_passed_over (fun _ => true) (seconds 600) [guild_at_take]
           (cog (epoch [carol_joins; tick_at (seconds 301)] init)) 201 H).
Defined.

End TimerExamples.

(** ** How the report pages are filled *)

Section ReportFill.
Import AttendanceReport.

Context {Session : Type}.
Variable content : Session -> Guild -> option (Py.str * Py.str).

Lemma add_session_filled first season_ guild_ p session_ p' :
  pages_filled first season_ p ->
  add_session content season_ guild_ p session_ = Some p' ->
  pages_filled first season_ p'
  ∧ (0 < length (fields (current_embed p')))%nat
  ∧ (25 * length (embeds p') + length (fields (current_embed p'))
     = 25 * length (embeds p) + length (fields (current_embed p)) + 1)%nat.
Proof.
  intros (Hfull & Hcount & Hmax & Hheads). unfold add_session.
  destruct (content session_ guild_) as [[name value]|]; [|done].
  intros [= <-]. unfold MAX_FIELDS_PER_EMBED.
  destruct (Z.geb_spec (field_count p) 25) as [Hge|Hlt].
  - cbn [embeds current_embed field_count]. split; [|split].
    + unfold pages_filled. cbn [embeds current_embed field_count]. split_and!.
      * apply Forall_app. split; [done|]. constructor; [lia|done].
      * simpl. lia.
      * lia.
      * rewrite <- app_assoc. simpl.
        destruct (embeds p) as [|e es]; simpl in *.
        -- destruct Hheads as [Hh _]. split; [done|].
           constructor; [by split|constructor].
        -- destruct Hheads as [Hh Hrest]. split; [done|].
           apply Forall_app in Hrest as [Hes Hcur].
           apply Forall_app. split; [done|].
           apply Forall_cons in Hcur as [Hcur _].
           constructor; [done|]. constructor; [by split|constructor].
    + simpl. lia.
    + rewrite length_app. simpl. lia.
  - cbn [embeds current_embed field_count]. split; [|split].
    + unfold pages_filled. cbn [embeds current_embed field_count]. split_and!.
      * done.
      * simpl. rewrite length_app. simpl. lia.
      * lia.
      * destruct (embeds p) as [|e es]; simpl in *.
        -- destruct Hheads as [Hh _]. split; [done|constructor].
        -- destruct Hheads as [Hh Hrest]. split; [done|].
           apply Forall_app in Hrest as [Hes Hcur].
           apply Forall_app. split; [done|].
           apply Forall_cons in Hcur as [Hcur _].
           constructor; [done|constructor].
    + simpl. rewrite length_app. simpl. lia.
    + simpl. rewrite length_app. simpl. lia.
Qed.

Lemma add_sessions_filled first season_ guild_ data p p' :
  pages_filled first season_ p ->
  add_sessions content season_ guild_ data p = Some p' ->
  pages_filled first season_ p'
  ∧ (data <> [] ∨ (0 < length (fields (current_embed p)))%nat ->
     (0 < length (fields (current_embed p')))%nat)
  ∧ (25 * length (embeds p') + length (fields (current_embed p'))
     = 25 * length (embeds p) + length (fields (current_embed p)) + length data)%nat.
Proof.
  revert p. induction data as [|session_ data IH]; intros p Hp; simpl.
  - intros [= <-]. split; [done|]. split; [by intros [?|?]|lia].
  - destruct (add_session content season_ guild_ p session_) as [p1|] eqn:E1; [|done].
    destruct (add_session_filled _ _ _ _ _ _ Hp E1) as (Hp1 & Hpos1 & Hn1).
    intros Hrest. destruct (IH p1 Hp1 Hrest) as (Hp' & Hpos' & Hn').
    split; [done|]. split; [intros _; apply Hpos'; by right|lia].
Qed.

(** X20.  The pages of a report are filled in order: every page but the
    last holds exactly 25 session entries and the last holds the rest, at
    least one, so [n] sessions make [ceil(n / 25)] pages; the first page
    carries the report title and the description with the time, every
    later page the title with "(Continued)" and no description. *)
Theorem report_pages_are_filled generated_at data season_ granularity guild_ pages :
  data <> [] ->
  create_report_embeds content generated_at data season_ granularity guild_
  = Some pages ->
  length pages = ((length data + 24) / 25)%nat
  ∧ forall (i : nat) page,
      pages !! i = Some page ->
      length (fields page)
      = (if decide (S i < length pages)%nat then 25 else length data - 25 * i)%nat
      ∧ (0 < length (fields page))%nat
      ∧ same_head page
          (match i with
           | O => first_embed season_ granularity generated_at
           | S _ => continued_embed season_
           end).
Proof.
  intros Hdata. unfold create_report_embeds.
  destruct data as [|session_ data]; [done|].
  set (first := first_embed season_ granularity generated_at).
  set (p0 := {| embeds := []; current_embed := first; field_count := 0 |}).
  assert (Hp0 : pages_filled first season_ p0).
  { unfold pages_filled. simpl. split_and!; try done; by constructor. }
  destruct (add_sessions content season_ guild_ (session_ :: data) p0) as [p|] eqn:E;
    [|done].
  destruct (add_sessions_filled _ _ _ _ _ _ Hp0 E)
    as ((Hfull & Hcount & Hmax & Hheads) & Hsome & Hn).
  assert (Hcur : (0 < length (fields (current_embed p)))%nat)
    by (apply Hsome; by left).
  simpl length in Hn. rewrite Nat.mul_0_r, !Nat.add_0_l in Hn.
  assert (Hpos : (field_count p >? 0) = true) by (apply Z.gtb_lt; lia).
  rewrite Hpos. intros [= <-].
  set (n := S (length data)) in *.
  set (k := length (embeds p)) in *.
  set (c := length (fields (current_embed p))) in *.
  assert (Hlen : length (number_pages (embeds p ++ [current_embed p])) = S k).
  { rewrite number_pages_length, length_app. simpl. unfold k. lia. }
  assert (Hc : (1 <= c <= 25)%nat) by lia.
  split.
  { rewrite Hlen. apply (Nat.div_unique _ _ _ (c - 1)%nat); simpl length; lia. }
  intros i page Hpage. rewrite number_pages_lookup in Hpage.
  destruct ((embeds p ++ [current_embed p]) !! i) as [e|] eqn:Hi; [|done].
  simpl in Hpage. injection Hpage as <-. cbn [set_footer fields].
  rewrite Hlen.
  assert (Hhead : same_head e match i with
                              | O => first
                              | S _ => continued_embed season_
                              end).
  { revert Hheads Hi. generalize (embeds p ++ [current_embed p]).
    intros [|e0 es]; [done|]. intros [Hh Hrest] Hi.
    destruct i as [|i]; simpl in Hi.
    - by injection Hi as <-.
    - rewrite Forall_forall in Hrest. apply Hrest.
      by eapply list_elem_of_lookup_2. }
  destruct (decide (i < k)%nat) as [Hlt|Hge].
  - rewrite lookup_app_l in Hi by done.
    rewrite Forall_forall in Hfull.
    assert (He : length (fields e) = 25%nat)
      by (apply Hfull; by eapply list_elem_of_lookup_2).
    rewrite decide_True by lia. split_and!; [done|lia|done].
  - assert (Hik : i = k).
    { apply lookup_lt_Some in Hi. rewrite length_app in Hi. simpl in Hi.
      unfold k in *. lia. }
    subst i. rewrite lookup_app_r in Hi by (unfold k; lia).
    replace (k - length (embeds p))%nat with 0%nat in Hi by (unfold k; lia).
    simpl in Hi. injection Hi as <-.
    rewrite decide_False by lia. fold c.
    change (length (session_ :: data)) with n. split_and!; [lia|lia|done].
Qed.

End ReportFill.

Section ReportFillExamples.
Import AttendanceReport Scenario.

(** X20, witness: thirty sessions. *)
Lemma report_pages_are_filled_witness :
  exists pages,
    create_report_embeds
      (fun (n : nat) _ => Some (Py.lit "Session", Py.str_of_nat n))
      (Py.lit "2025-01-01 00:00:00") (seq 0 30) 3 WEEKLY guild_at_take
    = Some pages
    ∧ length pages = ((length (seq 0 30) + 24) / 25)%nat
    ∧ forall (i : nat) page,
        pages !! i = Some page ->
        length (fields page)
        = (if decide (S i < length pages)%nat then 25
           else length (seq 0 30) - 25 * i)%nat
        ∧ (0 < length (fields page))%nat
        ∧ same_head page
            (match i with
             | O => first_embed 3 WEEKLY (Py.lit "2025-01-01 00:00:00")
             | S _ => continued_embed 3
             end).
Proof.
  eexists. split; [vm_compute; reflexivity|].
  apply (report_pages_are_filled
           (fun (n : nat) _ => Some (Py.lit "Session", Py.str_of_nat n))
           (Py.lit "2025-01-01 00:00:00") (seq 0 30) 3 WEEKLY guild_at_take).
  - discriminate.
  - vm_compute. reflexivity.
Defined.

End ReportFillExamples.

(** ** The fields of the report *)

Section Decimal.

Lemma string_of_uint_digits d c :
  In c (list_ascii_of_string (NilEmpty.string_of_uint d)) ->
  (48 <= N_of_ascii c <= 57)%N.
Proof.
  induction d; simpl; try done;
    (intros [<-|H]; [vm_compute; split; discriminate|by apply IHd]).
Qed.

(** The decimal writing of an integer holds digits and the minus sign. *)
Lemma str_of_Z_chars z c :
  c ∈ Py.str_of_Z z -> c = 45%N ∨ (48 <= c <= 57)%N.
Proof.
  unfold Py.str_of_Z, Py.lit.
  intros (a & <- & Ha)%list_elem_of_In%in_map_iff.
  assert (Hu : forall d, In a (list_ascii_of_string (NilZero.string_of_uint d)) ->
                         (48 <= N_of_ascii a <= 57)%N).
  { intros d Hd. destruct d; try (by apply (string_of_uint_digits _ _ Hd)).
    simpl in Hd. destruct Hd as [<-|[]]. vm_compute. split; discriminate. }
  destruct (Z.to_int z) as [d|d]; simpl in Ha.
  - right. by apply (Hu d).
  - destruct Ha as [<-|Ha]; [by left|]. right. by apply (Hu d).
Qed.

Lemma str_of_Z_no_comma z : SessionFields.comma ∉ Py.str_of_Z z.
Proof.
  intros [H|H]%str_of_Z_chars; [discriminate|].
  unfold SessionFields.comma in H. lia.
Qed.

Lemma str_of_Z_no_colon z : SessionFields.colon ∉ Py.str_of_Z z.
Proof.
  intros [H|H]%str_of_Z_chars; [discriminate|].
  unfold SessionFields.colon in H. lia.
Qed.

Lemma decimal_int_str z : decimal_int (Py.str_of_Z z) = Some z.
Proof.
  unfold decimal_int, Py.str_of_Z, Py.lit.
  rewrite List.map_map.
  rewrite (List.map_ext _ (fun a => a)) by apply ascii_N_embedding.
  rewrite List.map_id, string_of_list_ascii_of_string.
  destruct (to_int_proper z) as [H1 H2].
  rewrite (NilZero.isi _ H1 H2). simpl. by rewrite DecimalZ.of_to.
Qed.

End Decimal.

Section FieldContent.
Import SessionFields.

Context {Date : Type}.
Variable strftime : Date -> Py.str.
Variable py_int : Py.str -> option Z.

(** [int] reads the decimal writing of an integer. *)
Hypothesis py_int_decimal : forall z, py_int (Py.str_of_Z z) = Some z.

Lemma absence_no_comma row : comma ∉ absence row.
Proof.
  unfold absence. intros [H|[H|H]%elem_of_app]%elem_of_app.
  - by apply str_of_Z_no_comma in H.
  - by apply list_elem_of_singleton in H.
  - by apply str_of_Z_no_comma in H.
Qed.

Lemma add_student_absence guild_ acc row :
  add_student py_int guild_ acc (absence row)
  = Some (acc ++ match listed_student guild_ row with
                 | Some line => [line]
                 | None => []
                 end).
Proof.
  unfold add_student, absence, listed_student. simpl app.
  rewrite split_app by apply str_of_Z_no_colon.
  rewrite split_without by apply str_of_Z_no_colon.
  rewrite py_int_decimal.
  destruct (get_member guild_ (fst row)) as [member|]; [|by rewrite app_nil_r].
  rewrite py_int_decimal. by destruct (snd row).
Qed.

Lemma add_students_absences guild_ acc rows :
  add_students py_int guild_ acc (List.map absence rows)
  = Some (acc ++ listed_students guild_ rows).
Proof.
  revert acc. induction rows as [|row rows IH]; intros acc; simpl.
  - by rewrite app_nil_r.
  - rewrite add_student_absence, IH. unfold listed_students. simpl.
    destruct (listed_student guild_ row); simpl; by rewrite <- app_assoc.
Qed.

Lemma encode_absences_nil rows : encode_absences rows = [] -> rows = [].
Proof.
  destruct rows as [|row rows]; [done|]. unfold encode_absences. simpl.
  intros H. exfalso.
  assert (Hc : colon ∈ absence row)
    by (unfold absence; apply elem_of_app; right; left).
  destruct (List.map absence rows); simpl in H.
  - rewrite H in Hc. by apply elem_of_nil in Hc.
  - apply (f_equal (@length N)) in H. rewrite length_app in H. simpl in H.
    destruct (absence row); [by apply elem_of_nil in Hc|simpl in H; lia].
Qed.

Lemma absent_students_of_encoded (session_ : @Session Date) guild_ rows :
  absent_data session_ = Some (encode_absences rows) ->
  absent_students_of py_int session_ guild_ = Some (listed_students guild_ rows).
Proof.
  intros Hdata. unfold absent_students_of. rewrite Hdata.
  destruct (encode_absences rows) as [|c data] eqn:E.
  - by rewrite (encode_absences_nil rows E).
  - rewrite <- E. unfold encode_absences. rewrite split_join.
    + apply (add_students_absences guild_ []).
    + destruct rows; [done|discriminate].
    + apply Forall_forall. intros p (row & <- & _)%list_elem_of_In%in_map_iff.
      apply absence_no_comma.
Qed.

(** X21.  The report field of a session lists what the query wrote into
    [absent_data]: for a column that holds the ids and excused flags of the
    absent rows, [create_session_field_content] does not raise, and the
    value lists, numbered from 1 and in the order of the column, the
    display name of every student who is still a member of the guild, with
    "(Excused)" or "(Unexcused)"; a student who has left the guild is
    dropped from the list, and when none is left the value says "Everyone
    Present!", whatever the totals in the summary line say. *)
Theorem report_field_lists_found_students (session_ : @Session Date) guild_ rows :
  absent_data session_ = Some (encode_absences rows) ->
  exists field_name_,
    create_session_field_content strftime py_int session_ guild_
    = Some (field_name_,
            Py.lit "**Absent:**" ++ [Py.newline]
            ++ match listed_students guild_ rows with
               | [] => everyone_present
               | _ :: _ => student_lines (listed_students guild_ rows)
               end
            ++ summary_line session_).
Proof.
  intros Hdata. unfold create_session_field_content.
  rewrite (absent_students_of_encoded _ _ _ Hdata).
  eexists. destruct (listed_students guild_ rows); by rewrite <- !app_assoc.
Qed.

Lemma content_of_well_formed (session_ : @Session Date) guild_ :
  well_formed session_ ->
  is_Some (create_session_field_content strftime py_int session_ guild_).
Proof.
  intros [Hnone | (rows & Hrows)].
  - unfold create_session_field_content, absent_students_of. rewrite Hnone.
    by eexists.
  - unfold create_session_field_content.
    rewrite (absent_students_of_encoded _ _ _ Hrows). by eexists.
Qed.

End FieldContent.

(** ** The [report] command *)

Section ReportAnswers.
Import AttendanceReport ReportCommand.

Context {Date : Type}.
Variable strftime : Date -> Py.str.
Variable py_int : Py.str -> option Z.
Variable query : Db.Tables -> Z -> Z -> list (@SessionFields.Session Date).

Lemma create_report_embeds_some {Session} (content : Session -> Guild -> option (Py.str * Py.str))
    generated_at data season_ granularity guild_ :
  (forall session_, session_ ∈ data -> is_Some (content session_ guild_)) ->
  exists page pages,
    create_report_embeds content generated_at data season_ granularity guild_
    = Some (page :: pages).
Proof.
  intros Hall. unfold create_report_embeds.
  destruct data as [|session_ data]; [by eexists _, _|].
  set (p0 := {| embeds := [];
                current_embed := first_embed season_ granularity generated_at;
                field_count := 0 |}).
  assert (Hp0 : paging_ok p0).
  { unfold paging_ok, within_limits, MAX_FIELDS_PER_EMBED. simpl.
    split_and!; try done; lia. }
  pose proof (add_sessions_spec content season_ guild_ (session_ :: data) p0 Hp0) as H.
  destruct (add_sessions content season_ guild_ (session_ :: data) p0) as [p|].
  - destruct H as (cs & _ & _ & Hpos & _).
    assert (Hgt : (field_count p >? 0) = true)
      by (apply Z.gtb_lt, Hpos; by right).
    rewrite Hgt.
    pose proof (number_pages_length (embeds p ++ [current_embed p])) as Hlen.
    destruct (number_pages (embeds p ++ [current_embed p])) as [|page pages].
    + rewrite length_app in Hlen. simpl in Hlen. lia.
    + by eexists _, _.
  - destruct H as (s & Hin & Hnone). destruct (Hall s Hin) as [? ?]. congruence.
Qed.

Lemma answer_error_sent w before : answer_error w before = error_sent w before.
Proof.
  unfold answer_error, error_sent.
  by destruct (followup_fails w (SendText report_error)).
Qed.

Lemma accepted_pages_length w pages :
  (length (accepted_pages w pages) <= length pages)%nat.
Proof.
  induction pages as [|page rest IH]; simpl; [done|].
  destruct (followup_fails w (SendEmbed page)); simpl; lia.
Qed.

(** The sending loop, from the followups sent before it. *)
Lemma send_pages_spec w before pages :
  send_pages w before pages
  = {| followups := before ++ followups (pages_sent w pages);
       command_raised := command_raised (pages_sent w pages) |}.
Proof.
  revert before. induction pages as [|page rest IH]; intros before.
  - simpl. by rewrite app_nil_r.
  - cbn [send_pages]. unfold pages_sent. cbn [accepted_pages].
    destruct (followup_fails w (SendEmbed page)) eqn:Hpage.
    + simpl. rewrite answer_error_sent. unfold error_sent.
      destruct (followup_fails w (SendText report_error)); simpl;
        by rewrite ?app_nil_r.
    + rewrite IH. unfold pages_sent. cbn [length List.map].
      pose proof (accepted_pages_length w rest) as Hle.
      destruct (Nat.eqb_spec (length (accepted_pages w rest)) (length rest))
        as [Heq|Hne].
      * rewrite (proj2 (Nat.eqb_eq _ _)) by (simpl; lia). simpl.
        by rewrite <- app_assoc.
      * rewrite (proj2 (Nat.eqb_neq _ _)) by (simpl; lia).
        unfold error_sent.
        destruct (followup_fails w (SendText report_error)); simpl;
          by rewrite <- ?app_assoc.
Qed.

Lemma send_pages_sent w pages : send_pages w [] pages = pages_sent w pages.
Proof. rewrite send_pages_spec. simpl. by destruct (pages_sent w pages). Qed.

Lemma pages_sent_all w pages :
  Forall (fun page => followup_fails w (SendEmbed page) = false) pages ->
  pages_sent w pages
  = {| followups := List.map SendEmbed pages; command_raised := false |}.
Proof.
  intros Hall. unfold pages_sent.
  assert (Hacc : accepted_pages w pages = pages).
  { induction pages as [|page rest IH]; simpl; [done|].
    apply Forall_cons in Hall as [-> Hrest]. by rewrite IH. }
  by rewrite Hacc, Nat.eqb_refl.
Qed.

(** The rows [get_report_data] gives when a call raises. *)
Lemma get_report_data_raises f c season_ days :
  Db.calls c = 0%nat ->
  Db.raises f 0%nat = true ∨ Db.raises f 1%nat = true ->
  get_report_data query f c season_ days = [].
Proof.
  intros Hc Hraise. unfold get_report_data, Db.bind, Db.cursor, Db.call.
  rewrite Hc. destruct (Db.raises f 0%nat) eqn:E0; [done|].
  destruct Hraise as [?|E1]; [done|].
  unfold Db.tick_call. cbn [Db.calls]. by rewrite Hc, E1.
Qed.

(** X22.  A database error reads as an empty period: when the cursor or
    the query of [get_report_data] raises, [report] sets out to send the
    one "No Data" page, the page it sends when the query finds no session.
    When Discord accepts the deferral and the page, this page is all it
    sends; when Discord refuses one of them, it sends the error text. *)
Theorem failed_query_reads_as_no_data w f generated_at i granularity report_type
    season_ st :
  has_allowed_role (user i) = true ->
  granularity_of granularity = Some report_type ->
  Db.connect_ok f = true ->
  Db.raises f 0%nat = true ∨ Db.raises f 1%nat = true ->
  let no_data := add_field (first_embed season_ report_type generated_at)
                           no_data_field in
  report strftime py_int query w f generated_at i granularity season_ st
  = (if defer_fails w then error_sent w [] else pages_sent w [no_data])
  ∧ (defer_fails w = false ->
     followup_fails w (SendEmbed no_data) = false ->
     report strftime py_int query w f generated_at i granularity season_ st
     = {| followups := [SendEmbed no_data]; command_raised := false |}).
Proof.
  intros Hrole Hgran Hconn Hraise no_data.
  assert (Hreport : report strftime py_int query w f generated_at i granularity
                      season_ st
                    = if defer_fails w then error_sent w []
                      else pages_sent w [no_data]).
  { unfold report. rewrite Hrole. simpl negb. cbv iota.
    destruct (defer_fails w); [apply answer_error_sent|].
    rewrite Hgran. unfold Db.create_connection. rewrite Hconn.
    rewrite get_report_data_raises by done.
    cbn [create_report_embeds]. fold no_data. apply send_pages_sent. }
  split; [done|]. intros Hdefer Hpage. rewrite Hreport, Hdefer.
  apply pages_sent_all. by constructor.
Qed.

(** [int] reads the decimal writing of an integer. *)
Hypothesis py_int_decimal : forall z, py_int (Py.str_of_Z z) = Some z.

(** X23.  On rows whose [absent_data] is [NULL] or the whole concatenation
    the query writes, not one that MySQL has cut at its length limit,
    [create_report_embeds] does not raise and gives at least one page, and
    [report], for a caller with an allowed role, a known granularity and a
    connection that opens, sets out to send these pages whether the query
    works or raises: it sends them in order up to the first one Discord
    refuses, all of them when none is refused, and the error text only
    after a refused deferral or page. *)
Theorem report_sends_pages_for_well_formed_rows w f generated_at i granularity
    report_type season_ st :
  has_allowed_role (user i) = true ->
  granularity_of granularity = Some report_type ->
  Db.connect_ok f = true ->
  (forall tables days, Forall well_formed (query tables season_ days)) ->
  exists page pages,
    create_report_embeds
      (SessionFields.create_session_field_content strftime py_int)
      generated_at
      (get_report_data query f
         {| Db.committed := Db.tables st; Db.working := Db.tables st;
            Db.session_counter := Db.next_session_id st;
            Db.user_counter := Db.next_user_id st; Db.calls := 0 |}
         season_ (days_back report_type))
      season_ report_type (guild i)
    = Some (page :: pages)
    ∧ report strftime py_int query w f generated_at i granularity season_ st
      = (if defer_fails w then error_sent w []
         else pages_sent w (page :: pages))
    ∧ (defer_fails w = false ->
       Forall (fun p => followup_fails w (SendEmbed p) = false) (page :: pages) ->
       report strftime py_int query w f generated_at i granularity season_ st
       = {| followups := List.map SendEmbed (page :: pages);
            command_raised := false |}).
Proof.
  intros Hrole Hgran Hconn Hwf.
  set (c0 := {| Db.committed := Db.tables st; Db.working := Db.tables st;
                Db.session_counter := Db.next_session_id st;
                Db.user_counter := Db.next_user_id st; Db.calls := 0 |}).
  set (data := get_report_data query f c0 season_ (days_back report_type)).
  assert (Hdata : Forall well_formed data).
  { unfold data, get_report_data.
    destruct (Db.bind _ _ f _) as [[results|] c'] eqn:E; [|constructor].
    unfold Db.bind, Db.cursor, Db.call in E. simpl in E.
    destruct (Db.raises f 0%nat); [discriminate|]. simpl in E.
    destruct (Db.raises f 1%nat); [discriminate|].
    injection E as <- _. apply Hwf. }
  destruct (create_report_embeds_some
              (SessionFields.create_session_field_content strftime py_int)
              generated_at data season_ report_type (guild i))
    as (page & pages & Hpages).
  { intros session_ Hin. apply content_of_well_formed; [done|].
    rewrite Forall_forall in Hdata. by apply Hdata. }
  exists page, pages. split; [done|].
  assert (Hreport : report strftime py_int query w f generated_at i granularity
                      season_ st
                    = if defer_fails w then error_sent w []
                      else pages_sent w (page :: pages)).
  { unfold report. rewrite Hrole. simpl negb. cbv iota.
    destruct (defer_fails w); [apply answer_error_sent|].
    rewrite Hgran. unfold Db.create_connection. rewrite Hconn.
    fold c0. fold data. rewrite Hpages. apply send_pages_sent. }
  split; [done|]. intros Hdefer Hall. rewrite Hreport, Hdefer.
  by apply pages_sent_all.
Qed.

End ReportAnswers.

Section ReportAnswersExamples.
Import AttendanceReport ReportCommand SessionFields Scenario.

Example aim_is_encoded :
  absent_data Reported.aim
  = Some (encode_absences [(101, true); (102, false); (999, false)])
  ∧ listed_students guild_at_take [(101, true); (102, false); (999, false)]
    = [Py.lit "Alice (Excused)"; Py.lit "Bob (Unexcused)"].
Proof. vm_compute. split; reflexivity. Qed.

(** X21, witness: the session with Alice, Bob and a student who has left. *)
Lemma report_field_lists_found_students_witness :
  exists field_name_,
    create_session_field_content Reported.strftime decimal_int Reported.aim
      guild_at_take
    = Some (field_name_,
            Py.lit "**Absent:**" ++ [Py.newline]
            ++ match listed_students guild_at_take
                       [(101, true); (102, false); (999, false)] with
               | [] => everyone_present
               | _ :: _ =>
                   student_lines (listed_students guild_at_take
                                    [(101, true); (102, false); (999, false)])
               end
            ++ summary_line Reported.aim).
Proof.
  apply (report_field_lists_found_students Reported.strftime decimal_int
           decimal_int_str Reported.aim guild_at_take
           [(101, true); (102, false); (999, false)]).
  vm_compute. reflexivity.
Defined.

(** The only absent student of the session has left the guild: the field
    says that everyone was present, above a total of one absence. *)
Example everyone_present_with_an_absence :
  option_map snd
    (create_session_field_content Reported.strftime decimal_int
       Reported.movement guild_at_take)
  = Some (Py.lit "**Absent:**" ++ [Py.newline] ++ everyone_present
          ++ [Py.newline] ++ Py.lit "Total Absences: **1** (Excused: 0)").
Proof. vm_compute. reflexivity. Qed.

(** X22, witness: Carol asks for the weekly report; the query raises. *)
Lemma failed_query_reads_as_no_data_witness :
  let no_data := add_field (first_embed 3 WEEKLY (Py.lit "2025-01-01 00:00:00"))
                           no_data_field in
  report Reported.strftime decimal_int Reported.query works Reported.query_raises
    (Py.lit "2025-01-01 00:00:00") carol_takes (Py.lit "weekly") 3 empty_store
  = (if defer_fails works then error_sent works [] else pages_sent works [no_data])
  ∧ (defer_fails works = false ->
     followup_fails works (SendEmbed no_data) = false ->
     report Reported.strftime decimal_int Reported.query works
       Reported.query_raises (Py.lit "2025-01-01 00:00:00") carol_takes
       (Py.lit "weekly") 3 empty_store
     = {| followups := [SendEmbed no_data]; command_raised := false |}).
Proof.
  apply (failed_query_reads_as_no_data Reported.strftime decimal_int
           Reported.query works Reported.query_raises
           (Py.lit "2025-01-01 00:00:00")
           carol_takes (Py.lit "weekly") WEEKLY 3 empty_store).
  - reflexivity.
  - vm_compute. reflexivity.
  - reflexivity.
  - right. reflexivity.
Defined.

Lemma reported_rows_well_formed tables days :
  Forall well_formed (Reported.query tables 3 days).
Proof.
  unfold Reported.query. constructor; [|constructor; [|constructor]].
  - right. exists [(101, true); (102, false); (999, false)]. vm_compute. reflexivity.
  - right. exists [(999, false)]. vm_compute. reflexivity.
Defined.

(** X23, witness: Carol asks for the weekly report of the two sessions. *)
Lemma report_sends_pages_for_well_formed_rows_witness :
  exists page pages,
    create_report_embeds
      (create_session_field_content Reported.strftime decimal_int)
      (Py.lit "2025-01-01 00:00:00")
      (get_report_data Reported.query Db.no_faults
         {| Db.committed := Db.tables empty_store;
            Db.working := Db.tables empty_store;
            Db.session_counter := Db.next_session_id empty_store;
            Db.user_counter := Db.next_user_id empty_store; Db.calls := 0 |}
         3 (days_back WEEKLY))
      3 WEEKLY (guild carol_takes)
    = Some (page :: pages)
    ∧ report Reported.strftime decimal_int Reported.query works Db.no_faults
        (Py.lit "2025-01-01 00:00:00") carol_takes (Py.lit "weekly") 3 empty_store
      = (if defer_fails works then error_sent works []
         else pages_sent works (page :: pages))
    ∧ (defer_fails works = false ->
       Forall (fun p => followup_fails works (SendEmbed p) = false) (page :: pages) ->
       report Reported.strftime decimal_int Reported.query works Db.no_faults
         (Py.lit "2025-01-01 00:00:00") carol_takes (Py.lit "weekly") 3 empty_store
       = {| followups := List.map SendEmbed (page :: pages);
            command_raised := false |}).
Proof.
  apply (report_sends_pages_for_well_formed_rows Reported.strftime decimal_int
           Reported.query decimal_int_str works Db.no_faults
           (Py.lit "2025-01-01 00:00:00") carol_takes (Py.lit "weekly") WEEKLY 3
           empty_store).
  - reflexivity.
  - vm_compute. reflexivity.
  - reflexivity.
  - apply reported_rows_well_formed.
Defined.

(** Discord refuses the page: the command sends the error text instead. *)
Example refused_page_is_answered_with_the_error :
  report Reported.strftime decimal_int Reported.query Reported.refuses_embeds
    Db.no_faults (Py.lit "2025-01-01 00:00:00") carol_takes (Py.lit "weekly") 3
    empty_store
  = {| followups := [SendText report_error]; command_raised := false |}.
Proof. vm_compute. reflexivity. Qed.

(** A column that MySQL has cut in the middle of a pair: the unpacking of
    the last piece raises, and the command sends the error text. *)
Example cut_column_is_answered_with_the_error :
  create_session_field_content Reported.strftime decimal_int Reported.cut
    guild_at_take = None
  ∧ report Reported.strftime decimal_int (fun _ _ _ => [Reported.cut]) works
      Db.no_faults (Py.lit "2025-01-01 00:00:00") carol_takes (Py.lit "weekly") 3
      empty_store
    = {| followups := [SendText report_error]; command_raised := false |}.
Proof. vm_compute. split; reflexivity. Qed.

End ReportAnswersExamples.
